(** * MMOMaker relay server (server.js): a shallow embedding and its properties

    The development follows server.js top-down: the packet type tables, the
    Buffer primitives the script calls, the JavaScript values it stores, the
    module state ([playerCount], [idToSocket], [socketToData], ...), and then
    each function of the script as a computation in a small state-and-exception
    monad.  Exceptions keep the state reached when they were thrown: a throw
    does not undo the writes made before it. *)

From Stdlib Require Import ZArith Lia Strings.Byte Strings.String Strings.Ascii DecimalString Sorted.
From stdpp Require Import gmap list.

Set Warnings "-register-all".

Open Scope Z_scope.

(** ** Packet type tables (server.js lines 7-48) *)

Module serverNet.
Definition assign : Z := 1.
Definition message : Z := 2.
Definition miscData : Z := 3.
Definition pos : Z := 4.
Definition myRoom : Z := 5.
Definition outfit : Z := 6.
Definition name : Z := 7.
Definition leave : Z := 8.
Definition playerObj : Z := 9.
Definition heartbeat : Z := 10.
End serverNet.

Module clientNet.
Definition ID : Z := 20.
Definition pos : Z := 21.
Definition myRoom : Z := 22.
Definition outfit : Z := 23.
Definition name : Z := 24.
Definition message : Z := 25.
Definition email : Z := 26.
Definition upload : Z := 27.
Definition miscData : Z := 28.
Definition heartbeat : Z := 29.
End clientNet.

Module clusterNet.
Definition count : Z := 40.
Definition playerData : Z := 41.
Definition miscData : Z := 42.
Definition type : Z := 43.
Definition serverData : Z := 44.
Definition queue : Z := 45.
Definition leave : Z := 46.
End clusterNet.

(** [let serverIndex = 0] (line 50); no statement of the script assigns it. *)
Definition serverIndex : Z := 0.

(** [const tcpPort = 63456] (line 110). *)
Definition tcpPort : Z := 63456.

(** ** Bytes and Buffers *)

Definition byteZ (b : byte) : Z := Z.of_N (Byte.to_N b).

Definition Zbyte (z : Z) : byte := default x00 (Byte.of_N (Z.to_N (z mod 256))).

(** A Node Buffer is its sequence of bytes. *)
Abbreviation Buffer := (list byte).

Definition byteLength (b : Buffer) : Z := Z.of_nat (length b).

(** [Buffer.alloc n], and what [fill(0)] leaves in a buffer of [n] bytes. *)
Definition Buffer_alloc (n : nat) : Buffer := replicate n x00.
Arguments Buffer_alloc : simpl never.

(** The bytes [off, off+n) lie inside the buffer. *)
Definition inRange (b : Buffer) (off n : Z) : bool :=
  (0 <=? off) && (off + n <=? byteLength b).

Definition byteAt (b : Buffer) (off : Z) : Z :=
  byteZ (default x00 (b !! Z.to_nat off)).

(** The read methods throw RangeError outside the buffer: [None] here. *)
Definition readUInt8 (b : Buffer) (off : Z) : option Z :=
  if inRange b off 1 then Some (byteAt b off) else None.

Definition toInt16 (u : Z) : Z := if u <? 32768 then u else u - 65536.

Definition readInt16LE (b : Buffer) (off : Z) : option Z :=
  if inRange b off 2
  then Some (toInt16 (byteAt b off + 256 * byteAt b (off + 1)))
  else None.

Definition poke (b : Buffer) (off v : Z) : Buffer := <[Z.to_nat off := Zbyte v]> b.

(** The write methods throw RangeError when the value does not fit the field or
    the field does not lie inside the buffer: [None] here. *)
Definition writeUInt8 (b : Buffer) (v off : Z) : option Buffer :=
  if (0 <=? v) && (v <=? 255) && inRange b off 1 then Some (poke b off v) else None.

Definition writeUInt16LE (b : Buffer) (v off : Z) : option Buffer :=
  if (0 <=? v) && (v <=? 65535) && inRange b off 2
  then Some (poke (poke b off v) (off + 1) (v / 256))
  else None.

Definition writeInt16LE (b : Buffer) (v off : Z) : option Buffer :=
  if (-32768 <=? v) && (v <=? 32767) && inRange b off 2
  then Some (poke (poke b off v) (off + 1) (v / 256))
  else None.

Arguments writeUInt8 : simpl never.
Arguments writeUInt16LE : simpl never.
Arguments writeInt16LE : simpl never.

(** [b.slice(s, e)] for [0 <= s <= e <= length]. *)
Definition slice (b : Buffer) (s e : Z) : Buffer :=
  take (Z.to_nat (e - s)) (drop (Z.to_nat s) b).

(** ** JavaScript strings and values *)

(** A JavaScript string is its sequence of UTF-16 code units. *)
Abbreviation jsstring := (list N).

(** A string literal of the script, for literals of 7-bit characters. *)
Definition js (s : string) : jsstring := map N_of_ascii (list_ascii_of_string s).

(** The values the script handles: what JSON.parse returns, plus [undefined].
    A number is kept as its Number::toString image, the only thing the script
    makes of it (property keys and string concatenation).  Arrays are objects:
    they take named properties beside their elements. *)
Inductive Value : Type :=
| VUndef
| VNull
| VBool (b : bool)
| VNum (repr : jsstring)
| VStr (s : jsstring)
| VArr (elems : list Value) (props : list (jsstring * Value))
| VObj (props : list (jsstring * Value)).

Definition numZ (z : Z) : Value :=
  VNum (js (NilZero.string_of_int (Z.to_int z))).

(** ToString on primitives; on an object or array it runs the object's own
    [toString]/[valueOf], which is outside this model: [None]. *)
Definition ToString (v : Value) : option jsstring :=
  match v with
  | VUndef => Some (js "undefined")
  | VNull => Some (js "null")
  | VBool true => Some (js "true")
  | VBool false => Some (js "false")
  | VNum r => Some r
  | VStr s => Some s
  | VArr _ _ | VObj _ => None
  end.

Fixpoint assoc_get (k : jsstring) (ps : list (jsstring * Value)) : option Value :=
  match ps with
  | [] => None
  | (k', v) :: r => if decide (k = k') then Some v else assoc_get k r
  end.

(** Assignment to a named property: in place when the object has it, appended
    otherwise. *)
Fixpoint assoc_set (k : jsstring) (v : Value) (ps : list (jsstring * Value))
  : list (jsstring * Value) :=
  match ps with
  | [] => [(k, v)]
  | (k', v') :: r => if decide (k = k') then (k, v) :: r else (k', v') :: assoc_set k v r
  end.

(** [o.k] for the property names the script reads ([uid]): TypeError ([None])
    on null and undefined, [undefined] on the other primitives. *)
Definition getProp (o : Value) (k : jsstring) : option Value :=
  match o with
  | VUndef | VNull => None
  | VObj ps | VArr _ ps => Some (default VUndef (assoc_get k ps))
  | _ => Some VUndef
  end.

(** [o.k = v] for the property names the script writes ([uid], [pos],
    [myRoom], [name], [outfit]): TypeError ([None]) on null and undefined; the
    script is not in strict mode, so on the other primitives the assignment is
    dropped silently. *)
Definition setProp (o : Value) (k : jsstring) (v : Value) : option Value :=
  match o with
  | VUndef | VNull => None
  | VObj ps => Some (VObj (assoc_set k v ps))
  | VArr es ps => Some (VArr es (assoc_set k v ps))
  | p => Some p
  end.

(** The property names every plain object inherits from Object.prototype: the
    [in] operator answers true for them on [socketToData = {}]. *)
Definition protoKeys : list jsstring :=
  map js [ "constructor"; "__defineGetter__"; "__defineSetter__"; "hasOwnProperty";
           "__lookupGetter__"; "__lookupSetter__"; "isPrototypeOf";
           "propertyIsEnumerable"; "toString"; "valueOf"; "__proto__";
           "toLocaleString" ]%string.

(** ** The runtime's codecs

    UTF-8 decoding and encoding and the JSON codec belong to Node, not to the
    script; the model takes them as an interface and every theorem below holds
    for any implementation of it. *)
Class Runtime : Type := {
  (** [b.toString("utf-8")] of a whole Buffer *)
  utf8Slice : Buffer -> jsstring;
  (** the UTF-8 encoding of a string, one group of bytes per character *)
  utf8Chars : jsstring -> list (list byte);
  (** [JSON.parse]; [None] is its SyntaxError *)
  JSON_parse : jsstring -> option Value;
  (** [JSON.stringify] of a value other than [undefined] *)
  JSON_stringify : Value -> jsstring
}.

(** ** Sockets and the module state *)

(** A connection object with the properties the script gives it ([isWS], [uid],
    [id]), the buffers handed to its [write]/[send] so far (oldest first), and
    whether [destroy]/[close] was called and the data listener installed. *)
Record Socket : Type := mkSocket {
  isWS : bool;
  uid : Value;
  id : Z;
  sent : list Buffer;
  closed : bool;
  listening : bool
}.

Definition newSocket : Socket :=
  {| isWS := false; uid := VUndef; id := 0; sent := []; closed := false; listening := false |}.

(** A socket parameter that may hold [-1] ([serverSocket]): [None] is [-1]. *)
Abbreviation SocketOrMinus1 := (option nat).

(** The module-level variables.  [idToSocket] is kept in ascending order of its
    integer keys, the order [Object.values] enumerates them in; its values are
    references into [sockets], the connection objects by identity. *)
Record State : Type := mkState {
  playerCount : Z;
  idToSocket : list (Z * nat);
  socketToData : gmap jsstring Value;
  unifiedCluster : bool;
  nodes : Value;
  buf : Buffer;
  bufLarge : Buffer;
  sockets : nat -> Socket
}.

Definition initialState : State :=
  {| playerCount := 0; idToSocket := []; socketToData := ∅; unifiedCluster := false;
     nodes := VObj []; buf := Buffer_alloc 512; bufLarge := Buffer_alloc 4096;
     sockets := fun _ => newSocket |}.

Definition set_playerCount (v : Z) (s : State) : State :=
  mkState v (idToSocket s) (socketToData s) (unifiedCluster s) (nodes s) (buf s) (bufLarge s) (sockets s).
Definition set_idToSocket (v : list (Z * nat)) (s : State) : State :=
  mkState (playerCount s) v (socketToData s) (unifiedCluster s) (nodes s) (buf s) (bufLarge s) (sockets s).
Definition set_socketToData (v : gmap jsstring Value) (s : State) : State :=
  mkState (playerCount s) (idToSocket s) v (unifiedCluster s) (nodes s) (buf s) (bufLarge s) (sockets s).
Definition set_unifiedCluster (v : bool) (s : State) : State :=
  mkState (playerCount s) (idToSocket s) (socketToData s) v (nodes s) (buf s) (bufLarge s) (sockets s).
Definition set_buf (v : Buffer) (s : State) : State :=
  mkState (playerCount s) (idToSocket s) (socketToData s) (unifiedCluster s) (nodes s) v (bufLarge s) (sockets s).
Definition set_bufLarge (v : Buffer) (s : State) : State :=
  mkState (playerCount s) (idToSocket s) (socketToData s) (unifiedCluster s) (nodes s) (buf s) v (sockets s).
Definition set_sockets (v : nat -> Socket) (s : State) : State :=
  mkState (playerCount s) (idToSocket s) (socketToData s) (unifiedCluster s) (nodes s) (buf s) (bufLarge s) v.

Definition upd (r : nat) (x : Socket) (h : nat -> Socket) : nat -> Socket :=
  fun r' => if Nat.eqb r' r then x else h r'.

(** *** The registry object [idToSocket] *)

Fixpoint reg_get (k : Z) (r : list (Z * nat)) : option nat :=
  match r with
  | [] => None
  | (k', v) :: r' => if k =? k' then Some v else reg_get k r'
  end.

(** [idToSocket[k] = v] *)
Fixpoint reg_set (k : Z) (v : nat) (r : list (Z * nat)) : list (Z * nat) :=
  match r with
  | [] => [(k, v)]
  | (k', v') :: r' =>
      if k <? k' then (k, v) :: r
      else if k =? k' then (k, v) :: r'
      else (k', v') :: reg_set k v r'
  end.

(** [delete idToSocket[k]] *)
Definition reg_delete (k : Z) (r : list (Z * nat)) : list (Z * nat) :=
  filter (fun p => fst p ≠ k) r.

Definition Object_values (r : list (Z * nat)) : list nat := map snd r.

(** ** The monad: state, exceptions, and the two ways a run has no result *)

Inductive Error : Type := RangeError | TypeError | ReferenceError | SyntaxError.

Inductive Outcome (A : Type) : Type :=
| Ret (a : A) (s : State)      (** normal completion *)
| Throw (e : Error) (s : State) (** an exception left the function *)
| OutOfFuel                     (** a loop took more steps than the bound given *)
| Unmodelled.                   (** the run left the part of JavaScript modelled here *)
Arguments Ret {A} a s.
Arguments Throw {A} e s.
Arguments OutOfFuel {A}.
Arguments Unmodelled {A}.

Definition M (A : Type) : Type := State -> Outcome A.

Definition ret {A} (a : A) : M A := fun s => Ret a s.

Definition bind {A B} (m : M A) (f : A -> M B) : M B :=
  fun s =>
    match m s with
    | Ret a s' => f a s'
    | Throw e s' => Throw e s'
    | OutOfFuel => OutOfFuel
    | Unmodelled => Unmodelled
    end.

Definition throw {A} (e : Error) : M A := fun s => Throw e s.
Definition unmodelled {A} : M A := fun _ => Unmodelled.
Definition outOfFuel {A} : M A := fun _ => OutOfFuel.
Definition gets {A} (f : State -> A) : M A := fun s => Ret (f s) s.
Definition modify (f : State -> State) : M unit := fun s => Ret tt (f s).

(** A partial primitive: [None] throws [e]. *)
Definition orThrow {A} (e : Error) (o : option A) : M A :=
  match o with Some a => ret a | None => throw e end.

Declare Scope js_scope.
Delimit Scope js_scope with js.
Notation "x <- c1 ;; c2" := (bind c1 (fun x => c2))
  (at level 100, c1 at next level, right associativity) : js_scope.
Notation "c1 ;; c2" := (bind c1 (fun _ => c2))
  (at level 100, right associativity) : js_scope.
Open Scope js_scope.

(** [arr.forEach(f)]: the callbacks in order; an exception ends the iteration. *)
Fixpoint forEach {A} (l : list A) (f : A -> M unit) : M unit :=
  match l with
  | [] => ret tt
  | x :: l' => f x ;; forEach l' f
  end.

(** ** The script's functions *)

Section Script.
Context {rt : Runtime}.

(** *** Property access on connection objects *)

Definition set_isWS (v : bool) (x : Socket) : Socket :=
  mkSocket v (uid x) (id x) (sent x) (closed x) (listening x).
Definition set_uid (v : Value) (x : Socket) : Socket :=
  mkSocket (isWS x) v (id x) (sent x) (closed x) (listening x).
Definition set_id (v : Z) (x : Socket) : Socket :=
  mkSocket (isWS x) (uid x) v (sent x) (closed x) (listening x).
Definition set_sent (v : list Buffer) (x : Socket) : Socket :=
  mkSocket (isWS x) (uid x) (id x) v (closed x) (listening x).
Definition set_closed (v : bool) (x : Socket) : Socket :=
  mkSocket (isWS x) (uid x) (id x) (sent x) v (listening x).
Definition set_listening (v : bool) (x : Socket) : Socket :=
  mkSocket (isWS x) (uid x) (id x) (sent x) (closed x) v.

Definition setSock (r : nat) (f : Socket -> Socket) : M unit :=
  modify (fun s => set_sockets (upd r (f (sockets s r)) (sockets s)) s).

(** [socket.write(b)] and [socket.send(b)]: the call is recorded with the
    contents the buffer has when it is made. *)
Definition socket_write (r : nat) (b : Buffer) : M unit :=
  setSock r (fun x => set_sent (sent x ++ [b]) x).
Definition socket_send (r : nat) (b : Buffer) : M unit :=
  setSock r (fun x => set_sent (sent x ++ [b]) x).
Definition socket_destroy (r : nat) : M unit := setSock r (set_closed true).
Definition socket_close (r : nat) : M unit := setSock r (set_closed true).

(** *** The two shared buffers (lines 107-108)

    [buf] and [bufLarge] are constants bound to buffers of 512 and 4096 bytes,
    so [fill(0)] leaves exactly that many zero bytes. *)

Definition bufOp (get : State -> Buffer) (set : Buffer -> State -> State)
    (op : Buffer -> option Buffer) : M unit :=
  fun s => match op (get s) with
           | Some b => Ret tt (set b s)
           | None => Throw RangeError s
           end.

(** The bytes of the characters of [groups] that fit in [cap] bytes: writing
    stops at the first character that does not fit whole. *)
Fixpoint fit (cap : nat) (groups : list (list byte)) : list byte :=
  match groups with
  | [] => []
  | g :: r => if (length g <=? cap)%nat then g ++ fit (cap - length g) r else []
  end.

Definition blit (b : Buffer) (off : nat) (bytes : list byte) : Buffer :=
  take off b ++ bytes ++ drop (off + length bytes) b.

(** [b.write(s, off)]: RangeError when [off] is outside [0, length]. *)
Definition Buffer_write (b : Buffer) (s : jsstring) (off : Z) : option Buffer :=
  if (0 <=? off) && (off <=? byteLength b)
  then Some (blit b (Z.to_nat off) (fit (length b - Z.to_nat off) (utf8Chars s)))
  else None.

Arguments Buffer_write : simpl never.

Definition buf_fill0 : M unit := modify (set_buf (Buffer_alloc 512)).
Definition buf_writeUInt8 (v off : Z) : M unit := bufOp buf set_buf (fun b => writeUInt8 b v off).
Definition buf_writeUInt16LE (v off : Z) : M unit := bufOp buf set_buf (fun b => writeUInt16LE b v off).
Definition buf_writeInt16LE (v off : Z) : M unit := bufOp buf set_buf (fun b => writeInt16LE b v off).
Definition buf_write (s : jsstring) (off : Z) : M unit := bufOp buf set_buf (fun b => Buffer_write b s off).

Definition bufLarge_fill0 : M unit := modify (set_bufLarge (Buffer_alloc 4096)).
Definition bufLarge_writeUInt8 (v off : Z) : M unit :=
  bufOp bufLarge set_bufLarge (fun b => writeUInt8 b v off).
Definition bufLarge_write (s : jsstring) (off : Z) : M unit :=
  bufOp bufLarge set_bufLarge (fun b => Buffer_write b s off).

(** *** writeToSocket (lines 328-338)

    With [-1] for a socket, [(-1).write] is not a function; the TypeError is
    caught by the function's own try/catch and logged. *)
Definition writeToSocket (socket : SocketOrMinus1) (dataBuf : Buffer) : M unit :=
  match socket with
  | Some r =>
      w <- gets (fun s => isWS (sockets s r)) ;;
      if negb w then socket_write r dataBuf else socket_send r dataBuf
  | None => ret tt
  end.

(** [writeToSocket(socket, buf)] and [writeToSocket(socket, bufLarge)] *)
Definition writeToSocket_buf (socket : SocketOrMinus1) : M unit :=
  b <- gets buf ;; writeToSocket socket b.
Definition writeToSocket_bufLarge (socket : SocketOrMinus1) : M unit :=
  b <- gets bufLarge ;; writeToSocket socket b.

(** *** readBufString (lines 394-396) *)

(** [str.toString("utf-8", ind, end)]: the range is clamped to the buffer and
    an empty range gives the empty string. *)
Definition toStringUtf8 (str : Buffer) (ind end_ : Z) : jsstring :=
  let len := byteLength str in
  let start := Z.max 0 ind in
  if len <=? start then []
  else
    let e := if len <? end_ then len else end_ in
    if e <=? start then [] else utf8Slice (slice str start e).

(** [s.replace(p, "")] with a string pattern of one code unit: the first
    occurrence only. *)
Fixpoint removeFirst (c : N) (s : jsstring) : jsstring :=
  match s with
  | [] => []
  | x :: r => if (x =? c)%N then r else x :: removeFirst c r
  end.

(** [s.replace(/\0/g, "")]: every occurrence. *)
Definition removeAll (c : N) (s : jsstring) : jsstring :=
  filter (fun x => x ≠ c) s.

Definition readBufString (str : Buffer) (ind end_ : Z) : jsstring :=
  removeFirst 5 (removeAll 0 (toStringUtf8 str ind end_)).

(** *** Property access on [socketToData] *)

(** [k in socketToData] *)
Definition inStore (store : gmap jsstring Value) (k : jsstring) : bool :=
  bool_decide (is_Some (store !! k)) || bool_decide (k ∈ protoKeys).

(** A value used as a property key. *)
Definition toKey (v : Value) : M jsstring :=
  match ToString v with Some k => ret k | None => unmodelled end.

(** [socketToData[k]]: the own property, [undefined] when there is none; a
    name inherited from Object.prototype yields a built-in, which is outside
    this model. *)
Definition storeGet (k : jsstring) : M Value :=
  fun s => match socketToData s !! k with
           | Some v => Ret v s
           | None => if bool_decide (k ∈ protoKeys) then Unmodelled else Ret VUndef s
           end.

(** [socketToData[socket.uid].k = v]: the stored object is updated in place;
    TypeError when there is no record. *)
Definition storeField (socket : nat) (k : jsstring) (v : Value) : M unit :=
  u <- gets (fun s => uid (sockets s socket)) ;;
  key <- toKey u ;;
  record <- storeGet key ;;
  record' <- orThrow TypeError (setProp record k v) ;;
  modify (fun s => set_socketToData (<[key := record']> (socketToData s)) s).

(** *** sendPlayerData (lines 381-392) *)

(** The [_data] of forwardPlayerData: a string, or the array [x, y, facing]. *)
Inductive PlayerData : Type :=
| DString (s : jsstring)
| DPos (x y facing : Z).

Definition sendPlayerData (_type : Z) (_data : PlayerData) (_fromSocketID : Z)
    (_toSocket : SocketOrMinus1) : M unit :=
  buf_fill0 ;;
  buf_writeUInt8 _type 0 ;;
  buf_writeUInt16LE _fromSocketID 1 ;;
  match _data with
  | DString s => buf_write s 3
  | DPos x y facing =>
      buf_writeInt16LE x 3 ;; buf_writeInt16LE y 5 ;; buf_writeUInt8 facing 7
  end ;;
  writeToSocket_buf _toSocket.

(** *** forwardPlayerData (lines 340-359)

    [data.readUInt8(dataOffset)] is read once here: [data] is not written
    between the script's repeated reads of it. *)
Definition forwardPlayerData (data : Buffer) (socket : nat) (dataOffset : Z)
    (serverSocket : SocketOrMinus1) (end_ : Z) : M unit :=
  ty <- orThrow RangeError (readUInt8 data dataOffset) ;;
  _data <-
    (if ty =? clientNet.message then
       ret (DString (readBufString data (1 + dataOffset) end_))
     else if ty =? clientNet.pos then
       x <- orThrow RangeError (readInt16LE data (1 + dataOffset)) ;;
       y <- orThrow RangeError (readInt16LE data (3 + dataOffset)) ;;
       facing <- orThrow RangeError (readUInt8 data (5 + dataOffset)) ;;
       storeField socket (js "pos") (VArr [numZ x; numZ y; numZ facing] []) ;;
       ret (DPos x y facing)
     else
       let s := readBufString data (1 + dataOffset) end_ in
       (if ty =? clientNet.myRoom then storeField socket (js "myRoom") (VStr s)
        else if ty =? clientNet.name then storeField socket (js "name") (VStr s)
        else if ty =? clientNet.outfit then storeField socket (js "outfit") (VStr s)
        else ret tt) ;;
       ret (DString s)) ;;
  socks <- gets (fun s => Object_values (idToSocket s)) ;;
  forEach socks (fun _sock =>
    other <- gets (fun s => id (sockets s _sock)) ;;
    mine <- gets (fun s => id (sockets s socket)) ;;
    if other =? mine then ret tt
    else sendPlayerData ty _data mine (Some _sock)) ;;
  unified <- gets unifiedCluster ;;
  if unified && bool_decide (serverSocket ≠ None)
  then mine <- gets (fun s => id (sockets s socket)) ;;
       sendPlayerData ty _data mine serverSocket
  else ret tt.

(** *** playerDisconnect (lines 361-379) *)
Definition playerDisconnect (socket : nat) (serverSocket : SocketOrMinus1) : M unit :=
  mine <- gets (fun s => id (sockets s socket)) ;;
  modify (fun s => set_idToSocket (reg_delete mine (idToSocket s)) s) ;;
  socks <- gets (fun s => Object_values (idToSocket s)) ;;
  forEach socks (fun _sock =>
    buf_fill0 ;;
    buf_writeUInt8 serverNet.leave 0 ;;
    mine <- gets (fun s => id (sockets s socket)) ;;
    buf_writeUInt16LE mine 1 ;;
    writeToSocket_buf (Some _sock)) ;;
  (if bool_decide (serverSocket ≠ None) then
     buf_fill0 ;;
     buf_writeUInt8 serverNet.leave 0 ;;
     mine <- gets (fun s => id (sockets s socket)) ;;
     buf_writeUInt16LE mine 1 ;;
     writeToSocket_buf serverSocket
   else ret tt) ;;
  u <- gets (fun s => uid (sockets s socket)) ;;
  key <- toKey u ;;
  modify (fun s => set_socketToData (delete key (socketToData s)) s).

(** *** serverCode (lines 146-171)

    [uuid] is the string [uuidv4()] returned.  The console output is not
    modelled. *)
Definition serverCode (socket : nat) (isWS_ : bool) (uuid : jsstring)
    (serverSocket : SocketOrMinus1) : M unit :=
  setSock socket (set_isWS isWS_) ;;
  setSock socket (set_uid (VStr uuid)) ;;
  count <- gets playerCount ;;
  setSock socket (set_id (count + serverIndex * 256)) ;;
  modify (set_playerCount ((count + 1) mod 256)) ;;
  mine <- gets (fun s => id (sockets s socket)) ;;
  modify (fun s => set_idToSocket (reg_set mine socket (idToSocket s)) s) ;;
  buf_fill0 ;;
  buf_writeUInt8 serverNet.assign 0 ;;
  buf_writeUInt16LE mine 1 ;;
  buf_write uuid 3 ;;
  writeToSocket_buf (Some socket) ;;
  (if bool_decide (serverSocket ≠ None) then
     buf_fill0 ;;
     buf_writeUInt8 clusterNet.count 0 ;;
     n <- gets (fun s => Z.of_nat (length (idToSocket s))) ;;
     buf_writeUInt8 n 1 ;;
     writeToSocket_buf serverSocket
   else ret tt) ;;
  setSock socket (set_listening true).

(** *** processPacket (lines 173-277) *)

(** [JSON.stringify(v)]: [undefined] for [undefined], a string otherwise. *)
Definition stringify (v : Value) : option jsstring :=
  match v with
  | VUndef => None
  | _ => Some (JSON_stringify v)
  end.

(** [while (_data.uid in socketToData) _data.uid += "f"] (line 183); [fuel]
    bounds the number of times the body runs. *)
Fixpoint dedupe (fuel : nat) (_data : Value) : M Value :=
  u <- orThrow TypeError (getProp _data (js "uid")) ;;
  k <- toKey u ;;
  taken <- gets (fun s => inStore (socketToData s) k) ;;
  if taken then
    match fuel with
    | O => outOfFuel
    | S fuel' =>
        _data' <- orThrow TypeError (setProp _data (js "uid") (VStr (k ++ js "f"))) ;;
        dedupe fuel' _data'
    end
  else ret _data.

(** [case clientNet.ID] (lines 180-205) *)
Definition caseID (fuel : nat) (socket : nat) (data : Buffer) (_offset _end : Z) : M unit :=
  let _str := readBufString data (3 + _offset) _end in
  _data <- orThrow SyntaxError (JSON_parse _str) ;;
  _data <- dedupe fuel _data ;;
  u <- orThrow TypeError (getProp _data (js "uid")) ;;
  setSock socket (set_uid u) ;;
  key <- toKey u ;;
  modify (fun s => set_socketToData (<[key := _data]> (socketToData s)) s) ;;
  bufLarge_fill0 ;;
  bufLarge_writeUInt8 serverNet.playerObj 0 ;;
  mine <- gets (fun s => id (sockets s socket)) ;;
  bufLarge_writeUInt8 mine 1 ;;
  bufLarge_write _str 2 ;;
  socks <- gets (fun s => Object_values (idToSocket s)) ;;
  forEach socks (fun _sock =>
    other <- gets (fun s => id (sockets s _sock)) ;;
    mine <- gets (fun s => id (sockets s socket)) ;;
    if other =? mine then ret tt else writeToSocket_bufLarge (Some _sock)) ;;
  socks <- gets (fun s => Object_values (idToSocket s)) ;;
  forEach socks (fun _sock =>
    other <- gets (fun s => id (sockets s _sock)) ;;
    mine <- gets (fun s => id (sockets s socket)) ;;
    if other =? mine then ret tt
    else
      bufLarge_fill0 ;;
      bufLarge_writeUInt8 serverNet.playerObj 0 ;;
      bufLarge_writeUInt8 other 1 ;;
      u' <- gets (fun s => uid (sockets s _sock)) ;;
      key' <- toKey u' ;;
      record <- storeGet key' ;;
      text <- orThrow TypeError (stringify record) ;;
      bufLarge_write text 2 ;;
      writeToSocket_bufLarge (Some socket)).



(** [case clientNet.message] (lines 207-218) *)
Definition caseMessage (socket : nat) (data : Buffer) (_offset _end : Z) : M unit :=
  let _text := readBufString data (3 + _offset) _end in
  socks <- gets (fun s => Object_values (idToSocket s)) ;;
  forEach socks (fun _sock =>
    other <- gets (fun s => id (sockets s _sock)) ;;
    mine <- gets (fun s => id (sockets s socket)) ;;
    if other =? mine then ret tt
    else
      bufLarge_fill0 ;;
      bufLarge_writeUInt8 serverNet.message 0 ;;
      bufLarge_write _text 1 ;;
      writeToSocket_bufLarge (Some _sock)).

(** [case clientNet.email] (lines 220-239): building [mailOptions] reads
    [socketToName], an identifier declared nowhere. *)
Definition caseEmail (socket : nat) (data : Buffer) (_offset _end : Z) : M unit :=
  let _text := readBufString data (3 + _offset) _end in
  throw ReferenceError.

(** [case clientNet.upload] (lines 241-249): after the parse, [ref] is read; it
    is a constant of the try block at lines 61-71 and not in scope here. *)
Definition caseUpload (data : Buffer) (_offset _end : Z) : M unit :=
  _photoObj <- orThrow SyntaxError (JSON_parse (readBufString data (3 + _offset) _end)) ;;
  throw ReferenceError.

(** [case clientNet.miscData] (lines 251-254) *)
Definition caseMiscData (data : Buffer) (_offset _end : Z) : M unit :=
  _data <- orThrow SyntaxError (JSON_parse (readBufString data (3 + _offset) _end)) ;;
  ret tt.

(** The identifier [isWS] at line 257: processPacket has no such parameter or
    local (it is a parameter of serverCode) and the module declares no such
    variable, so reading it throws ReferenceError. *)
Definition isWS_unbound : M bool := throw ReferenceError.

(** [case clusterNet.leave] (lines 256-264) *)
Definition caseLeave (socket : nat) (data : Buffer) (serverSocket : SocketOrMinus1) : M unit :=
  w <- isWS_unbound ;;
  (if negb w then socket_destroy socket else socket_close socket) ;;
  unified <- gets unifiedCluster ;;
  if unified then writeToSocket serverSocket data else ret tt.

(** [case clientNet.heartbeat] (lines 266-271) *)
Definition caseHeartbeat (socket : nat) : M unit :=
  buf_fill0 ;;
  buf_writeUInt8 serverNet.heartbeat 0 ;;
  writeToSocket_buf (Some socket).

(** The [switch] of lines 179-274 on the type byte [ty] of the sub-packet at
    [_offset]. *)
Definition dispatch (fuel : nat) (socket : nat) (data : Buffer)
    (serverSocket : SocketOrMinus1) (_offset _end : Z) (ty : Z) : M unit :=
  if ty =? clientNet.ID then caseID fuel socket data _offset _end
  else if ty =? clientNet.message then caseMessage socket data _offset _end
  else if ty =? clientNet.email then caseEmail socket data _offset _end
  else if ty =? clientNet.upload then caseUpload data _offset _end
  else if ty =? clientNet.miscData then caseMiscData data _offset _end
  else if ty =? clusterNet.leave then caseLeave socket data serverSocket
  else if ty =? clientNet.heartbeat then caseHeartbeat socket
  else forwardPlayerData data socket (2 + _offset) serverSocket _end.

(** The [while] loop of lines 177-276; [steps] bounds its iterations. *)
Fixpoint packetLoop (steps fuel : nat) (socket : nat) (data : Buffer)
    (serverSocket : SocketOrMinus1) (_offset : Z) : M unit :=
  if _offset <? byteLength data then
    match steps with
    | O => outOfFuel
    | S steps' =>
        len <- orThrow RangeError (readInt16LE data _offset) ;;
        let _end := _offset + len in
        ty <- orThrow RangeError (readUInt8 data (2 + _offset)) ;;
        dispatch fuel socket data serverSocket _offset _end ty ;;
        packetLoop steps' fuel socket data serverSocket _end
    end
  else ret tt.

Definition processPacket (fuel : nat) (socket : nat) (data : Buffer)
    (serverSocket : SocketOrMinus1) : M unit :=
  packetLoop fuel fuel socket data serverSocket 0.

(** *** The parent connection's data listener (lines 293-320) *)

(** [nodes = v] (line 314): [nodes] is declared [const] (line 282), and
    assigning to a constant throws TypeError after the right-hand side has been
    evaluated. *)
Definition assign_nodes (v : Value) : M unit := throw TypeError.

(** [socket] is the parent connection; the listener's [serverSocket] is that
    same object. *)
Definition parentData (fuel : nat) (socket : nat) (data : Buffer) : M unit :=
  let _len := byteLength data in
  ty <- orThrow RangeError (readUInt8 data 0) ;;
  if ty =? clusterNet.miscData then
    _data <- orThrow SyntaxError (JSON_parse (readBufString data 1 _len)) ;;
    ret tt
  else if ty =? clusterNet.type then
    mode <- orThrow RangeError (readUInt8 data 1) ;;
    (if mode =? 1 then modify (set_unifiedCluster true) else ret tt) ;;
    buf_fill0 ;;
    buf_writeUInt8 clusterNet.type 0 ;;
    buf_writeUInt8 1 1 ;;
    buf_writeUInt16LE tcpPort 1 ;;
    writeToSocket_buf (Some socket)
  else if ty =? clusterNet.serverData then
    v <- orThrow SyntaxError (JSON_parse (readBufString data 1 _len)) ;;
    assign_nodes v
  else processPacket fuel socket data None.

(** *** The listeners createServer installs (lines 115-143) *)

Inductive SocketEvent : Type :=
| EvData (data : Buffer)
| EvError
| EvClose.

(** A TCP connection has listeners for "data", "error" and "close"; a
    WebSocket connection for "message" and "close" only. *)
Definition onEvent (fuel : nat) (socket : nat) (serverSocket : SocketOrMinus1)
    (ev : SocketEvent) : M unit :=
  w <- gets (fun s => isWS (sockets s socket)) ;;
  match ev with
  | EvData data => processPacket fuel socket data serverSocket
  | EvClose => playerDisconnect socket serverSocket
  | EvError => if w then unmodelled else playerDisconnect socket serverSocket
  end.

End Script.

(** ** The inbound wire layout

    What a client puts on the wire: sub-packets back to back, each
    [frameLength:int16-LE][type:uint8][payload], where frameLength counts the
    whole sub-packet.  A sub-packet is given as its type and payload. *)

Definition frameLength (payload : list byte) : Z := 3 + byteLength payload.

Definition encodeFrame (p : Z * list byte) : Buffer :=
  [Zbyte (frameLength p.2); Zbyte (frameLength p.2 / 256); Zbyte p.1] ++ p.2.

Definition encodeRead (pkts : list (Z * list byte)) : Buffer :=
  concat (map encodeFrame pkts).

(** The type fits a byte and the length an int16. *)
Definition wellFormed (p : Z * list byte) : Prop :=
  0 <= p.1 <= 255 /\ frameLength p.2 <= 32767.

(** Where the sub-packets of a read lie: for each, its [_offset], its [_end]
    and its type, the first starting at [off]. *)
Fixpoint layout (off : Z) (pkts : list (Z * list byte)) : list (Z * Z * Z) :=
  match pkts with
  | [] => []
  | p :: r => let e := off + frameLength p.2 in (off, e, p.1) :: layout e r
  end.

(** A frame of the layout agrees with a sub-packet: same type, [_end] one
    frameLength after [_offset], and the bytes of [data] in
    [_offset + 3, _end) are the payload. *)
Definition frameOf (data : Buffer) (f : Z * Z * Z) (p : Z * list byte) : Prop :=
  f.2 = p.1 /\ f.1.2 = f.1.1 + frameLength p.2 /\ slice data (f.1.1 + 3) f.1.2 = p.2.

(** The offset after the last sub-packet. *)
Definition layoutEnd (off : Z) (pkts : list (Z * list byte)) : Z :=
  fold_left (fun o p => o + frameLength p.2) pkts off.

(** The switch run on each sub-packet of [frames] in turn. *)
Definition dispatchAll `{Runtime} (fuel : nat) (socket : nat) (data : Buffer)
    (serverSocket : SocketOrMinus1) (frames : list (Z * Z * Z)) : M unit :=
  forEach frames (fun f => dispatch fuel socket data serverSocket f.1.1 f.1.2 f.2).

(** ** Outbound packets

    The contents the script gives [buf] (512 bytes) and [bufLarge] (4096
    bytes) before each send, written out: the bytes set, then zeros to the end
    of the buffer. *)

Definition pad (n : nat) (bytes : list byte) : Buffer :=
  bytes ++ Buffer_alloc (n - length bytes).

Definition le16 (v : Z) : list byte := [Zbyte v; Zbyte (v / 256)].

Section Packets.
Context {rt : Runtime}.

(** The bytes [write(s, off)] puts in the [cap] bytes left from [off]. *)
Definition written (cap : nat) (s : jsstring) : list byte := fit cap (utf8Chars s).

Definition assignPacket (id_ : Z) (uuid : jsstring) : Buffer :=
  pad 512 (Zbyte serverNet.assign :: le16 id_ ++ written 509 uuid).

Definition countPacket (n : Z) : Buffer :=
  pad 512 [Zbyte clusterNet.count; Zbyte n].

Definition leavePacket (id_ : Z) : Buffer :=
  pad 512 (Zbyte serverNet.leave :: le16 id_).

Definition heartbeatPacket : Buffer := pad 512 [Zbyte serverNet.heartbeat].

Definition chatPacket (text : jsstring) : Buffer :=
  pad 4096 (Zbyte serverNet.message :: written 4095 text).

Definition playerObjPacket (id_ : Z) (text : jsstring) : Buffer :=
  pad 4096 (Zbyte serverNet.playerObj :: Zbyte id_ :: written 4094 text).

Definition playerDataPacket (ty : Z) (_data : PlayerData) (from : Z) : Buffer :=
  pad 512 (Zbyte ty :: le16 from ++
           match _data with
           | DString s => written 509 s
           | DPos x y facing => le16 x ++ le16 y ++ [Zbyte facing]
           end).

End Packets.

(** ** Describing states *)

(** The state after [socket.write(pkt)] / [socket.send(pkt)] on connection [r]. *)
Definition sendTo (r : nat) (pkt : Buffer) (st : State) : State :=
  set_sockets (upd r (set_sent (sent (sockets st r) ++ [pkt]) (sockets st r)) (sockets st)) st.

(** [st'] differs from [st] at most in the two shared buffers. *)
Definition sameButBufs (st st' : State) : Prop :=
  playerCount st' = playerCount st /\ idToSocket st' = idToSocket st
  /\ socketToData st' = socketToData st /\ unifiedCluster st' = unifiedCluster st
  /\ nodes st' = nodes st /\ sockets st' = sockets st.

(** [st'] differs from [st] at most in the shared buffers and in what was sent
    on the connections. *)
Definition sameButSent (st st' : State) : Prop :=
  playerCount st' = playerCount st /\ idToSocket st' = idToSocket st
  /\ socketToData st' = socketToData st /\ unifiedCluster st' = unifiedCluster st
  /\ nodes st' = nodes st
  /\ forall r, isWS (sockets st' r) = isWS (sockets st r)
             /\ uid (sockets st' r) = uid (sockets st r)
             /\ id (sockets st' r) = id (sockets st r)
             /\ closed (sockets st' r) = closed (sockets st r)
             /\ listening (sockets st' r) = listening (sockets st r).

(** The condition [_sock.id != socket.id] of the broadcast loops. *)
Definition differs (socket : nat) (st : State) (r : nat) : bool :=
  negb (id (sockets st r) =? id (sockets st socket)).

(** The connections of [socks] that satisfy [cond], as a broadcast visits them. *)
Definition targets (cond : State -> nat -> bool) (st : State) (socks : list nat) : list nat :=
  filter (fun r => cond st r = true) socks.

(** How often [r] occurs in [l]. *)
Definition occurrences (r : nat) (l : list nat) : nat := length (filter (fun x => x = r) l).

(** The registry is as serverCode builds it: keys in ascending order, each
    entry's connection carrying the key as its [id]. *)
Definition regWF (st : State) : Prop :=
  StronglySorted Z.lt (map fst (idToSocket st))
  /\ forall k r, (k, r) ∈ idToSocket st -> id (sockets st r) = k.

(** Connection [r] is in the registry. *)
Definition registered (st : State) (r : nat) : Prop :=
  r ∈ Object_values (idToSocket st).

(** The notices one call of playerDisconnect sends to connection [r]: one per
    entry of the registry that holds [r], and one if [r] is the parent. *)
Definition notices (mine : Z) (remaining : list (Z * nat)) (serverSocket : SocketOrMinus1)
    (r : nat) : list Buffer :=
  replicate (occurrences r (Object_values remaining)) (leavePacket mine)
  ++ (if decide (serverSocket = Some r) then [leavePacket mine] else []).

(** How often the code unit [c] occurs in [s]. *)
Definition countOf (c : N) (s : jsstring) : nat := length (filter (fun x => x = c) s).

(** The uint16-LE field at [off]. *)
Definition uint16At (pkt : Buffer) (off : Z) : Z := byteAt pkt off + 256 * byteAt pkt (off + 1).

Definition fitsPlayerData (_data : PlayerData) : Prop :=
  match _data with
  | DString _ => True
  | DPos x y facing => -32768 <= x <= 32767 /\ -32768 <= y <= 32767 /\ 0 <= facing <= 255
  end.

(** The string readBufString makes of a sub-packet's payload. *)
Definition decodePayload `{Runtime} (payload : list byte) : jsstring :=
  removeFirst 5 (removeAll 0 (match payload with [] => [] | _ => utf8Slice payload end)).

(** [k] with the marker ["f"] appended [n] times. *)
Definition marked (k : jsstring) (n : nat) : jsstring := k ++ replicate n 102%N.

(** A bound on the length of the names [in] answers true for. *)
Definition keyBound (store : gmap jsstring Value) : nat :=
  S (max_list (map length protoKeys ++ map (fun p => length p.1) (map_to_list store))).

(** The record the loop leaves: the parsed object, with its [uid] replaced by
    the marked string once a marker was appended. *)
Definition dedupedProps (props : list (jsstring * Value)) (k : jsstring) (n : nat)
  : list (jsstring * Value) :=
  match n with
  | O => props
  | S _ => assoc_set (js "uid") (VStr (marked k n)) props
  end.

(** The record stored for connection [r], and the playerObj packet that
    describes [r] to a newcomer. *)
Definition recordOf (st : State) (r : nat) : Value :=
  default VUndef (socketToData st !! default [] (ToString (uid (sockets st r)))).

Definition peerObj `{Runtime} (st : State) (r : nat) : Buffer :=
  playerObjPacket (id (sockets st r)) (JSON_stringify (recordOf st r)).

(** Connection [r] has identified itself: its [uid] names a record of the
    store, and its id fits the byte the playerObj packet has for it. *)
Definition hasRecord (st : State) (r : nat) : Prop :=
  0 <= id (sockets st r) <= 255
  /\ exists k v, ToString (uid (sockets st r)) = Some k
                 /\ socketToData st !! k = Some v /\ v <> VUndef.


(** The field a field-update sub-packet of type [ty] names, the value
    forwardPlayerData stores for it, and the [_data] it sends on. *)
Definition fieldUpdate `{Runtime} (data : Buffer) (dataOffset end_ : Z) (ty : Z)
  : option (jsstring * Value * PlayerData) :=
  if ty =? clientNet.pos then
    match readInt16LE data (1 + dataOffset), readInt16LE data (3 + dataOffset),
          readUInt8 data (5 + dataOffset) with
    | Some x, Some y, Some facing =>
        Some (js "pos", VArr [numZ x; numZ y; numZ facing] [], DPos x y facing)
    | _, _, _ => None
    end
  else
    let s := readBufString data (1 + dataOffset) end_ in
    if ty =? clientNet.myRoom then Some (js "myRoom", VStr s, DString s)
    else if ty =? clientNet.name then Some (js "name", VStr s, DString s)
    else if ty =? clientNet.outfit then Some (js "outfit", VStr s, DString s)
    else None.

(** *** The parent connection's connect callback (lines 286-291)

    The callback marks the parent connection as a TCP socket with id [-1] and
    the empty uid; createServer is called from it, so clients are accepted only
    after it has run. *)
Definition connectParent (socket : nat) : M unit :=
  setSock socket (set_isWS false) ;;
  setSock socket (set_id (-1)) ;;
  setSock socket (set_uid (VStr [])).

(** ** The node as a whole

    What Node calls the script with: the connect callback of the parent
    connection, the "connection" listeners of the two servers (createServer,
    lines 119 and 134), the listeners of a client connection, and the "data"
    listener of the parent connection. *)
Inductive Event : Type :=
| Connect
| Accept (socket : nat) (isWS_ : bool) (uuid : jsstring)
| OnSocket (socket : nat) (ev : SocketEvent)
| OnParent (data : Buffer).

Definition handle `{Runtime} (fuel : nat) (serverSocket : SocketOrMinus1) (e : Event) : M unit :=
  match e with
  | Connect =>
      match serverSocket with Some p => connectParent p | None => ret tt end
  | Accept socket isWS_ uuid => serverCode socket isWS_ uuid serverSocket
  | OnSocket socket ev => onEvent fuel socket serverSocket ev
  | OnParent data =>
      match serverSocket with Some p => parentData fuel p data | None => ret tt end
  end.

(** A connection object is new when Node hands it to the script: it is not in
    the registry yet. *)
Definition fresh (serverSocket : SocketOrMinus1) (st : State) (e : Event) : Prop :=
  match e with
  | Connect => match serverSocket with Some p => ~ registered st p | None => True end
  | Accept socket _ _ => ~ registered st socket
  | _ => True
  end.

(** The states the node gets into: from the initial one, by any event, whether
    its listener returns or throws. *)
Inductive reachable `{Runtime} (serverSocket : SocketOrMinus1) : State -> Prop :=
| reach_start : reachable serverSocket initialState
| reach_ret (st : State) (fuel : nat) (e : Event) (st' : State) :
    reachable serverSocket st -> fresh serverSocket st e ->
    handle fuel serverSocket e st = Ret tt st' -> reachable serverSocket st'
| reach_throw (st : State) (fuel : nat) (e : Event) (err : Error) (st' : State) :
    reachable serverSocket st -> fresh serverSocket st e ->
    handle fuel serverSocket e st = Throw err st' -> reachable serverSocket st'.

(** A buffer handed to [write]/[send] whole: 512 or 4096 bytes. *)
Definition wholeBuffer (b : Buffer) : Prop := length b = 512%nat \/ length b = 4096%nat.

(** What every listener keeps. *)
Definition nodeInv (st : State) : Prop :=
  regWF st
  /\ Forall (fun k => 0 <= k <= 255) (map fst (idToSocket st))
  /\ 0 <= playerCount st <= 255
  /\ length (buf st) = 512%nat
  /\ length (bufLarge st) = 4096%nat
  /\ forall r, Forall wholeBuffer (sent (sockets st r)).

(** [m] keeps [P], whether it returns or throws. *)
Definition keeps {A} (P : State -> Prop) (m : M A) : Prop :=
  forall s, P s ->
    match m s with
    | Ret _ s' | Throw _ s' => P s'
    | OutOfFuel | Unmodelled => True
    end.

(** The invariant, with [unifiedCluster] set if it was set before ([u]). *)
Definition nodeInvSince (u : bool) (st : State) : Prop :=
  nodeInv st /\ (u = true -> unifiedCluster st = true).

(** The reply to a type packet (lines 303-307): the type byte, then the port
    as uint16-LE at offset 1, where the byte written before it (1, "a server")
    was. *)
Definition typePacket : Buffer := pad 512 (Zbyte clusterNet.type :: le16 tcpPort).

(** ** A runtime for the worked examples

    The codecs on the texts the examples use: 7-bit text, and JSON objects
    whose members are strings without escapes, written without blanks (what
    the game client sends as its identity).  On these it agrees with Node.
    Everything else is rejected by this parser and decoded to U+FFFD byte by
    byte; the theorems do not depend on it. *)
Module Example_runtime.

Definition decode7 (b : Buffer) : jsstring :=
  map (fun x => let n := Byte.to_N x in if (n <? 128)%N then n else 65533%N) b.

Definition encode7 (s : jsstring) : list (list byte) :=
  map (fun c => if (c <? 128)%N then [Zbyte (Z.of_N c)] else [xef; xbf; xbd]) s.

(** The text after an opening quote: its characters and what follows the
    closing quote. *)
Fixpoint parseString (s : jsstring) : option (jsstring * jsstring) :=
  match s with
  | [] => None
  | c :: r =>
      if (c =? 34)%N then Some ([], r)
      else if (c =? 92)%N || (c <? 32)%N then None
      else match parseString r with
           | Some (t, r') => Some (c :: t, r')
           | None => None
           end
  end.

(** The members of an object, from the quote that opens a key to the closing
    brace at the end of the text. *)
Fixpoint parseMembers (fuel : nat) (s : jsstring) (acc : list (jsstring * Value))
  : option Value :=
  match fuel, s with
  | S fuel', 34%N :: r =>
      match parseString r with
      | Some (k, 58%N :: 34%N :: r2) =>
          match parseString r2 with
          | Some (v, rest) =>
              let acc' := assoc_set k (VStr v) acc in
              match rest with
              | [125%N] => Some (VObj acc')
              | 44%N :: r3 => parseMembers fuel' r3 acc'
              | _ => None
              end
          | None => None
          end
      | _ => None
      end
  | _, _ => None
  end.

Definition parse (s : jsstring) : option Value :=
  match s with
  | [123%N; 125%N] => Some (VObj [])
  | 123%N :: r => parseMembers (length r) r []
  | _ => None
  end.

Definition quoted (s : jsstring) : jsstring := [34%N] ++ s ++ [34%N].

Fixpoint printMembers (ps : list (jsstring * Value)) : jsstring :=
  match ps with
  | [] => []
  | (k, v) :: r =>
      quoted k ++ [58%N] ++ match v with VStr s => quoted s | _ => js "null" end
      ++ match r with [] => [] | _ => [44%N] ++ printMembers r end
  end.

Definition print (v : Value) : jsstring :=
  match v with
  | VObj ps => [123%N] ++ printMembers ps ++ [125%N]
  | VStr s => quoted s
  | _ => js "null"
  end.

Definition runtime : Runtime :=
  {| utf8Slice := decode7; utf8Chars := encode7; JSON_parse := parse; JSON_stringify := print |}.

(** The bytes of a 7-bit text, with ['] standing for the double quote. *)
Definition text (s : string) : list byte :=
  map (fun b => if Byte.eqb b x27 then x22 else b) (list_byte_of_string s).

#[local] Existing Instance runtime.

(** The state an outcome carries. *)
Definition stateOf {A} (o : Outcome A) : State :=
  match o with
  | Ret _ s | Throw _ s => s
  | OutOfFuel | Unmodelled => initialState
  end.

(** A stand-in for the uuid drawn for connection [k]. *)
Definition uuidOf (k : nat) : jsstring :=
  js "uuid-" ++ js (NilZero.string_of_uint (Nat.to_uint k)).

(** TCP connections [0 .. n-1] accepted in that order, on a node without
    parent. *)
Fixpoint accepted (n : nat) : State :=
  match n with
  | O => initialState
  | S k => stateOf (serverCode k false (uuidOf k) None (accepted k))
  end.

Definition one : State := accepted 1.
Definition two : State := accepted 2.

(** Reads used below: an identity, a chat message and a heartbeat. *)
Definition identityP1 : Buffer := encodeRead [(clientNet.ID, text "{'uid':'p1'}")].
Definition chatHi : Buffer := encodeRead [(clientNet.message, text "hi")].
Definition brokenThenHeartbeat : Buffer :=
  encodeRead [(clientNet.ID, text "{"); (clientNet.heartbeat, [])].

(** Connection 0 is accepted and identifies itself as p1; then connection 1
    is accepted. *)
Definition p1ThenGuest : State :=
  stateOf (serverCode 1 false (uuidOf 1) None
             (stateOf (processPacket 30 0 identityP1 None one))).

(** [n] further connections, numbered from [first], each accepted and then
    closed, on a node without parent. *)
Fixpoint churn (n first : nat) (st : State) : State :=
  match n with
  | O => st
  | S k =>
      let st1 := stateOf (serverCode first false (uuidOf first) None st) in
      churn k (S first) (stateOf (onEvent 0 first None EvClose st1))
  end.

(** Connection 0 is still there when the counter has wrapped around to its
    id. *)
Definition wrapped : State := churn 255 1 one.

(** Connection 0 of [two] gets an "error" event and then a "close" event. *)
Definition afterError : State := stateOf (onEvent 0 0 None EvError two).
Definition afterClose : State := stateOf (onEvent 0 0 None EvClose afterError).

(** The lone connection 0 of [one] sends its identity. *)
Definition afterIdentity : State := stateOf (processPacket 30 0 identityP1 None one).

(** A heartbeat, an identity that is not JSON, and another heartbeat. *)
Definition heartbeatBrokenHeartbeat : list (Z * list byte) :=
  [(clientNet.heartbeat, [])] ++ (clientNet.ID, text "{") :: [(clientNet.heartbeat, [])].
Definition afterFirstHeartbeat : State :=
  stateOf (dispatchAll 5 0 (encodeRead heartbeatBrokenHeartbeat) None
             (layout 0 [(clientNet.heartbeat, [])]) one).

(** A name update from connection 0, and the node of [afterIdentity] once its
    parent, connection 9, has declared the cluster unified. *)
Definition nameAl : Buffer := encodeRead [(clientNet.name, text "Al")].
Definition unified : State := stateOf (parentData 5 9 [x2b; x01] afterIdentity).

(** A sub-packet of a type the switch does not know, and a read whose
    sub-packet has the length field 0. *)
Definition typed99 : Buffer := encodeRead [(99, text "x")].
Definition zeroLength : Buffer := [x00; x00; x1d].

(** 255 connections accepted and all still there. *)
Definition full : State := accepted 255.

(** A node whose parent is connection 9: the parent connects, then
    connections 0 and 1 are accepted. *)
Definition clustered : State :=
  stateOf (handle 0 (Some 9%nat) (Accept 1 false (uuidOf 1))
    (stateOf (handle 0 (Some 9%nat) (Accept 0 false (uuidOf 0))
      (stateOf (handle 0 (Some 9%nat) Connect initialState))))).

(** A chat sub-packet of 43 bytes. *)
Definition fortyLetters : Z * list byte := (clientNet.message, replicate 40 x41).

(** A chat sub-packet that announces 10 bytes and holds 5, and a heartbeat
    with the length field -3. *)
Definition cutShort : Buffer := [x0a; x00; x19] ++ text "hi".
Definition negativeLength : Buffer := [xfd; xff; x1d].

(** A heartbeat, an email, and another heartbeat. *)
Definition heartbeatEmailHeartbeat : list (Z * list byte) :=
  [(clientNet.heartbeat, [])] ++ (clientNet.email, text "bug") :: [(clientNet.heartbeat, [])].

(** The node of [wrapped] once connection 256 has been accepted: it was given
    the id 0, which connection 0 holds. *)
Definition collided : State := stateOf (serverCode 256 false (uuidOf 256) None wrapped).



(** A chat sub-packet whose text is h, NUL, U+0005, i, U+0005. *)
Definition chatMarked : Buffer :=
  encodeRead [(clientNet.message, [x68; x00; x05; x69; x05])].

(** A sub-packet with the type byte 2 and the text hi. *)
Definition typed2 : Buffer := encodeRead [(serverNet.message, text "hi")].

End Example_runtime.

(** * Properties *)

(** ** Bytes and buffers *)

Lemma byteZ_range (b : byte) : 0 <= byteZ b <= 255.
Proof.
  unfold byteZ. pose proof (Byte.to_N_bounded b). lia.
Qed.

Lemma byteZ_Zbyte (z : Z) : byteZ (Zbyte z) = z mod 256.
Proof.
  unfold byteZ, Zbyte.
  assert (Hm : 0 <= z mod 256 < 256) by (apply Z.mod_pos_bound; lia).
  destruct (Byte.of_N (Z.to_N (z mod 256))) as [b|] eqn:E; simpl.
  - apply Byte.to_of_N in E. rewrite E. lia.
  - apply Byte.of_N_None_iff in E. lia.
Qed.

Lemma Zbyte_byteZ (b : byte) : Zbyte (byteZ b) = b.
Proof.
  unfold Zbyte. pose proof (byteZ_range b) as Hr.
  rewrite Z.mod_small by lia. unfold byteZ. rewrite N2Z.id.
  now rewrite Byte.of_to_N.
Qed.

Lemma toInt16_le (n : Z) :
  0 <= n <= 32767 -> toInt16 (n mod 256 + 256 * ((n / 256) mod 256)) = n.
Proof.
  intros Hn. rewrite (Z.mod_small (n / 256)).
  2:{ split; [apply Z.div_pos; lia | apply Z.div_lt_upper_bound; lia]. }
  rewrite Z.add_comm, <- Z.div_mod by lia.
  unfold toInt16. destruct (Z.ltb_spec n 32768); lia.
Qed.

Lemma byteLength_app (a b : Buffer) : byteLength (a ++ b) = byteLength a + byteLength b.
Proof. unfold byteLength. rewrite length_app. lia. Qed.

Lemma byteLength_nonneg (b : Buffer) : 0 <= byteLength b.
Proof. unfold byteLength. lia. Qed.

Lemma byteAt_app_r (pre rest : Buffer) (i : Z) :
  0 <= i -> byteAt (pre ++ rest) (byteLength pre + i) = byteAt rest i.
Proof.
  intros Hi. unfold byteAt, byteLength.
  rewrite lookup_app_r by lia.
  do 3 f_equal. lia.
Qed.

Lemma byteLength_encodeFrame (p : Z * list byte) :
  byteLength (encodeFrame p) = frameLength p.2.
Proof. unfold encodeFrame, frameLength, byteLength. simpl length. lia. Qed.

(** Reading the header of the frame that starts at the end of [pre]. *)
Lemma read_frame_header (pre rest : Buffer) (p : Z * list byte) :
  wellFormed p ->
  readInt16LE (pre ++ encodeFrame p ++ rest) (byteLength pre) = Some (frameLength p.2)
  /\ readUInt8 (pre ++ encodeFrame p ++ rest) (2 + byteLength pre) = Some p.1.
Proof.
  intros [Hty Hlen].
  assert (Hfl : 3 <= frameLength p.2) by (unfold frameLength; pose proof (byteLength_nonneg p.2); lia).
  pose proof (byteLength_nonneg pre) as Hpre.
  pose proof (byteLength_nonneg rest) as Hrest.
  assert (Htot : byteLength (pre ++ encodeFrame p ++ rest)
                 = byteLength pre + frameLength p.2 + byteLength rest).
  { rewrite !byteLength_app, byteLength_encodeFrame. lia. }
  split.
  - unfold readInt16LE, inRange. rewrite Htot.
    destruct (Z.leb_spec 0 (byteLength pre)); [|lia].
    destruct (Z.leb_spec (byteLength pre + 2) (byteLength pre + frameLength p.2 + byteLength rest)); [|lia].
    simpl andb. cbv iota. f_equal.
    replace (byteLength pre) with (byteLength pre + 0) at 1 by lia.
    rewrite !byteAt_app_r by lia.
    unfold encodeFrame, byteAt. simpl.
    rewrite !byteZ_Zbyte. apply toInt16_le. lia.
  - unfold readUInt8, inRange. rewrite Htot.
    destruct (Z.leb_spec 0 (2 + byteLength pre)); [|lia].
    destruct (Z.leb_spec (2 + byteLength pre + 1) (byteLength pre + frameLength p.2 + byteLength rest)); [|lia].
    simpl andb. cbv iota. f_equal.
    rewrite (Z.add_comm 2), byteAt_app_r by lia.
    unfold encodeFrame, byteAt. simpl.
    rewrite byteZ_Zbyte. apply Z.mod_small. lia.
Qed.

(** ** The framing loop *)

Section Framing.
Context {rt : Runtime}.

Lemma packetLoop_done (steps fuel socket : nat) (data : Buffer) (ss : SocketOrMinus1)
    (off : Z) (st : State) :
  byteLength data <= off -> packetLoop steps fuel socket data ss off st = Ret tt st.
Proof.
  intros H. destruct steps; simpl; destruct (Z.ltb_spec off (byteLength data)); auto; lia.
Qed.

Lemma packetLoop_step (steps fuel socket : nat) (data : Buffer) (ss : SocketOrMinus1)
    (off len ty : Z) (st : State) :
  off < byteLength data ->
  readInt16LE data off = Some len ->
  readUInt8 data (2 + off) = Some ty ->
  packetLoop (S steps) fuel socket data ss off st
  = (dispatch fuel socket data ss off (off + len) ty ;;
     packetLoop steps fuel socket data ss (off + len)) st.
Proof.
  intros Hlt Hlen Hty. simpl.
  destruct (Z.ltb_spec off (byteLength data)); [|lia].
  unfold bind at 1. rewrite Hlen. simpl.
  unfold bind at 1. rewrite Hty. reflexivity.
Qed.

Lemma slice_payload (pre rest : Buffer) (p : Z * list byte) :
  slice (pre ++ encodeFrame p ++ rest) (byteLength pre + 3)
        (byteLength pre + frameLength p.2) = p.2.
Proof.
  unfold slice, encodeFrame, frameLength, byteLength.
  replace (Z.to_nat (Z.of_nat (length pre) + 3))
    with (length (pre ++ [Zbyte (3 + Z.of_nat (length p.2));
                          Zbyte ((3 + Z.of_nat (length p.2)) / 256); Zbyte p.1]))
    by (rewrite length_app; simpl; lia).
  replace (Z.to_nat (Z.of_nat (length pre) + (3 + Z.of_nat (length p.2))
                     - (Z.of_nat (length pre) + 3))) with (length p.2) by lia.
  replace (pre ++ ([Zbyte (3 + Z.of_nat (length p.2));
                    Zbyte ((3 + Z.of_nat (length p.2)) / 256); Zbyte p.1] ++ p.2) ++ rest)
    with ((pre ++ [Zbyte (3 + Z.of_nat (length p.2));
                   Zbyte ((3 + Z.of_nat (length p.2)) / 256); Zbyte p.1]) ++ (p.2 ++ rest))
    by (rewrite <- !app_assoc; reflexivity).
  rewrite drop_app_length. apply take_app_length.
Qed.

Lemma packetLoop_frames (fuel socket : nat) (ss : SocketOrMinus1) (pkts : list (Z * list byte)) :
  Forall wellFormed pkts ->
  forall (pre data : Buffer) (steps : nat) (st : State),
    data = pre ++ encodeRead pkts ->
    (length pkts <= steps)%nat ->
    packetLoop steps fuel socket data ss (byteLength pre) st
    = dispatchAll fuel socket data ss (layout (byteLength pre) pkts) st.
Proof.
  induction 1 as [|p r Hp Hr IH]; intros pre data steps st Hdata Hsteps.
  - apply packetLoop_done. subst data. unfold encodeRead. simpl.
    rewrite app_nil_r. lia.
  - destruct steps as [|steps]; [simpl in Hsteps; lia|].
    assert (Hd : data = pre ++ encodeFrame p ++ encodeRead r) by (subst data; reflexivity).
    destruct (read_frame_header pre (encodeRead r) p Hp) as [Hlen Hty].
    rewrite <- Hd in Hlen, Hty.
    assert (Hlt : byteLength pre < byteLength data).
    { rewrite Hd, !byteLength_app, byteLength_encodeFrame.
      unfold frameLength.
      pose proof (byteLength_nonneg p.2). pose proof (byteLength_nonneg (encodeRead r)). lia. }
    rewrite (packetLoop_step steps fuel socket data ss _ _ _ st Hlt Hlen Hty).
    unfold dispatchAll. simpl forEach. unfold bind. simpl.
    destruct (dispatch fuel socket data ss (byteLength pre)
                (byteLength pre + frameLength p.2) p.1 st) as [[] st'| | |]; try reflexivity.
    replace (byteLength pre + frameLength p.2) with (byteLength (pre ++ encodeFrame p))
      by (rewrite byteLength_app, byteLength_encodeFrame; reflexivity).
    apply IH; [|simpl in Hsteps; lia].
    rewrite Hd, <- app_assoc. reflexivity.
Qed.

Lemma layout_frames (pkts : list (Z * list byte)) :
  forall (pre data : Buffer),
    data = pre ++ encodeRead pkts ->
    Forall2 (frameOf data) (layout (byteLength pre) pkts) pkts.
Proof.
  induction pkts as [|p r IH]; intros pre data Hdata; simpl; constructor.
  - unfold frameOf. simpl. split; [reflexivity|]. split; [reflexivity|].
    subst data. apply (slice_payload pre (encodeRead r) p).
  - replace (byteLength pre + frameLength p.2) with (byteLength (pre ++ encodeFrame p))
      by (rewrite byteLength_app, byteLength_encodeFrame; reflexivity).
    apply IH. subst data. unfold encodeRead. simpl. rewrite <- app_assoc. reflexivity.
Qed.

Lemma layoutEnd_length (pkts : list (Z * list byte)) :
  forall off, layoutEnd off pkts = off + byteLength (encodeRead pkts).
Proof.
  induction pkts as [|p r IH]; intros off.
  - unfold layoutEnd, byteLength. simpl. lia.
  - change (layoutEnd off (p :: r)) with (layoutEnd (off + frameLength p.2) r).
    rewrite IH. change (encodeRead (p :: r)) with (encodeFrame p ++ encodeRead r).
    rewrite byteLength_app, byteLength_encodeFrame. lia.
Qed.

Lemma layout_length (pkts : list (Z * list byte)) :
  forall off, length (layout off pkts) = length pkts.
Proof. induction pkts as [|p r IH]; intros off; simpl; [reflexivity | now rewrite IH]. Qed.

Lemma forEach_app_Ret {A} (f : A -> M unit) (a b : list A) :
  forall st st1, forEach a f st = Ret tt st1 -> forEach (a ++ b) f st = forEach b f st1.
Proof.
  induction a as [|x a IH]; intros st st1 H.
  - simpl in H. inversion H; subst. reflexivity.
  - simpl in H |- *. unfold bind in H |- *. destruct (f x st) as [[] s| | |]; try discriminate.
    now apply IH.
Qed.

Lemma layout_app (a b : list (Z * list byte)) :
  forall off, layout off (a ++ b) = layout off a ++ layout (layoutEnd off a) b.
Proof.
  induction a as [|p a IH]; intros off; [reflexivity|].
  simpl. f_equal. apply IH.
Qed.

(** C1, as the script has it. A read made of k sub-packets
    [frameLength:int16-LE][type:uint8][payload] is processed as the dispatches
    of its sub-packets, in order, each run when the one before it has
    returned: the loop starts at offset 0, and for the i-th sub-packet it
    reads frameLength, sets [_end = _offset + frameLength], runs the switch
    on the type byte with the payload range [_offset + 3, _end), whose bytes
    are the encoded payload, and continues at [_end]; after the k-th it
    stands at the length of the buffer.  When all k dispatches return, the
    read returns, having dispatched exactly k sub-packets.  When the dispatch
    of a sub-packet throws, the read ends with that exception in the state
    the throw left: the sub-packets after it are not dispatched. *)
Theorem processPacket_frames (fuel socket : nat) (serverSocket : SocketOrMinus1)
    (pkts : list (Z * list byte)) (st : State) :
  Forall wellFormed pkts ->
  (length pkts <= fuel)%nat ->
  processPacket fuel socket (encodeRead pkts) serverSocket st
  = dispatchAll fuel socket (encodeRead pkts) serverSocket (layout 0 pkts) st
  /\ length (layout 0 pkts) = length pkts
  /\ Forall2 (frameOf (encodeRead pkts)) (layout 0 pkts) pkts
  /\ layoutEnd 0 pkts = byteLength (encodeRead pkts)
  /\ (forall st',
        dispatchAll fuel socket (encodeRead pkts) serverSocket (layout 0 pkts) st = Ret tt st' ->
        processPacket fuel socket (encodeRead pkts) serverSocket st = Ret tt st')
  /\ (forall before p after st1 e st2,
        pkts = before ++ p :: after ->
        dispatchAll fuel socket (encodeRead pkts) serverSocket (layout 0 before) st = Ret tt st1 ->
        dispatch fuel socket (encodeRead pkts) serverSocket
          (layoutEnd 0 before) (layoutEnd 0 before + frameLength p.2) p.1 st1 = Throw e st2 ->
        processPacket fuel socket (encodeRead pkts) serverSocket st = Throw e st2).
Proof.
  intros Hwf Hfuel.
  assert (Hrun : processPacket fuel socket (encodeRead pkts) serverSocket st
                 = dispatchAll fuel socket (encodeRead pkts) serverSocket (layout 0 pkts) st).
  { unfold processPacket.
    apply (packetLoop_frames fuel socket serverSocket pkts Hwf [] (encodeRead pkts) fuel st);
      [reflexivity | exact Hfuel]. }
  split; [exact Hrun|]. split; [apply layout_length|].
  split; [apply (layout_frames pkts [] (encodeRead pkts)); reflexivity|].
  split; [apply layoutEnd_length|].
  split; [intros st' H; now rewrite Hrun|].
  intros before p after st1 e st2 Hsplit Hbefore Hthrow.
  rewrite Hrun. rewrite Hsplit at 2. rewrite layout_app. unfold dispatchAll in *.
  rewrite (forEach_app_Ret _ _ _ _ _ Hbefore).
  simpl. unfold bind. rewrite Hthrow. reflexivity.
Qed.

End Framing.

(** ** Running the buffer primitives *)

Section Running.
Context {rt : Runtime}.

Lemma byteLength_alloc (n : nat) : byteLength (Buffer_alloc n) = Z.of_nat n.
Proof. unfold byteLength, Buffer_alloc. now rewrite length_replicate. Qed.

Lemma fit_length (groups : list (list byte)) :
  forall cap, (length (fit cap groups) <= cap)%nat.
Proof.
  induction groups as [|g r IH]; intros cap; simpl; [lia|].
  destruct (Nat.leb_spec (length g) cap); simpl; [|lia].
  rewrite length_app. specialize (IH (cap - length g)%nat). lia.
Qed.

Lemma written_length (cap : nat) (s : jsstring) : (length (written cap s) <= cap)%nat.
Proof. apply fit_length. Qed.

(** Writing at the cursor: the buffer is [a] followed by zeros, and the write
    lands right after [a]. *)
Lemma write_u8_cursor (a : list byte) (n : nat) (v : Z) :
  0 <= v <= 255 ->
  writeUInt8 (a ++ Buffer_alloc (S n)) v (Z.of_nat (length a))
  = Some ((a ++ [Zbyte v]) ++ Buffer_alloc n).
Proof.
  intros Hv. unfold writeUInt8, inRange.
  rewrite byteLength_app, byteLength_alloc.
  unfold byteLength.
  destruct (Z.leb_spec 0 v); [|lia]. destruct (Z.leb_spec v 255); [|lia].
  destruct (Z.leb_spec 0 (Z.of_nat (length a))); [|lia].
  destruct (Z.leb_spec (Z.of_nat (length a) + 1) (Z.of_nat (length a) + Z.of_nat (S n))); [|lia].
  simpl. f_equal. unfold poke. rewrite Nat2Z.id.
  rewrite insert_app_r_alt by lia. rewrite Nat.sub_diag.
  unfold Buffer_alloc. simpl. now rewrite <- app_assoc.
Qed.

Lemma poke2_cursor (a : list byte) (n : nat) (v : Z) :
  poke (poke (a ++ Buffer_alloc (S (S n))) (Z.of_nat (length a)) v)
       (Z.of_nat (length a) + 1) (v / 256)
  = (a ++ le16 v) ++ Buffer_alloc n.
Proof.
  unfold poke.
  replace (Z.to_nat (Z.of_nat (length a) + 1)) with (length a + 1)%nat by lia.
  rewrite Nat2Z.id.
  rewrite !insert_app_r_alt by lia. rewrite Nat.sub_diag.
  replace (length a + 1 - length a)%nat with 1%nat by lia.
  unfold Buffer_alloc, le16. simpl. now rewrite <- app_assoc.
Qed.

Lemma write_u16_cursor (a : list byte) (n : nat) (v : Z) :
  0 <= v <= 65535 ->
  writeUInt16LE (a ++ Buffer_alloc (S (S n))) v (Z.of_nat (length a))
  = Some ((a ++ le16 v) ++ Buffer_alloc n).
Proof.
  intros Hv. unfold writeUInt16LE, inRange.
  rewrite byteLength_app, byteLength_alloc.
  unfold byteLength.
  destruct (Z.leb_spec 0 v); [|lia]. destruct (Z.leb_spec v 65535); [|lia].
  destruct (Z.leb_spec 0 (Z.of_nat (length a))); [|lia].
  destruct (Z.leb_spec (Z.of_nat (length a) + 2) (Z.of_nat (length a) + Z.of_nat (S (S n)))); [|lia].
  simpl andb. cbv iota. f_equal. apply poke2_cursor.
Qed.

Lemma write_i16_cursor (a : list byte) (n : nat) (v : Z) :
  -32768 <= v <= 32767 ->
  writeInt16LE (a ++ Buffer_alloc (S (S n))) v (Z.of_nat (length a))
  = Some ((a ++ le16 v) ++ Buffer_alloc n).
Proof.
  intros Hv. unfold writeInt16LE, inRange.
  rewrite byteLength_app, byteLength_alloc.
  unfold byteLength.
  destruct (Z.leb_spec (-32768) v); [|lia]. destruct (Z.leb_spec v 32767); [|lia].
  destruct (Z.leb_spec 0 (Z.of_nat (length a))); [|lia].
  destruct (Z.leb_spec (Z.of_nat (length a) + 2) (Z.of_nat (length a) + Z.of_nat (S (S n)))); [|lia].
  simpl andb. cbv iota. f_equal. apply poke2_cursor.
Qed.

Lemma write_str_cursor (a : list byte) (n : nat) (s : jsstring) :
  Buffer_write (a ++ Buffer_alloc n) s (Z.of_nat (length a))
  = Some ((a ++ written n s) ++ Buffer_alloc (n - length (written n s))).
Proof.
  unfold Buffer_write. rewrite byteLength_app, byteLength_alloc. unfold byteLength.
  destruct (Z.leb_spec 0 (Z.of_nat (length a))); [|lia].
  destruct (Z.leb_spec (Z.of_nat (length a)) (Z.of_nat (length a) + Z.of_nat n)); [|lia].
  simpl andb. cbv iota. f_equal.
  rewrite Nat2Z.id, length_app.
  replace (length a + length (Buffer_alloc n) - length a)%nat with n
    by (unfold Buffer_alloc; rewrite length_replicate; lia).
  fold (written n s). unfold blit.
  rewrite take_app_length.
  rewrite drop_app_ge by lia.
  replace (length a + length (written n s) - length a)%nat with (length (written n s)) by lia.
  unfold Buffer_alloc. rewrite drop_replicate. now rewrite <- app_assoc.
Qed.

Lemma bind_Ret {A B} (m : M A) (f : A -> M B) (st st' : State) (a : A) :
  m st = Ret a st' -> (x <- m ;; f x) st = f a st'.
Proof. intros H. unfold bind. now rewrite H. Qed.

Lemma bind_assoc {A B C} (m : M A) (f : A -> M B) (g : B -> M C) (st : State) :
  (y <- (x <- m ;; f x) ;; g y) st = (x <- m ;; y <- f x ;; g y) st.
Proof. unfold bind. destruct (m st); reflexivity. Qed.

Lemma bind_ext {A B} (m : M A) (f g : A -> M B) (st : State) :
  (forall a s, f a s = g a s) -> (x <- m ;; f x) st = (x <- m ;; g x) st.
Proof. intros H. unfold bind. destruct (m st); auto. Qed.

Lemma bind_Throw {A B} (m : M A) (f : A -> M B) (st st' : State) (e : Error) :
  m st = Throw e st' -> (x <- m ;; f x) st = Throw e st'.
Proof. intros H. unfold bind. now rewrite H. Qed.

Lemma writeToSocket_run (r : nat) (b : Buffer) (st : State) :
  writeToSocket (Some r) b st = Ret tt (sendTo r b st).
Proof.
  unfold writeToSocket, bind, gets. destruct (isWS (sockets st r)); reflexivity.
Qed.

(** One step of a computation, with the rest of it as [k]. *)
Lemma fill0_buf_k (k : M unit) (st : State) :
  (buf_fill0 ;; k) st = k (set_buf (Buffer_alloc 512) st).
Proof. reflexivity. Qed.

Lemma fill0_bufLarge_k (k : M unit) (st : State) :
  (bufLarge_fill0 ;; k) st = k (set_bufLarge (Buffer_alloc 4096) st).
Proof. reflexivity. Qed.

Lemma bufOp_k (get : State -> Buffer) (set : Buffer -> State -> State)
    (op : Buffer -> option Buffer) (b : Buffer) (k : M unit) (st : State) :
  op (get st) = Some b -> (bufOp get set op ;; k) st = k (set b st).
Proof. intros H. unfold bind, bufOp. now rewrite H. Qed.

Lemma bufOp_throw (get : State -> Buffer) (set : Buffer -> State -> State)
    (op : Buffer -> option Buffer) (k : M unit) (st : State) :
  op (get st) = None -> (bufOp get set op ;; k) st = Throw RangeError st.
Proof. intros H. unfold bind, bufOp. now rewrite H. Qed.

Lemma gets_k {A} (f : State -> A) (k : A -> M unit) (st : State) :
  (x <- gets f ;; k x) st = k (f st) st.
Proof. reflexivity. Qed.

Lemma gets_k_any {A B} (f : State -> A) (k : A -> M B) (st : State) :
  (x <- gets f ;; k x) st = k (f st) st.
Proof. reflexivity. Qed.

Lemma send_buf_run (r : nat) (st : State) :
  writeToSocket_buf (Some r) st = Ret tt (sendTo r (buf st) st).
Proof. unfold writeToSocket_buf. rewrite gets_k. apply writeToSocket_run. Qed.

Lemma send_bufLarge_run (r : nat) (st : State) :
  writeToSocket_bufLarge (Some r) st = Ret tt (sendTo r (bufLarge st) st).
Proof. unfold writeToSocket_bufLarge. rewrite gets_k. apply writeToSocket_run. Qed.

(** The chat packet, as the message case builds and sends it. *)
Lemma run_chat (text : jsstring) (r : nat) (st : State) :
  (bufLarge_fill0 ;;
   bufLarge_writeUInt8 serverNet.message 0 ;;
   bufLarge_write text 1 ;;
   writeToSocket_bufLarge (Some r)) st
  = Ret tt (sendTo r (chatPacket text) (set_bufLarge (chatPacket text) st)).
Proof.
  rewrite fill0_bufLarge_k.
  unfold bufLarge_writeUInt8, bufLarge_write.
  erewrite bufOp_k;
    [| exact (write_u8_cursor [] 4095 serverNet.message ltac:(unfold serverNet.message; lia))].
  erewrite bufOp_k; [| exact (write_str_cursor [Zbyte serverNet.message] 4095 text)].
  rewrite send_bufLarge_run. reflexivity.
Qed.

End Running.

(** ** Broadcast loops *)

Section Broadcast.
Context {rt : Runtime}.

Lemma sameButSent_refl (st : State) : sameButSent st st.
Proof. unfold sameButSent. intuition. Qed.

Lemma sameButSent_trans (a b c : State) :
  sameButSent a b -> sameButSent b c -> sameButSent a c.
Proof.
  unfold sameButSent. intros (H1 & H2 & H3 & H4 & H5 & H6) (G1 & G2 & G3 & G4 & G5 & G6).
  repeat split; try congruence;
    destruct (H6 r) as (? & ? & ? & ? & ?), (G6 r) as (? & ? & ? & ? & ?); congruence.
Qed.

Lemma sameButBufs_sameButSent (a b : State) : sameButBufs a b -> sameButSent a b.
Proof.
  unfold sameButBufs, sameButSent. intros (H1 & H2 & H3 & H4 & H5 & H6).
  rewrite H6. intuition.
Qed.

Lemma sameButBufs_set_buf (b : Buffer) (st : State) : sameButBufs st (set_buf b st).
Proof. unfold sameButBufs. intuition. Qed.

Lemma sameButBufs_set_bufLarge (b : Buffer) (st : State) : sameButBufs st (set_bufLarge b st).
Proof. unfold sameButBufs. intuition. Qed.

Lemma sameButSent_sendTo (r : nat) (pkt : Buffer) (st : State) :
  sameButSent st (sendTo r pkt st).
Proof.
  unfold sameButSent, sendTo, upd. simpl. repeat split; destruct (Nat.eqb r0 r) eqn:E; try reflexivity;
    apply Nat.eqb_eq in E; subst; reflexivity.
Qed.

Lemma sendTo_uid (r r' : nat) (pkt : Buffer) (st : State) :
  uid (sockets (sendTo r pkt st) r') = uid (sockets st r').
Proof. destruct (sameButSent_sendTo r pkt st) as (_ & _ & _ & _ & _ & H). apply H. Qed.

Lemma sendTo_id (r r' : nat) (pkt : Buffer) (st : State) :
  id (sockets (sendTo r pkt st) r') = id (sockets st r').
Proof. destruct (sameButSent_sendTo r pkt st) as (_ & _ & _ & _ & _ & H). apply H. Qed.

Lemma sent_sendTo (r r' : nat) (pkt : Buffer) (st : State) :
  sent (sockets (sendTo r pkt st) r')
  = sent (sockets st r') ++ (if decide (r = r') then [pkt] else []).
Proof.
  unfold sendTo, upd. simpl. destruct (Nat.eqb_spec r' r) as [->|Hne].
  - simpl. now rewrite decide_True.
  - rewrite decide_False by congruence. now rewrite app_nil_r.
Qed.

Lemma targets_ext (cond : State -> nat -> bool) (st st' : State) (socks : list nat) :
  (forall r, cond st' r = cond st r) -> targets cond st' socks = targets cond st socks.
Proof.
  intros H. unfold targets. apply list_filter_iff. intros r. now rewrite H.
Qed.

(** A loop whose callback sends [pkt] to the connections satisfying [cond] and
    otherwise touches only the shared buffers: every connection gets [pkt]
    once per occurrence among the targets, and nothing else changes.  [Inv] is
    what the callback relies on and keeps. *)
Lemma forEach_broadcast (Inv : State -> Prop) (cond : State -> nat -> bool) (pkt : Buffer)
    (touch : State -> State) (body : nat -> M unit) :
  (forall st st' r, sameButSent st st' -> cond st' r = cond st r) ->
  (forall st, sameButBufs st (touch st)) ->
  (forall st r, Inv st -> Inv (sendTo r pkt (touch st))) ->
  forall socks st,
    Inv st ->
    (forall s r, sameButSent st s -> Inv s ->
       body r s = Ret tt (if cond s r then sendTo r pkt (touch s) else s)) ->
    exists st',
      forEach socks body st = Ret tt st'
      /\ sameButSent st st'
      /\ Inv st'
      /\ forall r, sent (sockets st' r)
                   = sent (sockets st r) ++ replicate (occurrences r (targets cond st socks)) pkt.
Proof.
  intros Hinv Htouch Hkeep. induction socks as [|a l IH]; intros st HI Hbody.
  - exists st. split; [reflexivity|]. split; [apply sameButSent_refl|]. split; [exact HI|].
    intros r. simpl. now rewrite app_nil_r.
  - simpl forEach. rewrite (bind_Ret _ _ _ _ _ (Hbody st a (sameButSent_refl st) HI)).
    set (st1 := if cond st a then sendTo a pkt (touch st) else st).
    assert (H1 : sameButSent st st1).
    { subst st1. destruct (cond st a); [|apply sameButSent_refl].
      eapply sameButSent_trans; [apply sameButBufs_sameButSent, Htouch|apply sameButSent_sendTo]. }
    assert (HI1 : Inv st1) by (subst st1; destruct (cond st a); [now apply Hkeep | exact HI]).
    destruct (IH st1 HI1) as (st' & Hrun & Hsame & HI' & Hsent).
    { intros s r Hs. apply Hbody. eapply sameButSent_trans; eassumption. }
    exists st'. split; [exact Hrun|]. split; [eapply sameButSent_trans; eassumption|].
    split; [exact HI'|].
    intros r. rewrite Hsent.
    rewrite (targets_ext cond st st1 l) by (intros; now apply Hinv).
    unfold targets at 2. rewrite filter_cons. fold (targets cond st l).
    subst st1. destruct (cond st a) eqn:Ec.
    + rewrite decide_True by reflexivity.
      rewrite sent_sendTo.
      destruct (Htouch st) as (_ & _ & _ & _ & _ & Hs). rewrite Hs.
      unfold occurrences. rewrite filter_cons. rewrite <- app_assoc. f_equal.
      destruct (decide (a = r)); reflexivity.
    + rewrite decide_False by congruence. reflexivity.
Qed.

End Broadcast.

(** ** The registry invariant *)

Section Registry.

Lemma differs_inv (socket : nat) (st st' : State) (r : nat) :
  sameButSent st st' -> differs socket st' r = differs socket st r.
Proof.
  intros (_ & _ & _ & _ & _ & H). unfold differs.
  destruct (H r) as (_ & _ & -> & _), (H socket) as (_ & _ & -> & _). reflexivity.
Qed.

Lemma sorted_keys_fresh (k : Z) (l : list (Z * nat)) (r : nat) :
  Forall (Z.lt k) (map fst l) -> (k, r) ∉ l.
Proof.
  intros HF Hin. rewrite Forall_forall in HF.
  apply (list_elem_of_fmap_2 fst) in Hin. simpl in Hin.
  specialize (HF k Hin). lia.
Qed.

Lemma regWF_values_NoDup (st : State) : regWF st -> NoDup (Object_values (idToSocket st)).
Proof.
  intros [Hs Hid]. unfold Object_values.
  induction (idToSocket st) as [|[k r] l IH]; [constructor|].
  simpl in *. inversion Hs as [|? ? Hs' Hlt]; subst.
  constructor.
  - intros Hin. apply list_elem_of_fmap in Hin as ([k' r'] & Heq & Hin). simpl in Heq. subst r'.
    pose proof (Hid k r ltac:(left)) as Hk.
    pose proof (Hid k' r ltac:(right; exact Hin)) as Hk'.
    rewrite Hk in Hk'. subst k'.
    exact (sorted_keys_fresh _ l r Hlt Hin).
  - apply IH; [exact Hs'|]. intros k' r' Hin. apply Hid. right. exact Hin.
Qed.

Lemma registered_id (st : State) (r : nat) :
  regWF st -> registered st r -> (id (sockets st r), r) ∈ idToSocket st.
Proof.
  intros [_ Hid] Hr. unfold registered, Object_values in Hr.
  apply list_elem_of_fmap in Hr as ([k r'] & Heq & Hin). simpl in Heq. subst r'.
  now rewrite (Hid k r Hin).
Qed.

Lemma sorted_keys_functional (l : list (Z * nat)) (k : Z) (r r' : nat) :
  StronglySorted Z.lt (map fst l) -> (k, r) ∈ l -> (k, r') ∈ l -> r = r'.
Proof.
  induction l as [|[k0 r0] l IH]; intros Hs H1 H2; [inversion H1|].
  simpl in Hs. inversion Hs as [|? ? Hs' Hlt]; subst.
  apply elem_of_cons in H1 as [H1|H1], H2 as [H2|H2].
  - congruence.
  - inversion H1; subst. exfalso. exact (sorted_keys_fresh k0 l r' Hlt H2).
  - inversion H2; subst. exfalso. exact (sorted_keys_fresh k0 l r Hlt H1).
  - now apply IH.
Qed.

(** Two registered connections with the same id are the same connection. *)
Lemma registered_same_id (st : State) (r r' : nat) :
  regWF st -> registered st r -> registered st r' ->
  id (sockets st r) = id (sockets st r') -> r = r'.
Proof.
  intros Hwf Hr Hr' Heq.
  pose proof (registered_id st r Hwf Hr) as H1.
  pose proof (registered_id st r' Hwf Hr') as H2.
  rewrite Heq in H1. destruct Hwf as [Hs _].
  exact (sorted_keys_functional _ _ _ _ Hs H1 H2).
Qed.

Lemma occurrences_NoDup (r : nat) (l : list nat) :
  NoDup l -> occurrences r l = if decide (r ∈ l) then 1%nat else 0%nat.
Proof.
  unfold occurrences. induction 1 as [|a l Hnin Hnd IH].
  - rewrite decide_False; [reflexivity|]. apply not_elem_of_nil.
  - rewrite filter_cons. destruct (decide (a = r)) as [->|Hne].
    + simpl. rewrite IH. rewrite decide_False by exact Hnin.
      rewrite decide_True; [reflexivity|]. left.
    + rewrite IH. destruct (decide (r ∈ l)).
      * rewrite decide_True; [reflexivity|]. now right.
      * rewrite decide_False; [reflexivity|]. rewrite elem_of_cons. intuition congruence.
Qed.

(** Who a broadcast from [socket] reaches. *)
Lemma occurrences_self (socket : nat) (st : State) (socks : list nat) :
  occurrences socket (targets (differs socket) st socks) = 0%nat.
Proof.
  unfold occurrences, targets.
  induction socks as [|a l IH]; [reflexivity|].
  rewrite filter_cons. destruct (decide (differs socket st a = true)) as [Hd|Hd]; [|exact IH].
  rewrite filter_cons. destruct (decide (a = socket)) as [->|Hne]; [|exact IH].
  unfold differs in Hd. rewrite Z.eqb_refl in Hd. discriminate.
Qed.

Lemma occurrences_unregistered (cond : State -> nat -> bool) (st : State) (r : nat) :
  ~ registered st r ->
  occurrences r (targets cond st (Object_values (idToSocket st))) = 0%nat.
Proof.
  intros Hr. unfold occurrences.
  destruct (filter (λ x : nat, x = r) (targets cond st (Object_values (idToSocket st))))
    as [|x l] eqn:E; [reflexivity|].
  exfalso. apply Hr.
  assert (Hx : x ∈ filter (λ x : nat, x = r) (targets cond st (Object_values (idToSocket st))))
    by (rewrite E; left).
  apply list_elem_of_filter in Hx as [-> Hx].
  unfold targets in Hx. apply list_elem_of_filter in Hx as [_ Hx]. exact Hx.
Qed.

Lemma occurrences_other (socket : nat) (st : State) (r : nat) :
  regWF st -> registered st socket -> registered st r -> r <> socket ->
  occurrences r (targets (differs socket) st (Object_values (idToSocket st))) = 1%nat.
Proof.
  intros Hwf Hs Hr Hne.
  rewrite occurrences_NoDup.
  2:{ unfold targets. apply NoDup_filter. now apply regWF_values_NoDup. }
  rewrite decide_True; [reflexivity|].
  unfold targets. apply list_elem_of_filter. split; [|exact Hr].
  unfold differs. destruct (Z.eqb_spec (id (sockets st r)) (id (sockets st socket))) as [Heq|]; [|reflexivity].
  exfalso. apply Hne. now apply (registered_same_id st).
Qed.

(** A broadcast from [socket] reaches a registered connection whose id is
    not [socket]'s once, and no connection with [socket]'s id. *)
Lemma occurrences_differs (socket : nat) (st : State) (r : nat) :
  regWF st -> registered st r -> id (sockets st r) <> id (sockets st socket) ->
  occurrences r (targets (differs socket) st (Object_values (idToSocket st))) = 1%nat.
Proof.
  intros Hwf Hr Hne.
  rewrite occurrences_NoDup.
  2:{ unfold targets. apply NoDup_filter. now apply regWF_values_NoDup. }
  rewrite decide_True; [reflexivity|].
  unfold targets. apply list_elem_of_filter. split; [|exact Hr].
  unfold differs.
  destruct (Z.eqb_spec (id (sockets st r)) (id (sockets st socket))); [contradiction|reflexivity].
Qed.

Lemma occurrences_same_id (socket : nat) (st : State) (socks : list nat) (r : nat) :
  id (sockets st r) = id (sockets st socket) ->
  occurrences r (targets (differs socket) st socks) = 0%nat.
Proof.
  intros Heq. unfold occurrences, targets.
  induction socks as [|a l IH]; [reflexivity|].
  rewrite filter_cons. destruct (decide (differs socket st a = true)) as [Hd|Hd]; [|exact IH].
  rewrite filter_cons. destruct (decide (a = r)) as [->|Hne]; [|exact IH].
  unfold differs in Hd. rewrite Heq, Z.eqb_refl in Hd. discriminate.
Qed.


End Registry.

(** ** Chat messages *)

Section Chat.
Context {rt : Runtime}.

Lemma caseMessage_run (socket : nat) (data : Buffer) (_offset _end : Z) (st : State) :
  exists st',
    caseMessage socket data _offset _end st = Ret tt st'
    /\ sameButSent st st'
    /\ forall r,
        sent (sockets st' r)
        = sent (sockets st r)
          ++ replicate (occurrences r (targets (differs socket) st (Object_values (idToSocket st))))
                       (chatPacket (readBufString data (3 + _offset) _end)).
Proof.
  unfold caseMessage. rewrite gets_k.
  destruct (forEach_broadcast (fun _ => True) (differs socket)
              (chatPacket (readBufString data (3 + _offset) _end))
              (set_bufLarge (chatPacket (readBufString data (3 + _offset) _end)))
              (fun _sock =>
                 other <- gets (fun s => id (sockets s _sock)) ;;
                 mine <- gets (fun s => id (sockets s socket)) ;;
                 if other =? mine then ret tt
                 else
                   bufLarge_fill0 ;;
                   bufLarge_writeUInt8 serverNet.message 0 ;;
                   bufLarge_write (readBufString data (3 + _offset) _end) 1 ;;
                   writeToSocket_bufLarge (Some _sock))
              (fun s s' r H => differs_inv socket s s' r H)
              (fun s => sameButBufs_set_bufLarge _ s)
              (fun _ _ _ => I)
              (Object_values (idToSocket st)) st I) as (st' & Hrun & Hsame & _ & Hsent).
  - intros s r _ _. rewrite !gets_k. unfold differs.
    destruct (id (sockets s r) =? id (sockets s socket)); simpl; [reflexivity|].
    apply run_chat.
  - exists st'. auto.
Qed.

(** C6, as the script has it. A chat message received from a connection S
    is sent, as one chat packet, to every registered session whose id differs
    from the id of S, exactly once, and to no other connection: not to S, not
    to a connection outside the registry, and not to a connection that has
    the id of S.  When S is registered itself, the sessions whose id differs
    from its own are all the other registered sessions.  Nothing else changes
    and nothing is thrown. *)
Theorem chat_broadcast (fuel S : nat) (data : Buffer) (serverSocket : SocketOrMinus1)
    (_offset _end : Z) (st : State) :
  regWF st ->
  exists st',
    dispatch fuel S data serverSocket _offset _end clientNet.message st = Ret tt st'
    /\ (forall r, registered st r -> id (sockets st r) <> id (sockets st S) ->
          sent (sockets st' r)
          = sent (sockets st r) ++ [chatPacket (readBufString data (3 + _offset) _end)])
    /\ (forall r, id (sockets st r) = id (sockets st S) ->
          sent (sockets st' r) = sent (sockets st r))
    /\ (forall r, ~ registered st r -> sent (sockets st' r) = sent (sockets st r))
    /\ sent (sockets st' S) = sent (sockets st S)
    /\ (registered st S ->
        forall r, registered st r -> r <> S ->
          sent (sockets st' r)
          = sent (sockets st r) ++ [chatPacket (readBufString data (3 + _offset) _end)])
    /\ sameButSent st st'.
Proof.
  intros Hwf.
  destruct (caseMessage_run S data _offset _end st) as (st' & Hrun & Hsame & Hsent).
  exists st'. split; [exact Hrun|]. split; [|split; [|split; [|split; [|split]]]].
  - intros r Hr Hne. rewrite Hsent, (occurrences_differs S st r Hwf Hr Hne). reflexivity.
  - intros r Heq. rewrite Hsent, (occurrences_same_id S st _ r Heq). simpl. apply app_nil_r.
  - intros r Hr. rewrite Hsent, occurrences_unregistered by exact Hr. simpl. apply app_nil_r.
  - rewrite Hsent, occurrences_self. simpl. apply app_nil_r.
  - intros HS r Hr Hne. rewrite Hsent, (occurrences_other S st r Hwf HS Hr Hne). reflexivity.
  - exact Hsame.
Qed.

End Chat.

(** ** Disconnecting *)

Section Disconnect.
Context {rt : Runtime}.

Lemma modify_k (f : State -> State) (k : M unit) (st : State) :
  (modify f ;; k) st = k (f st).
Proof. reflexivity. Qed.

Lemma targets_all (st : State) (socks : list nat) :
  targets (fun _ _ => true) st socks = socks.
Proof.
  unfold targets. induction socks as [|a l IH]; [reflexivity|].
  rewrite filter_cons, decide_True by reflexivity. now rewrite IH.
Qed.

Lemma reg_delete_idem (k : Z) (r : list (Z * nat)) :
  reg_delete k (reg_delete k r) = reg_delete k r.
Proof.
  unfold reg_delete. induction r as [|p l IH]; [reflexivity|].
  rewrite filter_cons. destruct (decide (p.1 ≠ k)) as [H|H]; [|exact IH].
  rewrite filter_cons, decide_True by exact H. now rewrite IH.
Qed.

(** The leave notice, as playerDisconnect builds and sends it. *)
Lemma run_leave (socket r : nat) (st : State) :
  0 <= id (sockets st socket) <= 65535 ->
  (buf_fill0 ;;
   buf_writeUInt8 serverNet.leave 0 ;;
   mine <- gets (fun s => id (sockets s socket)) ;;
   buf_writeUInt16LE mine 1 ;;
   writeToSocket_buf (Some r)) st
  = Ret tt (sendTo r (leavePacket (id (sockets st socket)))
              (set_buf (leavePacket (id (sockets st socket))) st)).
Proof.
  intros Hid. rewrite fill0_buf_k. unfold buf_writeUInt8.
  erewrite bufOp_k;
    [| exact (write_u8_cursor [] 511 serverNet.leave ltac:(unfold serverNet.leave; lia))].
  rewrite gets_k. unfold buf_writeUInt16LE.
  erewrite bufOp_k;
    [| exact (write_u16_cursor [Zbyte serverNet.leave] 509 (id (sockets st socket)) Hid)].
  rewrite send_buf_run. reflexivity.
Qed.

Lemma playerDisconnect_run (socket : nat) (serverSocket : SocketOrMinus1) (st : State)
    (key : jsstring) :
  0 <= id (sockets st socket) <= 65535 ->
  ToString (uid (sockets st socket)) = Some key ->
  exists st',
    playerDisconnect socket serverSocket st = Ret tt st'
    /\ sameButSent
         (set_socketToData (delete key (socketToData st))
            (set_idToSocket (reg_delete (id (sockets st socket)) (idToSocket st)) st)) st'
    /\ forall r,
        sent (sockets st' r)
        = sent (sockets st r)
          ++ notices (id (sockets st socket))
               (reg_delete (id (sockets st socket)) (idToSocket st)) serverSocket r.
Proof.
  intros Hid Hkey. unfold playerDisconnect.
  rewrite gets_k, modify_k, gets_k.
  set (mine := id (sockets st socket)) in *.
  set (st0 := set_idToSocket (reg_delete mine (idToSocket st)) st).
  destruct (forEach_broadcast (fun _ => True) (fun _ _ => true) (leavePacket mine)
              (set_buf (leavePacket mine))
              (fun _sock =>
                 buf_fill0 ;;
                 buf_writeUInt8 serverNet.leave 0 ;;
                 mine <- gets (fun s => id (sockets s socket)) ;;
                 buf_writeUInt16LE mine 1 ;;
                 writeToSocket_buf (Some _sock))
              ltac:(reflexivity) (fun s => sameButBufs_set_buf _ s) (fun _ _ _ => I)
              (Object_values (idToSocket st0)) st0 I) as (st1 & Hrun & Hsame & _ & Hsent).
  { intros s r (_ & _ & _ & _ & _ & Hs) _.
    assert (Hm : id (sockets s socket) = mine) by (destruct (Hs socket) as (_ & _ & -> & _); reflexivity).
    rewrite run_leave by (rewrite Hm; exact Hid). now rewrite Hm. }
  rewrite (bind_Ret _ _ _ _ _ Hrun).
  rewrite targets_all in Hsent.
  assert (Hu1 : uid (sockets st1 socket) = uid (sockets st socket))
    by (destruct Hsame as (_ & _ & _ & _ & _ & Hs); destruct (Hs socket) as (_ & -> & _); reflexivity).
  assert (Hm1 : id (sockets st1 socket) = mine)
    by (destruct Hsame as (_ & _ & _ & _ & _ & Hs); destruct (Hs socket) as (_ & _ & -> & _); reflexivity).
  destruct serverSocket as [p|].
  - rewrite bool_decide_true by discriminate.
    erewrite bind_Ret; [| apply run_leave; rewrite Hm1; exact Hid].
    rewrite Hm1, gets_k. cbv beta.
    assert (Hu2 : uid (sockets (sendTo p (leavePacket mine) (set_buf (leavePacket mine) st1)) socket)
                  = uid (sockets st socket)) by (rewrite sendTo_uid; exact Hu1).
    rewrite Hu2. unfold toKey. rewrite Hkey.
    unfold ret at 1. erewrite bind_Ret by reflexivity.
    eexists. split; [reflexivity|]. split.
    + destruct Hsame as (H1 & H2 & H3 & H4 & H5 & H6).
      unfold sameButSent, sendTo, upd; simpl. rewrite H1, H2, H3, H4, H5.
      repeat split; destruct (H6 r) as (? & ? & ? & ? & ?);
        destruct (Nat.eqb r p) eqn:E; try apply Nat.eqb_eq in E; subst; simpl; assumption.
    + intros r. unfold notices.
      change (sockets (set_socketToData _ (sendTo p ?pkt ?s)) r) with (sockets (sendTo p pkt s) r).
      rewrite sent_sendTo. simpl sockets. rewrite Hsent, <- app_assoc.
      destruct (decide (p = r)) as [->|Hne].
      * rewrite decide_True by reflexivity. reflexivity.
      * rewrite decide_False by congruence. reflexivity.
  - rewrite bool_decide_false by (intros H; now apply H).
    unfold ret at 1. erewrite bind_Ret by reflexivity.
    rewrite gets_k. cbv beta. rewrite Hu1. unfold toKey. rewrite Hkey.
    unfold ret at 1. erewrite bind_Ret by reflexivity.
    eexists. split; [reflexivity|]. split.
    + destruct Hsame as (H1 & H2 & H3 & H4 & H5 & H6).
      unfold sameButSent; simpl. rewrite H1, H2, H3, H4, H5. repeat split; apply H6.
    + intros r. unfold notices. simpl sockets. rewrite Hsent.
      rewrite decide_False by discriminate. rewrite app_nil_r. reflexivity.
Qed.

End Disconnect.

Section Disconnect_twice.
Context {rt : Runtime}.

Lemma occurrences_pos (r : nat) (l : list nat) : r ∈ l -> (0 < occurrences r l)%nat.
Proof.
  intros Hin. unfold occurrences.
  assert (H : r ∈ filter (fun x => x = r) l) by (apply list_elem_of_filter; split; [reflexivity|exact Hin]).
  destruct (filter (fun x => x = r) l); [inversion H | simpl; lia].
Qed.

(** C3, as the script has it. Two calls of playerDisconnect for the same
    connection both return normally, and the second leaves the registry and
    the player store as the first left them; but the second sends every
    remaining registered session (and the parent, when there is one) the leave
    packet again: there is no guard against a second run.  The "close"
    listener, and on a TCP connection the "error" listener, both call it. *)
Theorem playerDisconnect_twice (socket : nat) (serverSocket : SocketOrMinus1) (st : State)
    (key : jsstring) :
  0 <= id (sockets st socket) <= 65535 ->
  ToString (uid (sockets st socket)) = Some key ->
  exists st1 st2,
    playerDisconnect socket serverSocket st = Ret tt st1
    /\ playerDisconnect socket serverSocket st1 = Ret tt st2
    /\ idToSocket st2 = idToSocket st1
    /\ socketToData st2 = socketToData st1
    /\ (forall r,
          sent (sockets st1 r)
          = sent (sockets st r)
            ++ notices (id (sockets st socket)) (idToSocket st1) serverSocket r
          /\ sent (sockets st2 r)
             = sent (sockets st1 r)
               ++ notices (id (sockets st socket)) (idToSocket st1) serverSocket r)
    /\ (forall r, registered st1 r ->
          (0 < occurrences r (Object_values (idToSocket st1)))%nat)
    /\ (forall fuel, onEvent fuel socket serverSocket EvClose st
                     = playerDisconnect socket serverSocket st)
    /\ (forall fuel, isWS (sockets st socket) = false ->
                     onEvent fuel socket serverSocket EvError st
                     = playerDisconnect socket serverSocket st).
Proof.
  intros Hid Hkey.
  destruct (playerDisconnect_run socket serverSocket st key Hid Hkey)
    as (st1 & Hrun1 & Hsame1 & Hsent1).
  assert (Hreg1 : idToSocket st1 = reg_delete (id (sockets st socket)) (idToSocket st))
    by (destruct Hsame1 as (_ & -> & _); reflexivity).
  assert (Hstore1 : socketToData st1 = delete key (socketToData st))
    by (destruct Hsame1 as (_ & _ & -> & _); reflexivity).
  assert (Hid1 : id (sockets st1 socket) = id (sockets st socket))
    by (destruct Hsame1 as (_ & _ & _ & _ & _ & H); destruct (H socket) as (_ & _ & -> & _); reflexivity).
  assert (Huid1 : uid (sockets st1 socket) = uid (sockets st socket))
    by (destruct Hsame1 as (_ & _ & _ & _ & _ & H); destruct (H socket) as (_ & -> & _); reflexivity).
  destruct (playerDisconnect_run socket serverSocket st1 key
              ltac:(rewrite Hid1; exact Hid) ltac:(rewrite Huid1; exact Hkey))
    as (st2 & Hrun2 & Hsame2 & Hsent2).
  exists st1, st2. split; [exact Hrun1|]. split; [exact Hrun2|].
  split; [|split; [|split; [|split; [|split]]]].
  - destruct Hsame2 as (_ & -> & _). simpl. rewrite Hid1, Hreg1. apply reg_delete_idem.
  - destruct Hsame2 as (_ & _ & -> & _). simpl. rewrite Hstore1. apply delete_delete_eq.
  - intros r. split.
    + rewrite Hsent1, Hreg1. reflexivity.
    + rewrite Hsent2, Hid1, Hreg1, reg_delete_idem. reflexivity.
  - intros r Hr. apply occurrences_pos. exact Hr.
  - intros fuel. reflexivity.
  - intros fuel Hws. unfold onEvent. rewrite gets_k, Hws. reflexivity.
Qed.

End Disconnect_twice.

(** ** Sanitizing decoded strings *)

Section Sanitize.
Context {rt : Runtime}.

Lemma countOf_removeAll (c d : N) (s : jsstring) :
  c <> d -> countOf c (removeAll d s) = countOf c s.
Proof.
  intros Hne. unfold countOf, removeAll. induction s as [|x r IH]; [reflexivity|].
  rewrite !filter_cons. destruct (decide (x ≠ d)) as [Hx|Hx].
  - rewrite filter_cons. destruct (decide (x = c)); simpl; now rewrite IH.
  - rewrite decide_False; [exact IH|]. intros ->. apply Hx. congruence.
Qed.

Lemma countOf_removeFirst_same (c : N) (s : jsstring) :
  countOf c (removeFirst c s) = Nat.pred (countOf c s).
Proof.
  unfold countOf. induction s as [|x r IH]; [reflexivity|].
  simpl removeFirst. rewrite filter_cons. destruct (N.eqb_spec x c) as [->|Hne].
  - rewrite decide_True by reflexivity. reflexivity.
  - rewrite decide_False by exact Hne. rewrite filter_cons, decide_False by exact Hne. exact IH.
Qed.

Lemma countOf_removeFirst_other (c d : N) (s : jsstring) :
  c <> d -> countOf c (removeFirst d s) = countOf c s.
Proof.
  intros Hne. unfold countOf. induction s as [|x r IH]; [reflexivity|].
  simpl removeFirst. rewrite filter_cons. destruct (N.eqb_spec x d) as [->|Hxd].
  - rewrite decide_False by congruence. reflexivity.
  - rewrite filter_cons. destruct (decide (x = c)); simpl; now rewrite IH.
Qed.

Lemma removeFirst_elem (c x : N) (s : jsstring) : x ∈ removeFirst c s -> x ∈ s.
Proof.
  induction s as [|y r IH]; simpl; [auto|].
  destruct (N.eqb_spec y c); intros H.
  - now right.
  - apply elem_of_cons in H as [->|H]; [left | right; auto].
Qed.

Lemma removeFirst_absent (c : N) (s : jsstring) : c ∉ s -> removeFirst c s = s.
Proof.
  induction s as [|x r IH]; intros H; [reflexivity|].
  simpl. apply not_elem_of_cons in H as [Hx Hr].
  destruct (N.eqb_spec x c); [congruence|]. f_equal. now apply IH.
Qed.

Lemma removeFirst_split (c : N) (pre post : jsstring) :
  c ∉ pre -> removeFirst c (pre ++ c :: post) = pre ++ post.
Proof.
  induction pre as [|x r IH]; intros H; simpl.
  - now rewrite N.eqb_refl.
  - apply not_elem_of_cons in H as [Hx Hr].
    destruct (N.eqb_spec x c); [congruence|]. f_equal. now apply IH.
Qed.

(** The text readBufString returns, from the decoded text: no NUL is left,
    the first U+0005 is left out, and the rest stays in its order. *)
Lemma readBufString_order (str : Buffer) (ind end_ : Z) :
  (0%N ∉ readBufString str ind end_)
  /\ ((5%N ∉ toStringUtf8 str ind end_) ->
       readBufString str ind end_ = filter (fun x => x <> 0%N) (toStringUtf8 str ind end_))
  /\ (forall pre post,
       toStringUtf8 str ind end_ = pre ++ 5%N :: post -> (5%N ∉ pre) ->
       readBufString str ind end_
       = filter (fun x => x <> 0%N) pre ++ filter (fun x => x <> 0%N) post).
Proof.
  unfold readBufString. split; [|split].
  - intros H. apply removeFirst_elem in H. unfold removeAll in H.
    apply list_elem_of_filter in H as [H _]. now apply H.
  - intros H. unfold removeAll. apply removeFirst_absent.
    intros Hin. apply list_elem_of_filter in Hin as [_ Hin]. contradiction.
  - intros pre post -> Hpre. unfold removeAll. rewrite filter_app, filter_cons.
    rewrite decide_True by discriminate.
    apply removeFirst_split. intros Hin. apply list_elem_of_filter in Hin as [_ Hin]. contradiction.
Qed.

(** What readBufString removes. The string it returns holds no NUL (U+0000):
    all of them are removed.  Of U+0005 only the first occurrence is removed
    (the second [replace] has a string pattern, the first a global regular
    expression), so the result holds one U+0005 fewer than the decoded text,
    not none; every other code unit is kept.  The order is kept as well: a
    decoded text without U+0005 comes back as it is but for its NULs, and a
    decoded text [pre ++ U+0005 :: post], with no U+0005 in [pre], comes back
    as [pre] and [post] without their NULs, one after the other. *)
Theorem readBufString_sanitized (str : Buffer) (ind end_ : Z) :
  (0%N ∉ readBufString str ind end_)
  /\ countOf 5 (readBufString str ind end_) = Nat.pred (countOf 5 (toStringUtf8 str ind end_))
  /\ (forall c, c <> 0%N -> c <> 5%N ->
       countOf c (readBufString str ind end_) = countOf c (toStringUtf8 str ind end_))
  /\ ((5%N ∉ toStringUtf8 str ind end_) ->
       readBufString str ind end_ = filter (fun x => x <> 0%N) (toStringUtf8 str ind end_))
  /\ (forall pre post,
       toStringUtf8 str ind end_ = pre ++ 5%N :: post -> (5%N ∉ pre) ->
       readBufString str ind end_
       = filter (fun x => x <> 0%N) pre ++ filter (fun x => x <> 0%N) post).
Proof.
  destruct (readBufString_order str ind end_) as (Hnul & Hnone & Hfirst).
  split; [exact Hnul|]. unfold readBufString. split; [|split; [|split]].
  - rewrite countOf_removeFirst_same, countOf_removeAll by discriminate. reflexivity.
  - intros c H0 H5. rewrite countOf_removeFirst_other, countOf_removeAll by assumption. reflexivity.
  - exact Hnone.
  - exact Hfirst.
Qed.

End Sanitize.

(** ** The parent connection and the leave case *)

Section Cluster.
Context {rt : Runtime}.

(** C7, where the script departs from it. A serverData packet on the parent
    connection never replaces [nodes]: the handler parses the payload and then
    throws, TypeError for the assignment to the constant [nodes] (SyntaxError
    before that when the payload is not JSON), and the state, [nodes]
    included, is as it was. *)
Theorem serverData_throws (fuel socket : nat) (rest : Buffer) (st : State) :
  parentData fuel socket (x2c :: rest) st
  = Throw (match JSON_parse (readBufString (x2c :: rest) 1 (byteLength (x2c :: rest))) with
           | Some _ => TypeError
           | None => SyntaxError
           end) st.
Proof.
  unfold parentData.
  assert (H : readUInt8 (x2c :: rest) 0 = Some clusterNet.serverData).
  { unfold readUInt8, inRange, byteLength. simpl length.
    destruct (Z.leb_spec (0 + 1) (Z.of_nat (S (length rest)))); [reflexivity | lia]. }
  rewrite H. unfold orThrow at 1. unfold ret at 1. erewrite bind_Ret by reflexivity.
  change (clusterNet.serverData =? clusterNet.miscData) with false.
  change (clusterNet.serverData =? clusterNet.type) with false.
  change (clusterNet.serverData =? clusterNet.serverData) with true.
  cbv iota.
  destruct (JSON_parse (readBufString (x2c :: rest) 1 (byteLength (x2c :: rest)))); reflexivity.
Qed.

(** C5, where the script departs from it. The leave case throws
    ReferenceError at its first statement, whatever the state: the packet is
    not forwarded to the parent (nor is the connection closed), with
    [unifiedCluster] true as with it false.  So does a read that consists of one
    leave sub-packet. *)
Theorem leave_throws (fuel socket : nat) (data : Buffer) (serverSocket : SocketOrMinus1)
    (_offset _end : Z) (st : State) :
  dispatch fuel socket data serverSocket _offset _end clusterNet.leave st
  = Throw ReferenceError st
  /\ processPacket (S fuel) socket [x03; x00; x2e] serverSocket st = Throw ReferenceError st.
Proof. split; reflexivity. Qed.

End Cluster.

(** ** Accepting a connection *)

Section Accept.
Context {rt : Runtime}.

Lemma setSock_k (r : nat) (f : Socket -> Socket) (k : M unit) (st : State) :
  (setSock r f ;; k) st = k (set_sockets (upd r (f (sockets st r)) (sockets st)) st).
Proof. reflexivity. Qed.

Lemma upd_same (r : nat) (x : Socket) (h : nat -> Socket) : upd r x h r = x.
Proof. unfold upd. now rewrite Nat.eqb_refl. Qed.

Lemma upd_other (r r' : nat) (x : Socket) (h : nat -> Socket) : r' <> r -> upd r x h r' = h r'.
Proof. intros H. unfold upd. now apply Nat.eqb_neq in H as ->. Qed.

(** Lines 147-159 of serverCode: the connection's properties, the counter, the
    registry entry and the assign packet.  What remains is the report to the
    parent and the installation of the listener. *)
Lemma serverCode_prefix (socket : nat) (w : bool) (uuid : jsstring)
    (serverSocket : SocketOrMinus1) (st : State) :
  0 <= playerCount st + serverIndex * 256 <= 65535 ->
  exists st1,
    serverCode socket w uuid serverSocket st
    = ((if bool_decide (serverSocket ≠ None) then
          buf_fill0 ;;
          buf_writeUInt8 clusterNet.count 0 ;;
          n <- gets (fun s => Z.of_nat (length (idToSocket s))) ;;
          buf_writeUInt8 n 1 ;;
          writeToSocket_buf serverSocket
        else ret tt) ;;
       setSock socket (set_listening true)) st1
    /\ playerCount st1 = (playerCount st + 1) mod 256
    /\ idToSocket st1 = reg_set (playerCount st + serverIndex * 256) socket (idToSocket st)
    /\ socketToData st1 = socketToData st
    /\ unifiedCluster st1 = unifiedCluster st
    /\ nodes st1 = nodes st
    /\ (forall r, r <> socket -> sockets st1 r = sockets st r)
    /\ sockets st1 socket
       = mkSocket w (VStr uuid) (playerCount st + serverIndex * 256)
           (sent (sockets st socket)
            ++ [assignPacket (playerCount st + serverIndex * 256) uuid])
           (closed (sockets st socket)) (listening (sockets st socket)).
Proof.
  intros Hid. unfold serverCode.
  rewrite !setSock_k, gets_k. cbv beta. rewrite setSock_k, modify_k, gets_k, modify_k. cbv beta.
  rewrite fill0_buf_k. unfold buf_writeUInt8 at 1.
  erewrite bufOp_k;
    [| exact (write_u8_cursor [] 511 serverNet.assign ltac:(unfold serverNet.assign; lia))].
  unfold buf_writeUInt16LE.
  match goal with |- context [bufOp buf set_buf (fun b => writeUInt16LE b ?m 1)] =>
    assert (Hm : m = playerCount st + serverIndex * 256)
      by (simpl; rewrite !upd_same; reflexivity)
  end.
  rewrite Hm.
  erewrite bufOp_k;
    [| exact (write_u16_cursor [Zbyte serverNet.assign] 509 _ Hid)].
  unfold buf_write.
  erewrite bufOp_k;
    [| exact (write_str_cursor (Zbyte serverNet.assign :: le16 (playerCount st + serverIndex * 256))
                509 uuid)].
  erewrite bind_Ret; [| apply send_buf_run].
  eexists. split; [reflexivity|].
  unfold sendTo. simpl. rewrite !upd_same. simpl.
  repeat split.
  intros r Hr. rewrite !upd_other by exact Hr. reflexivity.
Qed.

End Accept.

Section Registry_update.

Lemma reg_get_set_same (k : Z) (v : nat) (l : list (Z * nat)) :
  reg_get k (reg_set k v l) = Some v.
Proof.
  induction l as [|[k' v'] l IH]; simpl.
  - now rewrite Z.eqb_refl.
  - destruct (Z.ltb_spec k k'); simpl.
    + now rewrite Z.eqb_refl.
    + destruct (Z.eqb_spec k k'); simpl.
      * now rewrite Z.eqb_refl.
      * destruct (Z.eqb_spec k k'); [contradiction | exact IH].
Qed.

Lemma reg_get_elem (k : Z) (r : nat) (l : list (Z * nat)) :
  reg_get k l = Some r -> (k, r) ∈ l.
Proof.
  induction l as [|[k' v'] l IH]; simpl; [discriminate|].
  destruct (Z.eqb_spec k k') as [->|Hne]; intros H.
  - inversion H; subst. left.
  - right. now apply IH.
Qed.

Lemma reg_set_elem (k0 : Z) (v : nat) (l : list (Z * nat)) (k : Z) (r : nat) :
  StronglySorted Z.lt (map fst l) ->
  (k, r) ∈ reg_set k0 v l -> (k = k0 /\ r = v) \/ (k <> k0 /\ (k, r) ∈ l).
Proof.
  induction l as [|[k' v'] l IH]; simpl; intros Hs Hin.
  - apply list_elem_of_singleton in Hin. inversion Hin; subst. now left.
  - inversion Hs as [|? ? Hs' Hlt]; subst.
    destruct (Z.ltb_spec k0 k').
    + apply elem_of_cons in Hin as [Hin|Hin]; [inversion Hin; subst; now left|].
      right. split; [|exact Hin].
      apply elem_of_cons in Hin as [Hin|Hin]; [inversion Hin; subst; lia|].
      rewrite Forall_forall in Hlt.
      apply (list_elem_of_fmap_2 fst) in Hin. specialize (Hlt _ Hin). simpl in Hlt. lia.
    + destruct (Z.eqb_spec k0 k') as [->|Hne].
      * apply elem_of_cons in Hin as [Hin|Hin]; [inversion Hin; subst; now left|].
        right. split; [|now right].
        rewrite Forall_forall in Hlt.
        apply (list_elem_of_fmap_2 fst) in Hin. specialize (Hlt _ Hin). simpl in Hlt. lia.
      * apply elem_of_cons in Hin as [Hin|Hin].
        -- inversion Hin; subst. right. split; [congruence | left].
        -- destruct (IH Hs' Hin) as [?|[? ?]]; [now left | right; split; [assumption | now right]].
Qed.

Lemma reg_set_keys_bound (k0 : Z) (v : nat) (l : list (Z * nat)) (lo : Z) :
  lo < k0 -> Forall (Z.lt lo) (map fst l) -> Forall (Z.lt lo) (map fst (reg_set k0 v l)).
Proof.
  intros Hlo. induction l as [|[k' v'] l IH]; simpl; intros HF.
  - constructor; [exact Hlo | constructor].
  - inversion HF; subst.
    destruct (Z.ltb_spec k0 k'); simpl; [constructor; [exact Hlo | exact HF]|].
    destruct (Z.eqb_spec k0 k'); simpl; constructor; auto.
Qed.

Lemma reg_set_sorted (k0 : Z) (v : nat) (l : list (Z * nat)) :
  StronglySorted Z.lt (map fst l) -> StronglySorted Z.lt (map fst (reg_set k0 v l)).
Proof.
  induction l as [|[k' v'] l IH]; simpl; intros Hs.
  - constructor; constructor.
  - inversion Hs as [|? ? Hs' Hlt]; subst.
    destruct (Z.ltb_spec k0 k'); simpl.
    + constructor; [exact Hs|]. constructor; [exact H|].
      eapply Forall_impl; [exact Hlt|]. simpl. intros; lia.
    + destruct (Z.eqb_spec k0 k') as [->|Hne]; simpl.
      * constructor; assumption.
      * constructor; [now apply IH|]. apply reg_set_keys_bound; [lia | exact Hlt].
Qed.

Lemma reg_set_length (k0 : Z) (v old : nat) (l : list (Z * nat)) :
  StronglySorted Z.lt (map fst l) ->
  reg_get k0 l = Some old -> length (reg_set k0 v l) = length l.
Proof.
  induction l as [|[k' v'] l IH]; simpl; intros Hs Hget; [discriminate|].
  inversion Hs as [|? ? Hs' Hlt]; subst.
  destruct (Z.eqb_spec k0 k') as [->|Hne].
  - rewrite Z.ltb_irrefl. reflexivity.
  - destruct (Z.ltb_spec k0 k').
    + exfalso. apply reg_get_elem in Hget.
      rewrite Forall_forall in Hlt.
      apply (list_elem_of_fmap_2 fst) in Hget. specialize (Hlt _ Hget). simpl in Hlt. lia.
    + simpl. f_equal. now apply IH.
Qed.

End Registry_update.

Section Accept_collision.
Context {rt : Runtime}.

(** The rest of serverCode when the count fits a byte or there is no parent. *)
Lemma serverCode_tail_ret (socket : nat) (serverSocket : SocketOrMinus1) (st1 : State) :
  serverSocket = None \/ Z.of_nat (length (idToSocket st1)) <= 255 ->
  exists st',
    ((if bool_decide (serverSocket ≠ None) then
        buf_fill0 ;;
        buf_writeUInt8 clusterNet.count 0 ;;
        n <- gets (fun s => Z.of_nat (length (idToSocket s))) ;;
        buf_writeUInt8 n 1 ;;
        writeToSocket_buf serverSocket
      else ret tt) ;;
     setSock socket (set_listening true)) st1 = Ret tt st'
    /\ playerCount st' = playerCount st1
    /\ idToSocket st' = idToSocket st1
    /\ socketToData st' = socketToData st1
    /\ unifiedCluster st' = unifiedCluster st1
    /\ nodes st' = nodes st1
    /\ forall r, isWS (sockets st' r) = isWS (sockets st1 r)
              /\ uid (sockets st' r) = uid (sockets st1 r)
              /\ id (sockets st' r) = id (sockets st1 r)
              /\ closed (sockets st' r) = closed (sockets st1 r)
              /\ sent (sockets st' r)
                 = sent (sockets st1 r)
                   ++ (if decide (serverSocket = Some r)
                       then [countPacket (Z.of_nat (length (idToSocket st1)))] else []).
Proof.
  intros Hcap. destruct serverSocket as [p|].
  - destruct Hcap as [Hcap|Hcap]; [discriminate|].
    rewrite bool_decide_true by discriminate.
    erewrite bind_Ret.
    2:{ rewrite fill0_buf_k. unfold buf_writeUInt8 at 1.
        erewrite bufOp_k;
          [| exact (write_u8_cursor [] 511 clusterNet.count ltac:(unfold clusterNet.count; lia))].
        rewrite gets_k. cbv beta. unfold buf_writeUInt8.
        erewrite bufOp_k;
          [| exact (write_u8_cursor [Zbyte clusterNet.count] 510
                      (Z.of_nat (length (idToSocket st1))) ltac:(lia))].
        apply send_buf_run. }
    eexists. split; [reflexivity|]. unfold sendTo, upd. simpl.
    repeat split; destruct (Nat.eqb_spec r socket), (Nat.eqb_spec r p); subst; simpl;
      try rewrite Nat.eqb_refl; simpl;
      try (rewrite decide_True by reflexivity); try (rewrite decide_False by congruence);
      try rewrite app_nil_r; try reflexivity.
    all: try (destruct (Nat.eqb_spec socket p); [congruence | simpl; now rewrite ?app_nil_r]).
    all: try (destruct (Nat.eqb_spec r p); [congruence | simpl; now rewrite ?app_nil_r]).
  - rewrite bool_decide_false by (intros H; now apply H).
    eexists. split; [reflexivity|]. unfold upd. simpl.
    repeat split; destruct (Nat.eqb_spec r socket); subst; simpl; try reflexivity;
      now rewrite app_nil_r.
Qed.

(** The report to the parent throws when the registry holds more than 255
    connections. *)
Lemma serverCode_tail_throw (socket p : nat) (st1 : State) :
  255 < Z.of_nat (length (idToSocket st1)) ->
  exists st',
    ((if bool_decide (Some p ≠ None) then
        buf_fill0 ;;
        buf_writeUInt8 clusterNet.count 0 ;;
        n <- gets (fun s => Z.of_nat (length (idToSocket s))) ;;
        buf_writeUInt8 n 1 ;;
        writeToSocket_buf (Some p)
      else ret tt) ;;
     setSock socket (set_listening true)) st1 = Throw RangeError st'
    /\ sameButBufs st1 st'.
Proof.
  intros Hn. rewrite bool_decide_true by discriminate.
  erewrite bind_Throw.
  2:{ rewrite fill0_buf_k. unfold buf_writeUInt8 at 1.
      erewrite bufOp_k;
        [| exact (write_u8_cursor [] 511 clusterNet.count ltac:(unfold clusterNet.count; lia))].
      rewrite gets_k. cbv beta. unfold buf_writeUInt8.
      apply bufOp_throw. unfold writeUInt8. cbn [idToSocket set_buf].
      destruct (Z.leb_spec (Z.of_nat (length (idToSocket st1))) 255); [lia|].
      now rewrite andb_false_r. }
  eexists. split; [reflexivity|]. unfold sameButBufs. simpl. repeat split.
Qed.

End Accept_collision.

Section Accept_theorem.
Context {rt : Runtime}.

(** What holds of the state serverCode leaves, whether or not the report to
    the parent threw. *)
Lemma accept_facts (socket : nat) (w : bool) (uuid : jsstring) (st st1 st' : State) :
  regWF st ->
  0 <= playerCount st <= 255 ->
  ~ registered st socket ->
  playerCount st1 = (playerCount st + 1) mod 256 ->
  idToSocket st1 = reg_set (playerCount st + serverIndex * 256) socket (idToSocket st) ->
  (forall r, r <> socket -> sockets st1 r = sockets st r) ->
  id (sockets st1 socket) = playerCount st + serverIndex * 256 ->
  playerCount st' = playerCount st1 ->
  idToSocket st' = idToSocket st1 ->
  (forall r, id (sockets st' r) = id (sockets st1 r)
             /\ closed (sockets st' r) = closed (sockets st1 r)) ->
  id (sockets st' socket) = playerCount st + serverIndex * 256
  /\ playerCount st' = (playerCount st + 1) mod 256
  /\ 0 <= playerCount st' <= 255
  /\ reg_get (id (sockets st' socket)) (idToSocket st') = Some socket
  /\ regWF st'
  /\ forall old,
       reg_get (playerCount st + serverIndex * 256) (idToSocket st) = Some old ->
       length (idToSocket st') = length (idToSocket st)
       /\ ~ registered st' old
       /\ closed (sockets st' old) = closed (sockets st old)
       /\ (forall cond,
             occurrences old (targets cond st' (Object_values (idToSocket st'))) = 0%nat)
       /\ (forall fuel S data serverSocket _offset _end, exists st2,
             dispatch fuel S data serverSocket _offset _end clientNet.message st' = Ret tt st2
             /\ sent (sockets st2 old) = sent (sockets st' old)).
Proof.
  intros [Hsorted Hids] Hpc Hfresh Hpc1 Hreg1 Hoth1 Hid1 Hpc' Hreg' Hs'.
  set (mine := playerCount st + serverIndex * 256) in *.
  assert (Hid' : id (sockets st' socket) = mine) by (destruct (Hs' socket) as [-> _]; exact Hid1).
  assert (Hwf' : regWF st').
  { split.
    - rewrite Hreg', Hreg1. now apply reg_set_sorted.
    - intros k r Hin. rewrite Hreg', Hreg1 in Hin.
      destruct (reg_set_elem mine socket _ k r Hsorted Hin) as [[-> ->]|[Hne Hin']].
      + exact Hid'.
      + assert (r <> socket).
        { intros ->. apply Hfresh. unfold registered, Object_values.
          apply (list_elem_of_fmap_2 snd) in Hin'. exact Hin'. }
        destruct (Hs' r) as [-> _]. rewrite Hoth1 by assumption. now apply Hids. }
  split; [exact Hid'|]. split; [congruence|]. split.
  { rewrite Hpc', Hpc1. pose proof (Z.mod_pos_bound (playerCount st + 1) 256). lia. }
  split; [rewrite Hid', Hreg', Hreg1; apply reg_get_set_same|].
  split; [exact Hwf'|].
  intros old Hold.
  assert (Hin : (mine, old) ∈ idToSocket st) by now apply reg_get_elem.
  assert (Hne : old <> socket).
  { intros ->. apply Hfresh. unfold registered, Object_values.
    apply (list_elem_of_fmap_2 snd) in Hin. exact Hin. }
  assert (Hunreg : ~ registered st' old).
  { unfold registered, Object_values. rewrite Hreg', Hreg1. intros H.
    apply list_elem_of_fmap in H as ([k r] & Heq & H). simpl in Heq. subst r.
    destruct (reg_set_elem mine socket _ k old Hsorted H) as [[_ ?]|[Hk Hin']]; [contradiction|].
    apply Hk. rewrite <- (Hids k old Hin'). now apply Hids. }
  split; [rewrite Hreg', Hreg1; now apply (reg_set_length mine socket old)|].
  split; [exact Hunreg|].
  split; [destruct (Hs' old) as [_ ->]; now rewrite Hoth1|].
  split; [intros cond; now apply occurrences_unregistered|].
  intros fuel S data serverSocket _offset _end.
  destruct (caseMessage_run S data _offset _end st') as (st2 & Hrun & _ & Hsent).
  exists st2. split; [exact Hrun|].
  rewrite Hsent, occurrences_unregistered by exact Hunreg. apply app_nil_r.
Qed.


End Accept_theorem.

(** ** Packet layouts *)

Section Layouts.
Context {rt : Runtime}.

(** The field-update packet, as sendPlayerData builds and sends it. *)
Lemma sendPlayerData_run (ty : Z) (_data : PlayerData) (from : Z) (to : nat) (st : State) :
  0 <= ty <= 255 -> 0 <= from <= 65535 -> fitsPlayerData _data ->
  sendPlayerData ty _data from (Some to) st
  = Ret tt (sendTo to (playerDataPacket ty _data from)
              (set_buf (playerDataPacket ty _data from) st)).
Proof.
  intros Hty Hfrom Hfit. unfold sendPlayerData.
  rewrite fill0_buf_k. unfold buf_writeUInt8 at 1.
  erewrite bufOp_k; [| exact (write_u8_cursor [] 511 ty Hty)].
  unfold buf_writeUInt16LE.
  erewrite bufOp_k; [| exact (write_u16_cursor [Zbyte ty] 509 from Hfrom)].
  destruct _data as [s|x y facing].
  - unfold buf_write.
    erewrite bufOp_k; [| exact (write_str_cursor (Zbyte ty :: le16 from) 509 s)].
    rewrite send_buf_run. reflexivity.
  - destruct Hfit as (Hx & Hy & Hf). rewrite bind_assoc. unfold buf_writeInt16LE.
    erewrite bufOp_k; [| exact (write_i16_cursor (Zbyte ty :: le16 from) 507 x Hx)].
    rewrite bind_assoc.
    erewrite bufOp_k; [| exact (write_i16_cursor (Zbyte ty :: le16 from ++ le16 x) 505 y Hy)].
    unfold buf_writeUInt8.
    erewrite bufOp_k;
      [| exact (write_u8_cursor (Zbyte ty :: le16 from ++ le16 x ++ le16 y) 504 facing Hf)].
    rewrite send_buf_run. reflexivity.
Qed.

Lemma uint16_le16 (v : Z) (a : byte) (rest : list byte) :
  0 <= v <= 65535 -> uint16At (a :: le16 v ++ rest) 1 = v.
Proof.
  intros Hv. unfold uint16At, byteAt, le16. simpl. rewrite !byteZ_Zbyte.
  rewrite (Z.mod_small (v / 256)).
  2:{ split; [apply Z.div_pos; lia | apply Z.div_lt_upper_bound; lia]. }
  rewrite Z.add_comm, <- Z.div_mod by lia. reflexivity.
Qed.

(** The fields at the head of the packets that name a session. *)
Lemma playerData_header (ty : Z) (_data : PlayerData) (from : Z) :
  0 <= ty <= 255 -> 0 <= from <= 65535 ->
  byteAt (playerDataPacket ty _data from) 0 = ty
  /\ uint16At (playerDataPacket ty _data from) 1 = from.
Proof.
  intros Hty Hfrom. split.
  - unfold playerDataPacket, pad, byteAt. simpl. rewrite byteZ_Zbyte. apply Z.mod_small. lia.
  - unfold playerDataPacket, pad. rewrite <- app_comm_cons, <- app_assoc.
    now apply uint16_le16.
Qed.

Lemma assign_header (id_ : Z) (uuid : jsstring) :
  0 <= id_ <= 65535 ->
  byteAt (assignPacket id_ uuid) 0 = serverNet.assign /\ uint16At (assignPacket id_ uuid) 1 = id_.
Proof.
  intros Hid. split; [reflexivity|].
  unfold assignPacket, pad. rewrite <- app_comm_cons, <- app_assoc. now apply uint16_le16.
Qed.

Lemma leave_header (id_ : Z) :
  0 <= id_ <= 65535 ->
  byteAt (leavePacket id_) 0 = serverNet.leave /\ uint16At (leavePacket id_) 1 = id_.
Proof.
  intros Hid. split; [reflexivity|].
  unfold leavePacket, pad. rewrite <- app_comm_cons. now apply uint16_le16.
Qed.

End Layouts.

(** ** Malformed payloads *)

Section Malformed.
Context {rt : Runtime}.

Lemma readBufString_payload (pre rest : Buffer) (p : Z * list byte) :
  readBufString (pre ++ encodeFrame p ++ rest) (3 + byteLength pre)
    (byteLength pre + frameLength p.2)
  = decodePayload p.2.
Proof.
  unfold readBufString, decodePayload, toStringUtf8. f_equal. f_equal.
  pose proof (byteLength_nonneg pre) as Hpre.
  pose proof (byteLength_nonneg rest) as Hrest.
  pose proof (slice_payload pre rest p) as Hs.
  rewrite !byteLength_app, byteLength_encodeFrame.
  rewrite Z.max_r by lia. rewrite (Z.add_comm 3 (byteLength pre)).
  unfold frameLength in *.
  destruct p.2 as [|b payload] eqn:E.
  - change (byteLength []) with 0.
    repeat match goal with
           | |- context [Z.ltb ?a ?b] => destruct (Z.ltb_spec a b)
           | |- context [Z.leb ?a ?b] => destruct (Z.leb_spec a b)
           end; try reflexivity; lia.
  - assert (0 < byteLength (b :: payload)) by (unfold byteLength; simpl; lia).
    repeat match goal with
           | |- context [Z.ltb ?a ?b] => destruct (Z.ltb_spec a b)
           | |- context [Z.leb ?a ?b] => destruct (Z.leb_spec a b)
           end; try lia.
    now rewrite Hs.
Qed.

(** The loop on a read whose first sub-packets are [pkts]: it dispatches them
    and continues behind them. *)
Lemma packetLoop_prefix (fuel socket : nat) (ss : SocketOrMinus1) (pkts : list (Z * list byte)) :
  Forall wellFormed pkts ->
  forall (pre rest data : Buffer) (steps : nat) (st : State),
    data = pre ++ encodeRead pkts ++ rest ->
    packetLoop (length pkts + steps) fuel socket data ss (byteLength pre) st
    = (dispatchAll fuel socket data ss (layout (byteLength pre) pkts) ;;
       packetLoop steps fuel socket data ss (byteLength pre + byteLength (encodeRead pkts))) st.
Proof.
  induction 1 as [|p r Hp Hr IH]; intros pre rest data steps st Hdata.
  - simpl. change (byteLength (encodeRead [])) with 0. rewrite Z.add_0_r. reflexivity.
  - assert (Hd : data = pre ++ encodeFrame p ++ (encodeRead r ++ rest)).
    { subst data. change (encodeRead (p :: r)) with (encodeFrame p ++ encodeRead r).
      now rewrite <- app_assoc. }
    destruct (read_frame_header pre (encodeRead r ++ rest) p Hp) as [Hlen Hty].
    rewrite <- Hd in Hlen, Hty.
    assert (Hlt : byteLength pre < byteLength data).
    { rewrite Hd, !byteLength_app, byteLength_encodeFrame. unfold frameLength.
      pose proof (byteLength_nonneg p.2). pose proof (byteLength_nonneg (encodeRead r)).
      pose proof (byteLength_nonneg rest). lia. }
    change (length (p :: r) + steps)%nat with (S (length r + steps)).
    rewrite (packetLoop_step _ fuel socket data ss _ _ _ st Hlt Hlen Hty).
    change (dispatchAll fuel socket data ss (layout (byteLength pre) (p :: r)))
      with (dispatch fuel socket data ss (byteLength pre) (byteLength pre + frameLength p.2) p.1 ;;
            dispatchAll fuel socket data ss (layout (byteLength pre + frameLength p.2) r)).
    rewrite bind_assoc. apply bind_ext. intros _ st'.
    replace (byteLength pre + frameLength p.2) with (byteLength (pre ++ encodeFrame p))
      by (rewrite byteLength_app, byteLength_encodeFrame; reflexivity).
    rewrite (IH (pre ++ encodeFrame p) rest data steps st').
    2:{ rewrite Hd, <- app_assoc. reflexivity. }
    change (encodeRead (p :: r)) with (encodeFrame p ++ encodeRead r).
    rewrite !byteLength_app, Z.add_assoc. reflexivity.
Qed.

(** C4, as the script has it. A sub-packet of a type whose payload is parsed
    (identity, upload, miscData) and whose payload is not JSON makes
    processPacket throw SyntaxError: the sub-packets before it have been
    processed, it has no effect itself, and the sub-packets after it in the
    read are not processed.  Nothing in processPacket catches the exception. *)
Theorem malformed_json_aborts (fuel socket : nat) (serverSocket : SocketOrMinus1)
    (before after : list (Z * list byte)) (ty : Z) (payload : list byte) (st st1 : State) :
  Forall wellFormed before ->
  wellFormed (ty, payload) ->
  (length before < fuel)%nat ->
  ty = clientNet.ID \/ ty = clientNet.upload \/ ty = clientNet.miscData ->
  JSON_parse (decodePayload payload) = None ->
  dispatchAll fuel socket (encodeRead (before ++ (ty, payload) :: after)) serverSocket
    (layout 0 before) st = Ret tt st1 ->
  processPacket fuel socket (encodeRead (before ++ (ty, payload) :: after)) serverSocket st
  = Throw SyntaxError st1.
Proof.
  intros Hbefore Hbad Hfuel Hty Hparse Hrun.
  set (data := encodeRead (before ++ (ty, payload) :: after)) in *.
  assert (Hdata : data = [] ++ encodeRead before ++ (encodeFrame (ty, payload) ++ encodeRead after)).
  { subst data. unfold encodeRead. rewrite map_app, concat_app. reflexivity. }
  unfold processPacket.
  replace fuel with (length before + S (fuel - length before - 1))%nat at 1 by lia.
  rewrite (packetLoop_prefix fuel socket serverSocket before Hbefore [] _ data _ st Hdata).
  change (byteLength []) with 0. rewrite Z.add_0_l.
  rewrite (bind_Ret _ _ _ _ _ Hrun).
  assert (Hd : data = encodeRead before ++ encodeFrame (ty, payload) ++ encodeRead after)
    by exact Hdata.
  destruct (read_frame_header (encodeRead before) (encodeRead after) (ty, payload) Hbad)
    as [Hlen Htyb].
  rewrite <- Hd in Hlen, Htyb.
  assert (Hlt : byteLength (encodeRead before) < byteLength data).
  { rewrite Hd, !byteLength_app, byteLength_encodeFrame. unfold frameLength. simpl.
    pose proof (byteLength_nonneg payload). pose proof (byteLength_nonneg (encodeRead after)). lia. }
  rewrite (packetLoop_step _ fuel socket data serverSocket _ _ _ st1 Hlt Hlen Htyb).
  apply bind_Throw. simpl fst. simpl snd.
  assert (Htext : readBufString data (3 + byteLength (encodeRead before))
                    (byteLength (encodeRead before) + frameLength payload)
                  = decodePayload payload).
  { rewrite Hd. apply (readBufString_payload _ _ (ty, payload)). }
  destruct Hty as [-> | [-> | ->]].
  - change (dispatch fuel socket data serverSocket (byteLength (encodeRead before))
              (byteLength (encodeRead before) + frameLength payload) clientNet.ID)
      with (caseID fuel socket data (byteLength (encodeRead before))
              (byteLength (encodeRead before) + frameLength payload)).
    unfold caseID. rewrite Htext, Hparse. reflexivity.
  - change (dispatch fuel socket data serverSocket (byteLength (encodeRead before))
              (byteLength (encodeRead before) + frameLength payload) clientNet.upload)
      with (caseUpload data (byteLength (encodeRead before))
              (byteLength (encodeRead before) + frameLength payload)).
    unfold caseUpload. rewrite Htext, Hparse. reflexivity.
  - change (dispatch fuel socket data serverSocket (byteLength (encodeRead before))
              (byteLength (encodeRead before) + frameLength payload) clientNet.miscData)
      with (caseMiscData data (byteLength (encodeRead before))
              (byteLength (encodeRead before) + frameLength payload)).
    unfold caseMiscData. rewrite Htext, Hparse. reflexivity.
Qed.

End Malformed.

(** ** De-duplicating an identity *)

Section Dedupe.
Context {rt : Runtime}.

Lemma inStore_length (store : gmap jsstring Value) (k : jsstring) :
  inStore store k = true -> (length k < keyBound store)%nat.
Proof.
  unfold inStore, keyBound. intros H. apply orb_true_iff in H.
  apply Nat.lt_succ_r. apply max_list_elem_of_le. apply elem_of_app.
  destruct H as [H|H]; apply bool_decide_eq_true in H.
  - right. destruct H as [v Hv]. apply elem_of_map_to_list in Hv.
    apply (list_elem_of_fmap_2 (fun p : jsstring * Value => length p.1)) in Hv. exact Hv.
  - left. now apply (list_elem_of_fmap_2 length).
Qed.

(** The number of markers the loop of line 183 appends to [k]. *)
Lemma marker_count (store : gmap jsstring Value) (fuel : nat) :
  forall k, (keyBound store <= length k + fuel)%nat ->
    exists n, (n <= fuel)%nat
              /\ (forall m, (m < n)%nat -> inStore store (marked k m) = true)
              /\ inStore store (marked k n) = false.
Proof.
  induction fuel as [|fuel IH]; intros k Hb.
  - exists 0%nat. split; [lia|]. split; [intros m Hm; lia|].
    unfold marked. simpl. rewrite app_nil_r.
    destruct (inStore store k) eqn:E; [|reflexivity].
    apply inStore_length in E. lia.
  - destruct (inStore store k) eqn:E.
    + destruct (IH (k ++ [102%N])) as (n & Hn & Hbusy & Hfree).
      { rewrite length_app. simpl. lia. }
      exists (S n). split; [lia|]. split.
      * intros [|m] Hm.
        -- unfold marked. simpl. now rewrite app_nil_r.
        -- specialize (Hbusy m ltac:(lia)). unfold marked in *. simpl.
           now rewrite <- app_assoc in Hbusy.
      * unfold marked in *. simpl. now rewrite <- app_assoc in Hfree.
    + exists 0%nat. split; [lia|]. split; [intros m Hm; lia|].
      unfold marked. simpl. now rewrite app_nil_r.
Qed.

Lemma assoc_get_set_same (k : jsstring) (v : Value) (ps : list (jsstring * Value)) :
  assoc_get k (assoc_set k v ps) = Some v.
Proof.
  induction ps as [|[k' v'] ps IH]; simpl.
  - now rewrite decide_True.
  - destruct (decide (k = k')); simpl.
    + now rewrite decide_True.
    + now rewrite decide_False.
Qed.

Lemma assoc_set_set (k : jsstring) (v1 v2 : Value) (ps : list (jsstring * Value)) :
  assoc_set k v2 (assoc_set k v1 ps) = assoc_set k v2 ps.
Proof.
  induction ps as [|[k' v'] ps IH]; simpl.
  - now rewrite decide_True.
  - destruct (decide (k = k')); simpl.
    + now rewrite decide_True.
    + rewrite decide_False by assumption. now rewrite IH.
Qed.

Lemma dedupe_unfold (fuel : nat) (_data : Value) :
  dedupe fuel _data
  = (u <- orThrow TypeError (getProp _data (js "uid")) ;;
     k <- toKey u ;;
     taken <- gets (fun s => inStore (socketToData s) k) ;;
     if taken then
       match fuel with
       | O => outOfFuel
       | S fuel' =>
           _data' <- orThrow TypeError (setProp _data (js "uid") (VStr (k ++ js "f"))) ;;
           dedupe fuel' _data'
       end
     else ret _data).
Proof. destruct fuel; reflexivity. Qed.

Lemma dedupe_object (n : nat) :
  forall (fuel : nat) (props : list (jsstring * Value)) (k : jsstring) (st : State),
    ToString (default VUndef (assoc_get (js "uid") props)) = Some k ->
    (forall m, (m < n)%nat -> inStore (socketToData st) (marked k m) = true) ->
    inStore (socketToData st) (marked k n) = false ->
    (n <= fuel)%nat ->
    dedupe fuel (VObj props) st = Ret (VObj (dedupedProps props k n)) st.
Proof.
  induction n as [|n IH]; intros fuel props k st Hk Hbusy Hfree Hfuel.
  - rewrite dedupe_unfold. unfold marked in Hfree. simpl in Hfree. rewrite app_nil_r in Hfree.
    unfold getProp, orThrow. unfold ret at 1. erewrite bind_Ret by reflexivity.
    unfold toKey. rewrite Hk. unfold ret at 1. erewrite bind_Ret by reflexivity.
    rewrite gets_k_any. cbv beta. rewrite Hfree. reflexivity.
  - destruct fuel as [|fuel]; [lia|].
    rewrite dedupe_unfold.
    unfold getProp, orThrow at 1. unfold ret at 1. erewrite bind_Ret by reflexivity.
    unfold toKey. rewrite Hk. unfold ret at 1. erewrite bind_Ret by reflexivity.
    rewrite gets_k_any. cbv beta.
    pose proof (Hbusy 0%nat ltac:(lia)) as H0. unfold marked in H0. simpl in H0.
    rewrite app_nil_r in H0. rewrite H0.
    unfold setProp, orThrow. unfold ret at 1. erewrite bind_Ret by reflexivity.
    rewrite (IH fuel _ (k ++ js "f") st).
    + f_equal. f_equal. unfold dedupedProps. destruct n as [|n].
      * reflexivity.
      * rewrite assoc_set_set. unfold marked. simpl. now rewrite <- app_assoc.
    + now rewrite assoc_get_set_same.
    + intros m Hm. specialize (Hbusy (S m) ltac:(lia)). unfold marked in *. simpl in *.
      now rewrite <- app_assoc.
    + unfold marked in *. simpl in *. now rewrite <- app_assoc.
    + lia.
Qed.

End Dedupe.

(** ** Identity packets *)

Section Identity.
Context {rt : Runtime}.

Lemma storeGet_own {B} (k : jsstring) (v : Value) (f : Value -> M B) (st : State) :
  socketToData st !! k = Some v -> (x <- storeGet k ;; f x) st = f v st.
Proof. intros H. unfold bind, storeGet. now rewrite H. Qed.

Lemma stringify_defined (v : Value) : v <> VUndef -> stringify v = Some (JSON_stringify v).
Proof. destruct v; intros H; try reflexivity. contradiction. Qed.

(** One reply of the second loop of the identity case. *)
Lemma run_peerObj (socket r : nat) (st : State) :
  hasRecord st r ->
  (bufLarge_fill0 ;;
   bufLarge_writeUInt8 serverNet.playerObj 0 ;;
   bufLarge_writeUInt8 (id (sockets st r)) 1 ;;
   u' <- gets (fun s => uid (sockets s r)) ;;
   key' <- toKey u' ;;
   record <- storeGet key' ;;
   text <- orThrow TypeError (stringify record) ;;
   bufLarge_write text 2 ;;
   writeToSocket_bufLarge (Some socket)) st
  = Ret tt (sendTo socket (peerObj st r) (set_bufLarge (peerObj st r) st)).
Proof.
  intros (Hid & k & v & Hk & Hv & Hdef).
  rewrite fill0_bufLarge_k. unfold bufLarge_writeUInt8 at 1.
  erewrite bufOp_k;
    [| exact (write_u8_cursor [] 4095 serverNet.playerObj ltac:(unfold serverNet.playerObj; lia))].
  unfold bufLarge_writeUInt8.
  erewrite bufOp_k;
    [| exact (write_u8_cursor [Zbyte serverNet.playerObj] 4094 (id (sockets st r)) Hid)].
  rewrite gets_k. cbv beta. cbn [sockets set_bufLarge].
  unfold toKey. rewrite Hk. unfold ret at 1. erewrite bind_Ret by reflexivity.
  erewrite storeGet_own by exact Hv.
  rewrite (stringify_defined v Hdef). unfold orThrow, ret at 1. erewrite bind_Ret by reflexivity.
  unfold bufLarge_write.
  erewrite bufOp_k;
    [| exact (write_str_cursor [Zbyte serverNet.playerObj; Zbyte (id (sockets st r))] 4094
                (JSON_stringify v))].
  rewrite send_bufLarge_run.
  unfold peerObj, recordOf. rewrite Hk. simpl default. rewrite Hv. reflexivity.
Qed.

Lemma hasRecord_inv (st st' : State) (r : nat) :
  sameButSent st st' -> hasRecord st r -> hasRecord st' r.
Proof.
  intros (_ & _ & Hstore & _ & _ & Hs) (Hid & k & v & Hk & Hv & Hdef).
  destruct (Hs r) as (_ & Hu & Hi & _).
  split; [now rewrite Hi|]. exists k, v. rewrite Hu, Hstore. auto.
Qed.

Lemma peerObj_inv (st st' : State) (r : nat) :
  sameButSent st st' -> peerObj st' r = peerObj st r.
Proof.
  intros (_ & _ & Hstore & _ & _ & Hs). destruct (Hs r) as (_ & Hu & Hi & _).
  unfold peerObj, recordOf. now rewrite Hu, Hi, Hstore.
Qed.

(** The second loop of the identity case: one playerObj packet to the sender
    for each other connection of the registry, in its order. *)
Lemma identity_replies (socket : nat) (socks : list nat) :
  forall st,
    (forall r, r ∈ socks -> differs socket st r = true -> hasRecord st r) ->
    exists st',
      forEach socks (fun _sock =>
        other <- gets (fun s => id (sockets s _sock)) ;;
        mine <- gets (fun s => id (sockets s socket)) ;;
        if other =? mine then ret tt
        else
          bufLarge_fill0 ;;
          bufLarge_writeUInt8 serverNet.playerObj 0 ;;
          bufLarge_writeUInt8 other 1 ;;
          u' <- gets (fun s => uid (sockets s _sock)) ;;
          key' <- toKey u' ;;
          record <- storeGet key' ;;
          text <- orThrow TypeError (stringify record) ;;
          bufLarge_write text 2 ;;
          writeToSocket_bufLarge (Some socket)) st = Ret tt st'
      /\ sameButSent st st'
      /\ forall x, sent (sockets st' x)
                   = sent (sockets st x)
                     ++ (if decide (socket = x)
                         then map (peerObj st) (targets (differs socket) st socks) else []).
Proof.
  induction socks as [|a l IH]; intros st Hgood.
  - exists st. split; [reflexivity|]. split; [apply sameButSent_refl|].
    intros x. simpl. destruct (decide (socket = x)); now rewrite app_nil_r.
  - simpl forEach. unfold targets. rewrite filter_cons. fold (targets (differs socket) st l).
    assert (Hstep : exists st1,
               (other <- gets (fun s => id (sockets s a)) ;;
                mine <- gets (fun s => id (sockets s socket)) ;;
                if other =? mine then ret tt
                else
                  bufLarge_fill0 ;;
                  bufLarge_writeUInt8 serverNet.playerObj 0 ;;
                  bufLarge_writeUInt8 other 1 ;;
                  u' <- gets (fun s => uid (sockets s a)) ;;
                  key' <- toKey u' ;;
                  record <- storeGet key' ;;
                  text <- orThrow TypeError (stringify record) ;;
                  bufLarge_write text 2 ;;
                  writeToSocket_bufLarge (Some socket)) st = Ret tt st1
               /\ sameButSent st st1
               /\ forall x, sent (sockets st1 x)
                            = sent (sockets st x)
                              ++ (if decide (socket = x)
                                  then (if decide (differs socket st a = true)
                                        then [peerObj st a] else [])
                                  else [])).
    { rewrite !gets_k. cbv beta. destruct (differs socket st a) eqn:Ed.
      - pose proof Ed as Ed0. unfold differs in Ed. apply negb_true_iff in Ed. rewrite Ed.
        rewrite run_peerObj by (apply Hgood; [left | exact Ed0]).
        eexists. split; [reflexivity|]. split.
        + eapply sameButSent_trans;
            [apply sameButBufs_sameButSent, sameButBufs_set_bufLarge | apply sameButSent_sendTo].
        + intros x. rewrite sent_sendTo.
          destruct (decide (socket = x)); reflexivity.
      - unfold differs in Ed. apply negb_false_iff in Ed. rewrite Ed.
        exists st. split; [reflexivity|]. split; [apply sameButSent_refl|].
        intros x. destruct (decide (socket = x)); now rewrite app_nil_r. }
    destruct Hstep as (st1 & Hrun1 & Hsame1 & Hsent1).
    rewrite (bind_Ret _ _ _ _ _ Hrun1).
    destruct (IH st1) as (st' & Hrun & Hsame & Hsent).
    { intros r Hr Hd. apply (hasRecord_inv st st1 r Hsame1).
      apply Hgood; [now right|]. now rewrite <- (differs_inv socket st st1 r Hsame1). }
    exists st'. split; [exact Hrun|]. split; [eapply sameButSent_trans; eassumption|].
    intros x. rewrite Hsent, Hsent1, <- app_assoc. f_equal.
    rewrite (targets_ext (differs socket) st st1 l)
      by (intros; now apply differs_inv).
    destruct (decide (socket = x)); [|reflexivity].
    rewrite (map_ext (peerObj st1) (peerObj st)) by (intros; now apply peerObj_inv).
    destruct (decide (differs socket st a = true)); reflexivity.
Qed.

End Identity.

Section Identity_case.
Context {rt : Runtime}.

(** The announcement of the sender, as the identity case builds it. *)
Lemma run_playerObj (socket : nat) (text : jsstring) (k : M unit) (st : State) :
  0 <= id (sockets st socket) <= 255 ->
  (bufLarge_fill0 ;;
   bufLarge_writeUInt8 serverNet.playerObj 0 ;;
   mine <- gets (fun s => id (sockets s socket)) ;;
   bufLarge_writeUInt8 mine 1 ;;
   bufLarge_write text 2 ;;
   k) st
  = k (set_bufLarge (playerObjPacket (id (sockets st socket)) text) st).
Proof.
  intros Hid. rewrite fill0_bufLarge_k. unfold bufLarge_writeUInt8 at 1.
  erewrite bufOp_k;
    [| exact (write_u8_cursor [] 4095 serverNet.playerObj ltac:(unfold serverNet.playerObj; lia))].
  rewrite gets_k. cbv beta. cbn [sockets set_bufLarge]. unfold bufLarge_writeUInt8.
  erewrite bufOp_k;
    [| exact (write_u8_cursor [Zbyte serverNet.playerObj] 4094 (id (sockets st socket)) Hid)].
  unfold bufLarge_write.
  erewrite bufOp_k;
    [| exact (write_str_cursor [Zbyte serverNet.playerObj; Zbyte (id (sockets st socket))] 4094
                text)].
  reflexivity.
Qed.

Lemma dedupedProps_uid (props : list (jsstring * Value)) (k : jsstring) (n : nat) :
  ToString (default VUndef (assoc_get (js "uid") props)) = Some k ->
  ToString (default VUndef (assoc_get (js "uid") (dedupedProps props k n))) = Some (marked k n).
Proof.
  intros Hk. destruct n as [|n]; simpl.
  - unfold marked. simpl. now rewrite app_nil_r.
  - now rewrite assoc_get_set_same.
Qed.

Lemma inStore_own (store : gmap jsstring Value) (k : jsstring) (v : Value) :
  store !! k = Some v -> inStore store k = true.
Proof.
  intros H. unfold inStore. rewrite bool_decide_true; [reflexivity|]. now exists v.
Qed.

(** The first loop of the identity case: the announcement goes to the other
    connections of the registry. *)
Lemma identity_announce (socket : nat) (pkt : Buffer) (st : State) :
  bufLarge st = pkt ->
  exists st',
    forEach (Object_values (idToSocket st)) (fun _sock =>
      other <- gets (fun s => id (sockets s _sock)) ;;
      mine <- gets (fun s => id (sockets s socket)) ;;
      if other =? mine then ret tt else writeToSocket_bufLarge (Some _sock)) st = Ret tt st'
    /\ sameButSent st st'
    /\ forall r, sent (sockets st' r)
                 = sent (sockets st r)
                   ++ replicate (occurrences r (targets (differs socket) st
                                                  (Object_values (idToSocket st)))) pkt.
Proof.
  intros Hbuf.
  destruct (forEach_broadcast (fun s => bufLarge s = pkt) (differs socket) pkt (fun s => s)
              (fun _sock =>
                 other <- gets (fun s => id (sockets s _sock)) ;;
                 mine <- gets (fun s => id (sockets s socket)) ;;
                 if other =? mine then ret tt else writeToSocket_bufLarge (Some _sock))
              (fun s s' r H => differs_inv socket s s' r H)
              (fun s => ltac:(unfold sameButBufs; auto 10))
              (fun s r H => H)
              (Object_values (idToSocket st)) st Hbuf) as (st' & Hrun & Hsame & _ & Hsent).
  - intros s r _ Hb. rewrite !gets_k. cbv beta. unfold differs.
    destruct (id (sockets s r) =? id (sockets s socket)); simpl; [reflexivity|].
    rewrite send_bufLarge_run, Hb. reflexivity.
  - exists st'. auto.
Qed.

End Identity_case.

Section Identity_theorem.
Context {rt : Runtime}.

Lemma targets_same_ids (socket : nat) (st st' : State) (socks : list nat) :
  (forall r, id (sockets st' r) = id (sockets st r)) ->
  targets (differs socket) st' socks = targets (differs socket) st socks.
Proof.
  intros H. apply targets_ext. intros r. unfold differs. now rewrite !H.
Qed.

Lemma targets_ext_one (socket : nat) (st st' : State) (r : nat) :
  (forall x, id (sockets st' x) = id (sockets st x)) ->
  differs socket st' r = differs socket st r.
Proof. intros H. unfold differs. now rewrite !H. Qed.

Lemma caseID_run (fuel S : nat) (data : Buffer) (_offset _end : Z) (st : State)
    (props : list (jsstring * Value)) (k0 : jsstring) :
  JSON_parse (readBufString data (3 + _offset) _end) = Some (VObj props) ->
  ToString (default VUndef (assoc_get (js "uid") props)) = Some k0 ->
  (keyBound (socketToData st) <= fuel)%nat ->
  0 <= id (sockets st S) <= 255 ->
  (forall r, registered st r -> differs S st r = true -> hasRecord st r) ->
  exists st' n,
    caseID fuel S data _offset _end st = Ret tt st'
    /\ (forall m, (m < n)%nat -> inStore (socketToData st) (marked k0 m) = true)
    /\ inStore (socketToData st) (marked k0 n) = false
    /\ socketToData st'
       = <[marked k0 n := VObj (dedupedProps props k0 n)]> (socketToData st)
    /\ ToString (uid (sockets st' S)) = Some (marked k0 n)
    /\ idToSocket st' = idToSocket st
    /\ forall r,
        sent (sockets st' r)
        = sent (sockets st r)
          ++ replicate (occurrences r (targets (differs S) st (Object_values (idToSocket st))))
               (playerObjPacket (id (sockets st S)) (readBufString data (3 + _offset) _end))
          ++ (if decide (S = r)
              then map (peerObj st) (targets (differs S) st (Object_values (idToSocket st)))
              else []).
Proof.
  intros Hparse Hk Hfuel Hid Hpeers.
  destruct (marker_count (socketToData st) fuel k0 ltac:(lia)) as (n & Hn & Hbusy & Hfree).
  set (text := readBufString data (3 + _offset) _end) in *.
  set (pkt := playerObjPacket (id (sockets st S)) text).
  unfold caseID. fold text. rewrite Hparse.
  unfold orThrow at 1. unfold ret at 1. erewrite bind_Ret by reflexivity.
  erewrite bind_Ret; [| exact (dedupe_object n fuel props k0 st Hk Hbusy Hfree Hn)].
  unfold getProp, orThrow at 1. unfold ret at 1. erewrite bind_Ret by reflexivity.
  rewrite setSock_k.
  unfold toKey. rewrite (dedupedProps_uid props k0 n Hk).
  unfold ret at 1. erewrite bind_Ret by reflexivity.
  rewrite modify_k.
  match goal with |- context [bind bufLarge_fill0 ?k ?s] => set (st_m := s) end.
  assert (Hid_m : forall r, id (sockets st_m r) = id (sockets st r)).
  { intros r. subst st_m. simpl. unfold upd. destruct (Nat.eqb_spec r S); subst; reflexivity. }
  assert (Huid_m : forall r, r <> S -> uid (sockets st_m r) = uid (sockets st r)).
  { intros r Hr. subst st_m. simpl. now rewrite upd_other. }
  assert (Huid_S : ToString (uid (sockets st_m S)) = Some (marked k0 n)).
  { subst st_m. simpl. rewrite upd_same. simpl. apply (dedupedProps_uid props k0 n Hk). }
  assert (Hsent_m : forall r, sent (sockets st_m r) = sent (sockets st r)).
  { intros r. subst st_m. simpl. unfold upd. destruct (Nat.eqb_spec r S); subst; reflexivity. }
  assert (Hstore_m : socketToData st_m
                     = <[marked k0 n := VObj (dedupedProps props k0 n)]> (socketToData st))
    by reflexivity.
  assert (Hreg_m : idToSocket st_m = idToSocket st) by reflexivity.
  clearbody st_m.
  rewrite run_playerObj by (rewrite Hid_m; exact Hid).
  rewrite Hid_m. fold pkt.
  rewrite gets_k. cbv beta.
  destruct (identity_announce S pkt (set_bufLarge pkt st_m) eq_refl)
    as (st_b & Hrun_b & Hsame_b & Hsent_b).
  erewrite bind_Ret; [| exact Hrun_b].
  rewrite gets_k. cbv beta.
  assert (Hreg_b : idToSocket st_b = idToSocket st)
    by (destruct Hsame_b as (_ & -> & _); exact Hreg_m).
  assert (Hid_b : forall r, id (sockets st_b r) = id (sockets st r)).
  { intros r. destruct Hsame_b as (_ & _ & _ & _ & _ & H). destruct (H r) as (_ & _ & -> & _).
    apply Hid_m. }
  assert (Hkey : socketToData st !! marked k0 n = None).
  { destruct (socketToData st !! marked k0 n) as [v|] eqn:E; [|reflexivity].
    apply inStore_own in E. congruence. }
  assert (Hrec_b : forall r, differs S st r = true -> hasRecord st r ->
                     hasRecord st_b r /\ peerObj st_b r = peerObj st r).
  { intros r Hd (Hidr & k & v & Hkr & Hv & Hdef).
    assert (Hne : r <> S).
    { intros ->. unfold differs in Hd. rewrite Z.eqb_refl in Hd. discriminate. }
    assert (Hkne : marked k0 n <> k) by (intros <-; congruence).
    assert (Hu : uid (sockets st_b r) = uid (sockets st r)).
    { destruct Hsame_b as (_ & _ & _ & _ & _ & H). destruct (H r) as (_ & -> & _).
      now apply Huid_m. }
    assert (Hs : socketToData st_b !! k = Some v).
    { destruct Hsame_b as (_ & _ & -> & _). simpl. rewrite Hstore_m.
      now rewrite lookup_insert_ne. }
    split.
    - split; [now rewrite Hid_b|]. exists k, v. rewrite Hu. auto.
    - unfold peerObj, recordOf. rewrite Hu, Hid_b, Hkr. simpl default. now rewrite Hs, Hv. }
  destruct (identity_replies S (Object_values (idToSocket st_b)) st_b)
    as (st' & Hrun' & Hsame' & Hsent').
  { intros r Hr Hd. rewrite (targets_ext_one S st st_b r Hid_b) in Hd.
    apply Hrec_b; [exact Hd|]. apply Hpeers; [|exact Hd].
    unfold registered. now rewrite <- Hreg_b. }
  exists st', n. split; [exact Hrun'|]. split; [exact Hbusy|]. split; [exact Hfree|].
  split.
  { destruct Hsame' as (_ & _ & -> & _). destruct Hsame_b as (_ & _ & -> & _). exact Hstore_m. }
  split.
  { destruct Hsame' as (_ & _ & _ & _ & _ & H). destruct (H S) as (_ & -> & _).
    destruct Hsame_b as (_ & _ & _ & _ & _ & H'). destruct (H' S) as (_ & -> & _).
    exact Huid_S. }
  split.
  { destruct Hsame' as (_ & -> & _). exact Hreg_b. }
  intros r. rewrite Hsent', Hsent_b. simpl sockets. rewrite Hsent_m, <- app_assoc.
  f_equal. f_equal.
  - f_equal. f_equal. simpl idToSocket. rewrite Hreg_m.
    apply targets_same_ids. intros x. apply Hid_m.
  - destruct (decide (S = r)); [|reflexivity].
    rewrite Hreg_b. rewrite (targets_same_ids S st st_b _ Hid_b).
    apply map_ext_in. intros x Hx. apply list_elem_of_In in Hx.
    unfold targets in Hx. apply list_elem_of_filter in Hx as [Hd Hx].
    apply Hrec_b; [exact Hd|]. now apply Hpeers.
Qed.











End Identity_theorem.

(** ** Field updates and the parent *)

Section Forwarding.
Context {rt : Runtime}.

Lemma readUInt8_range (b : Buffer) (off v : Z) : readUInt8 b off = Some v -> 0 <= v <= 255.
Proof.
  unfold readUInt8. destruct (inRange b off 1); [|discriminate].
  intros [= <-]. apply byteZ_range.
Qed.

Lemma readInt16LE_range (b : Buffer) (off v : Z) :
  readInt16LE b off = Some v -> -32768 <= v <= 32767.
Proof.
  unfold readInt16LE. destruct (inRange b off 2); [|discriminate].
  intros [= <-]. unfold toInt16, byteAt.
  pose proof (byteZ_range (default x00 (b !! Z.to_nat off))).
  pose proof (byteZ_range (default x00 (b !! Z.to_nat (off + 1)))).
  destruct (Z.ltb_spec (byteZ (default x00 (b !! Z.to_nat off))
                        + 256 * byteZ (default x00 (b !! Z.to_nat (off + 1)))) 32768); lia.
Qed.

(** The two sends of forwardPlayerData: the loop over the registry, then the
    parent. *)
Lemma forward_sends (ty : Z) (_data : PlayerData) (socket : nat)
    (serverSocket : SocketOrMinus1) (st : State) :
  0 <= ty <= 255 -> fitsPlayerData _data -> 0 <= id (sockets st socket) <= 65535 ->
  exists st',
    (socks <- gets (fun s => Object_values (idToSocket s)) ;;
     forEach socks (fun _sock =>
       other <- gets (fun s => id (sockets s _sock)) ;;
       mine <- gets (fun s => id (sockets s socket)) ;;
       if other =? mine then ret tt
       else sendPlayerData ty _data mine (Some _sock)) ;;
     unified <- gets unifiedCluster ;;
     if unified && bool_decide (serverSocket ≠ None)
     then mine <- gets (fun s => id (sockets s socket)) ;;
          sendPlayerData ty _data mine serverSocket
     else ret tt) st = Ret tt st'
    /\ sameButSent st st'
    /\ forall r,
         sent (sockets st' r)
         = sent (sockets st r)
           ++ replicate (occurrences r (targets (differs socket) st
                                          (Object_values (idToSocket st))))
                (playerDataPacket ty _data (id (sockets st socket)))
           ++ (if unifiedCluster st && bool_decide (serverSocket = Some r)
               then [playerDataPacket ty _data (id (sockets st socket))] else []).
Proof.
  intros Hty Hfit Hid.
  set (pkt := playerDataPacket ty _data (id (sockets st socket))).
  rewrite gets_k.
  destruct (forEach_broadcast (fun _ => True) (differs socket) pkt (set_buf pkt)
              (fun _sock =>
                 other <- gets (fun s => id (sockets s _sock)) ;;
                 mine <- gets (fun s => id (sockets s socket)) ;;
                 if other =? mine then ret tt
                 else sendPlayerData ty _data mine (Some _sock))
              (fun s s' r H => differs_inv socket s s' r H)
              (fun s => sameButBufs_set_buf _ s)
              (fun _ _ _ => I)
              (Object_values (idToSocket st)) st I) as (st1 & Hrun & Hsame & _ & Hsent).
  { intros s r Hs _. rewrite !gets_k. unfold differs.
    assert (Hm : id (sockets s socket) = id (sockets st socket))
      by (destruct Hs as (_ & _ & _ & _ & _ & Hs); now destruct (Hs socket) as (_ & _ & -> & _)).
    destruct (id (sockets s r) =? id (sockets s socket)); simpl; [reflexivity|].
    rewrite Hm. now apply sendPlayerData_run. }
  erewrite bind_Ret by exact Hrun.
  rewrite gets_k.
  assert (Hu : unifiedCluster st1 = unifiedCluster st) by (now destruct Hsame as (_ & _ & _ & -> & _)).
  assert (Hm : id (sockets st1 socket) = id (sockets st socket))
    by (destruct Hsame as (_ & _ & _ & _ & _ & Hs); now destruct (Hs socket) as (_ & _ & -> & _)).
  rewrite Hu.
  destruct serverSocket as [p|].
  - destruct (unifiedCluster st).
    + rewrite bool_decide_true by discriminate. cbn [andb]. rewrite gets_k, Hm.
      rewrite sendPlayerData_run by assumption. fold pkt.
      eexists. split; [reflexivity|].
      split.
      { eapply sameButSent_trans; [exact Hsame|].
        eapply sameButSent_trans; [apply sameButBufs_sameButSent, sameButBufs_set_buf|].
        apply sameButSent_sendTo. }
      intros r. rewrite sent_sendTo. cbn [sockets set_buf]. rewrite Hsent, <- app_assoc.
      do 2 f_equal. destruct (decide (p = r)) as [->|Hne].
      * now rewrite bool_decide_true.
      * rewrite bool_decide_false by congruence. reflexivity.
    + cbn [andb]. exists st1. split; [reflexivity|]. split; [exact Hsame|].
      intros r. rewrite Hsent. now rewrite app_nil_r.
  - rewrite andb_false_r. exists st1. split; [reflexivity|]. split; [exact Hsame|].
    intros r. rewrite Hsent. rewrite andb_false_r. now rewrite app_nil_r.
Qed.

Lemma storeField_run (socket : nat) (k key : jsstring) (v : Value)
    (props : list (jsstring * Value)) (st : State) :
  ToString (uid (sockets st socket)) = Some key ->
  socketToData st !! key = Some (VObj props) ->
  storeField socket k v st
  = Ret tt (set_socketToData (<[key := VObj (assoc_set k v props)]> (socketToData st)) st).
Proof.
  intros Hkey Hrec. unfold storeField. rewrite gets_k_any. unfold toKey. rewrite Hkey.
  erewrite bind_Ret by reflexivity. rewrite (storeGet_own key (VObj props)) by exact Hrec.
  reflexivity.
Qed.

(** A field update (position, room, name, outfit) from a connection with a
    stored record: the field of the record is replaced, every other registered
    session is sent the update, and the parent is sent it once when
    [unifiedCluster] is set and not at all when it is not.  (Of the two
    packets of C5 this is the one the script does forward.) *)
Theorem field_update_forwarded (data : Buffer) (socket : nat) (dataOffset end_ : Z)
    (serverSocket : SocketOrMinus1) (st : State) (ty : Z) (k key : jsstring) (v : Value)
    (d : PlayerData) (props : list (jsstring * Value)) :
  readUInt8 data dataOffset = Some ty ->
  fieldUpdate data dataOffset end_ ty = Some (k, v, d) ->
  ToString (uid (sockets st socket)) = Some key ->
  socketToData st !! key = Some (VObj props) ->
  0 <= id (sockets st socket) <= 65535 ->
  exists st',
    forwardPlayerData data socket dataOffset serverSocket end_ st = Ret tt st'
    /\ socketToData st' = <[key := VObj (assoc_set k v props)]> (socketToData st)
    /\ (forall r,
          sent (sockets st' r)
          = sent (sockets st r)
            ++ replicate (occurrences r (targets (differs socket) st
                                           (Object_values (idToSocket st))))
                 (playerDataPacket ty d (id (sockets st socket)))
            ++ (if unifiedCluster st && bool_decide (serverSocket = Some r)
                then [playerDataPacket ty d (id (sockets st socket))] else []))
    /\ (forall p, serverSocket = Some p -> ~ registered st p ->
          sent (sockets st' p)
          = sent (sockets st p)
            ++ (if unifiedCluster st
                then [playerDataPacket ty d (id (sockets st socket))] else [])).
Proof.
  intros Hread Hfield Hkey Hrec Hid.
  pose proof (readUInt8_range _ _ _ Hread) as Hty.
  set (st0 := set_socketToData (<[key := VObj (assoc_set k v props)]> (socketToData st)) st).
  assert (Hfit : fitsPlayerData d
                 /\ forall K : PlayerData -> M unit,
                      (_data <-
                         (if ty =? clientNet.message then
                            ret (DString (readBufString data (1 + dataOffset) end_))
                          else if ty =? clientNet.pos then
                            x <- orThrow RangeError (readInt16LE data (1 + dataOffset)) ;;
                            y <- orThrow RangeError (readInt16LE data (3 + dataOffset)) ;;
                            facing <- orThrow RangeError (readUInt8 data (5 + dataOffset)) ;;
                            storeField socket (js "pos") (VArr [numZ x; numZ y; numZ facing] []) ;;
                            ret (DPos x y facing)
                          else
                            let s := readBufString data (1 + dataOffset) end_ in
                            (if ty =? clientNet.myRoom then storeField socket (js "myRoom") (VStr s)
                             else if ty =? clientNet.name then storeField socket (js "name") (VStr s)
                             else if ty =? clientNet.outfit
                                  then storeField socket (js "outfit") (VStr s)
                             else ret tt) ;;
                            ret (DString s)) ;;
                       K _data) st = K d st0).
  { unfold fieldUpdate in Hfield.
    destruct (ty =? clientNet.pos) eqn:Epos.
    - apply Z.eqb_eq in Epos. subst ty.
      change (clientNet.pos =? clientNet.message) with false. cbv iota.
      destruct (readInt16LE data (1 + dataOffset)) as [x|] eqn:Ex; [|discriminate].
      destruct (readInt16LE data (3 + dataOffset)) as [y|] eqn:Ey; [|discriminate].
      destruct (readUInt8 data (5 + dataOffset)) as [facing|] eqn:Ef; [|discriminate].
      injection Hfield as <- <- <-.
      split.
      { simpl. pose proof (readInt16LE_range _ _ _ Ex). pose proof (readInt16LE_range _ _ _ Ey).
        pose proof (readUInt8_range _ _ _ Ef). lia. }
      intros K. unfold orThrow, ret.
      rewrite bind_assoc. erewrite bind_Ret by reflexivity.
      rewrite bind_assoc. erewrite bind_Ret by reflexivity.
      rewrite bind_assoc. erewrite bind_Ret by reflexivity.
      rewrite bind_assoc.
      erewrite bind_Ret by (apply (storeField_run socket _ key _ props); eassumption).
      reflexivity.
    - cbv zeta in Hfield.
      assert (Hcase : (ty = clientNet.myRoom /\ k = js "myRoom"
                       \/ ty = clientNet.name /\ k = js "name"
                       \/ ty = clientNet.outfit /\ k = js "outfit")
                      /\ v = VStr (readBufString data (1 + dataOffset) end_)
                      /\ d = DString (readBufString data (1 + dataOffset) end_)).
      { destruct (ty =? clientNet.myRoom) eqn:E1;
          [apply Z.eqb_eq in E1; injection Hfield as <- <- <-; auto|].
        destruct (ty =? clientNet.name) eqn:E2;
          [apply Z.eqb_eq in E2; injection Hfield as <- <- <-; auto|].
        destruct (ty =? clientNet.outfit) eqn:E3;
          [apply Z.eqb_eq in E3; injection Hfield as <- <- <-; auto 6|].
        discriminate. }
      destruct Hcase as (Hcase & -> & ->).
      split; [exact I|].
      intros K. cbv zeta.
      destruct Hcase as [[-> ->] | [[-> ->] | [-> ->]]].
      + change (clientNet.myRoom =? clientNet.message) with false.
        change (clientNet.myRoom =? clientNet.myRoom) with true. cbv iota.
        rewrite bind_assoc.
        erewrite bind_Ret by (apply (storeField_run socket _ key _ props); eassumption).
        reflexivity.
      + change (clientNet.name =? clientNet.message) with false.
        change (clientNet.name =? clientNet.myRoom) with false.
        change (clientNet.name =? clientNet.name) with true. cbv iota.
        rewrite bind_assoc.
        erewrite bind_Ret by (apply (storeField_run socket _ key _ props); eassumption).
        reflexivity.
      + change (clientNet.outfit =? clientNet.message) with false.
        change (clientNet.outfit =? clientNet.myRoom) with false.
        change (clientNet.outfit =? clientNet.name) with false.
        change (clientNet.outfit =? clientNet.outfit) with true. cbv iota.
        rewrite bind_assoc.
        erewrite bind_Ret by (apply (storeField_run socket _ key _ props); eassumption).
        reflexivity. }
  destruct Hfit as [Hfit Hhead].
  destruct (forward_sends ty d socket serverSocket st0 Hty Hfit Hid)
    as (st' & Hrun & Hsame & Hsent).
  exists st'. split.
  { unfold forwardPlayerData. rewrite Hread. unfold orThrow at 1.
    erewrite bind_Ret by reflexivity. rewrite Hhead. exact Hrun. }
  split; [now destruct Hsame as (_ & _ & -> & _)|].
  split; [exact Hsent|].
  intros p -> Hp. rewrite (Hsent p).
  change (targets (differs socket) st0 (Object_values (idToSocket st0)))
    with (targets (differs socket) st (Object_values (idToSocket st))).
  rewrite occurrences_unregistered by exact Hp.
  rewrite bool_decide_true by reflexivity. rewrite andb_true_r. reflexivity.
Qed.

End Forwarding.

(** ** What every listener keeps *)

Section Keeps.
Context {rt : Runtime}.
Variable P : State -> Prop.

Lemma keeps_ret {A} (a : A) : keeps P (ret a).
Proof. intros s H. exact H. Qed.

Lemma keeps_throw {A} (e : Error) : keeps P (@throw A e).
Proof. intros s H. exact H. Qed.

Lemma keeps_gets {A} (f : State -> A) : keeps P (gets f).
Proof. intros s H. exact H. Qed.

Lemma keeps_orThrow {A} (e : Error) (o : option A) : keeps P (orThrow e o).
Proof. intros s H. destruct o; exact H. Qed.

Lemma keeps_toKey (v : Value) : keeps P (toKey v).
Proof. intros s H. unfold toKey. destruct (ToString v); [exact H | exact I]. Qed.

Lemma keeps_storeGet (k : jsstring) : keeps P (storeGet k).
Proof.
  intros s H. unfold storeGet. destruct (socketToData s !! k); [exact H|].
  destruct (bool_decide (k ∈ protoKeys)); [exact I | exact H].
Qed.

Lemma keeps_bind {A B} (m : M A) (f : A -> M B) :
  keeps P m -> (forall a, keeps P (f a)) -> keeps P (x <- m ;; f x).
Proof.
  intros Hm Hf s H. unfold bind. specialize (Hm s H).
  destruct (m s) as [a s'| |  |]; try exact I; [|exact Hm].
  exact (Hf a s' Hm).
Qed.

Lemma keeps_forEach {A} (l : list A) (f : A -> M unit) :
  (forall a, keeps P (f a)) -> keeps P (forEach l f).
Proof.
  intros Hf. induction l as [|x l IH]; [apply keeps_ret|].
  simpl. apply keeps_bind; [apply Hf | intros _; exact IH].
Qed.

Lemma keeps_modify (f : State -> State) :
  (forall s, P s -> P (f s)) -> keeps P (modify f).
Proof. intros Hf s H. exact (Hf s H). Qed.

Lemma keeps_bufOp (get : State -> Buffer) (set : Buffer -> State -> State)
    (op : Buffer -> option Buffer) :
  (forall s b, P s -> op (get s) = Some b -> P (set b s)) -> keeps P (bufOp get set op).
Proof.
  intros Hop s H. unfold bufOp. destruct (op (get s)) eqn:E; [exact (Hop s _ H E) | exact H].
Qed.

End Keeps.

Section Invariant.
Context {rt : Runtime}.
Variable u : bool.

Lemma writeUInt8_length (b b' : Buffer) (v off : Z) :
  writeUInt8 b v off = Some b' -> length b' = length b.
Proof.
  unfold writeUInt8, poke. destruct (_ && _); [|discriminate].
  intros [= <-]. apply length_insert.
Qed.

Lemma writeUInt16LE_length (b b' : Buffer) (v off : Z) :
  writeUInt16LE b v off = Some b' -> length b' = length b.
Proof.
  unfold writeUInt16LE, poke. destruct (_ && _); [|discriminate].
  intros [= <-]. now rewrite !length_insert.
Qed.

Lemma writeInt16LE_length (b b' : Buffer) (v off : Z) :
  writeInt16LE b v off = Some b' -> length b' = length b.
Proof.
  unfold writeInt16LE, poke. destruct (_ && _); [|discriminate].
  intros [= <-]. now rewrite !length_insert.
Qed.

Lemma Buffer_write_length (b b' : Buffer) (s : jsstring) (off : Z) :
  Buffer_write b s off = Some b' -> length b' = length b.
Proof.
  unfold Buffer_write, blit, byteLength.
  destruct (Z.leb_spec 0 off); [|discriminate].
  destruct (Z.leb_spec off (Z.of_nat (length b))); [|discriminate].
  simpl. intros [= <-].
  pose proof (fit_length (utf8Chars s) (length b - Z.to_nat off)).
  rewrite !length_app, length_take, length_drop. lia.
Qed.


Lemma nodeInvSince_sockets (s : State) (r : nat) (x : Socket) :
  nodeInvSince u s -> id x = id (sockets s r) -> Forall wholeBuffer (sent x) ->
  nodeInvSince u (set_sockets (upd r x (sockets s)) s).
Proof.
  intros [([Hsorted Hids] & Hkeys & Hpc & Hb & Hbl & Hsent) Hu] Hid Hx.
  split; [|exact Hu].
  split; [split; [exact Hsorted|]|].
  - intros k r0 Hin. cbn. unfold upd. destruct (Nat.eqb_spec r0 r) as [->|_].
    + rewrite Hid. now apply Hids.
    + now apply Hids.
  - repeat split; try assumption; try apply Hpc.
    intros r0. cbn. unfold upd. destruct (Nat.eqb_spec r0 r); [exact Hx | apply Hsent].
Qed.

Lemma nodeInvSince_socketToData (s : State) (m : gmap jsstring Value) :
  nodeInvSince u s -> nodeInvSince u (set_socketToData m s).
Proof. intros H. exact H. Qed.

Lemma nodeInvSince_buf (s : State) (b : Buffer) :
  nodeInvSince u s -> length b = 512%nat -> nodeInvSince u (set_buf b s).
Proof.
  intros [(Hwf & Hkeys & Hpc & Hb & Hbl & Hsent) Hu] Hlen.
  split; [|exact Hu]. repeat split; try assumption; try apply Hwf; apply Hpc.
Qed.

Lemma nodeInvSince_bufLarge (s : State) (b : Buffer) :
  nodeInvSince u s -> length b = 4096%nat -> nodeInvSince u (set_bufLarge b s).
Proof.
  intros [(Hwf & Hkeys & Hpc & Hb & Hbl & Hsent) Hu] Hlen.
  split; [|exact Hu]. repeat split; try assumption; try apply Hwf; apply Hpc.
Qed.

Lemma keeps_setSock (r : nat) (f : Socket -> Socket) :
  (forall x, id (f x) = id x) ->
  (forall x, Forall wholeBuffer (sent x) -> Forall wholeBuffer (sent (f x))) ->
  keeps (nodeInvSince u) (setSock r f).
Proof.
  intros Hid Hsent. apply keeps_modify. intros s H. apply nodeInvSince_sockets; [exact H|apply Hid|].
  apply Hsent. destruct H as [(_ & _ & _ & _ & _ & H) _]. apply H.
Qed.

Lemma keeps_writeToSocket (socket : SocketOrMinus1) (b : Buffer) :
  wholeBuffer b -> keeps (nodeInvSince u) (writeToSocket socket b).
Proof.
  intros Hb. destruct socket as [r|]; [|apply keeps_ret].
  unfold writeToSocket. apply keeps_bind; [apply keeps_gets|]. intros w.
  destruct w; simpl; apply keeps_setSock; try reflexivity;
    intros x Hx; simpl; apply Forall_app; split; auto.
Qed.

Lemma keeps_writeToSocket_buf (socket : SocketOrMinus1) :
  keeps (nodeInvSince u) (writeToSocket_buf socket).
Proof.
  intros s H. unfold writeToSocket_buf. rewrite gets_k_any.
  apply keeps_writeToSocket; [|exact H].
  left. destruct H as [(_ & _ & _ & H & _) _]. exact H.
Qed.

Lemma keeps_writeToSocket_bufLarge (socket : SocketOrMinus1) :
  keeps (nodeInvSince u) (writeToSocket_bufLarge socket).
Proof.
  intros s H. unfold writeToSocket_bufLarge. rewrite gets_k_any.
  apply keeps_writeToSocket; [|exact H].
  right. destruct H as [(_ & _ & _ & _ & H & _) _]. exact H.
Qed.

Lemma keeps_buf_fill0 : keeps (nodeInvSince u) buf_fill0.
Proof. apply keeps_modify. intros s H. apply nodeInvSince_buf; [exact H | apply length_replicate]. Qed.

Lemma keeps_bufLarge_fill0 : keeps (nodeInvSince u) bufLarge_fill0.
Proof. apply keeps_modify. intros s H. apply nodeInvSince_bufLarge; [exact H | apply length_replicate]. Qed.

Lemma keeps_buf_op (op : Buffer -> option Buffer) :
  (forall b b', op b = Some b' -> length b' = length b) ->
  keeps (nodeInvSince u) (bufOp buf set_buf op).
Proof.
  intros Hop. apply keeps_bufOp. intros s b H E. apply nodeInvSince_buf; [exact H|].
  rewrite (Hop _ _ E). destruct H as [(_ & _ & _ & H & _) _]. exact H.
Qed.

Lemma keeps_bufLarge_op (op : Buffer -> option Buffer) :
  (forall b b', op b = Some b' -> length b' = length b) ->
  keeps (nodeInvSince u) (bufOp bufLarge set_bufLarge op).
Proof.
  intros Hop. apply keeps_bufOp. intros s b H E. apply nodeInvSince_bufLarge; [exact H|].
  rewrite (Hop _ _ E). destruct H as [(_ & _ & _ & _ & H & _) _]. exact H.
Qed.

End Invariant.

Section Handlers.
Context {rt : Runtime}.
Variable u : bool.

Lemma keeps_buf_writeUInt8 (v off : Z) : keeps (nodeInvSince u) (buf_writeUInt8 v off).
Proof. apply keeps_buf_op. intros b b'. apply writeUInt8_length. Qed.

Lemma keeps_buf_writeUInt16LE (v off : Z) : keeps (nodeInvSince u) (buf_writeUInt16LE v off).
Proof. apply keeps_buf_op. intros b b'. apply writeUInt16LE_length. Qed.

Lemma keeps_buf_writeInt16LE (v off : Z) : keeps (nodeInvSince u) (buf_writeInt16LE v off).
Proof. apply keeps_buf_op. intros b b'. apply writeInt16LE_length. Qed.

Lemma keeps_buf_write (s : jsstring) (off : Z) : keeps (nodeInvSince u) (buf_write s off).
Proof. apply keeps_buf_op. intros b b'. apply Buffer_write_length. Qed.

Lemma keeps_bufLarge_writeUInt8 (v off : Z) : keeps (nodeInvSince u) (bufLarge_writeUInt8 v off).
Proof. apply keeps_bufLarge_op. intros b b'. apply writeUInt8_length. Qed.

Lemma keeps_bufLarge_write (s : jsstring) (off : Z) : keeps (nodeInvSince u) (bufLarge_write s off).
Proof. apply keeps_bufLarge_op. intros b b'. apply Buffer_write_length. Qed.

Lemma keeps_set_socketToData (f : State -> gmap jsstring Value) :
  keeps (nodeInvSince u) (modify (fun s => set_socketToData (f s) s)).
Proof. apply keeps_modify. intros s H. exact H. Qed.

Ltac keeps_step :=
  lazymatch goal with
  | |- keeps _ (ret _) => apply keeps_ret
  | |- keeps _ (throw _) => apply keeps_throw
  | |- keeps _ (gets _) => apply keeps_gets
  | |- keeps _ (orThrow _ _) => apply keeps_orThrow
  | |- keeps _ (toKey _) => apply keeps_toKey
  | |- keeps _ (storeGet _) => apply keeps_storeGet
  | |- keeps _ buf_fill0 => apply keeps_buf_fill0
  | |- keeps _ bufLarge_fill0 => apply keeps_bufLarge_fill0
  | |- keeps _ (buf_writeUInt8 _ _) => apply keeps_buf_writeUInt8
  | |- keeps _ (buf_writeUInt16LE _ _) => apply keeps_buf_writeUInt16LE
  | |- keeps _ (buf_writeInt16LE _ _) => apply keeps_buf_writeInt16LE
  | |- keeps _ (buf_write _ _) => apply keeps_buf_write
  | |- keeps _ (bufLarge_writeUInt8 _ _) => apply keeps_bufLarge_writeUInt8
  | |- keeps _ (bufLarge_write _ _) => apply keeps_bufLarge_write
  | |- keeps _ (writeToSocket_buf _) => apply keeps_writeToSocket_buf
  | |- keeps _ (writeToSocket_bufLarge _) => apply keeps_writeToSocket_bufLarge
  | |- keeps _ (modify (fun s => set_socketToData _ s)) => apply keeps_set_socketToData
  | |- keeps _ (forEach _ _) => apply keeps_forEach; intros ?
  | |- keeps _ (bind _ _) => apply keeps_bind; [|intros ?]
  | |- keeps _ (if ?b then _ else _) => destruct b
  | |- keeps _ (match ?o with _ => _ end) => destruct o
  end.

Ltac keeps_all := repeat keeps_step.

Lemma keeps_storeField (socket : nat) (k : jsstring) (v : Value) :
  keeps (nodeInvSince u) (storeField socket k v).
Proof. unfold storeField. keeps_all. Qed.

Lemma keeps_sendPlayerData (ty : Z) (_data : PlayerData) (from : Z) (to : SocketOrMinus1) :
  keeps (nodeInvSince u) (sendPlayerData ty _data from to).
Proof. unfold sendPlayerData. keeps_all. Qed.

Lemma keeps_forwardPlayerData (data : Buffer) (socket : nat) (dataOffset : Z)
    (serverSocket : SocketOrMinus1) (end_ : Z) :
  keeps (nodeInvSince u) (forwardPlayerData data socket dataOffset serverSocket end_).
Proof.
  unfold forwardPlayerData.
  repeat first [apply keeps_storeField | apply keeps_sendPlayerData | keeps_step].
Qed.

Lemma filter_keys_sorted (k : Z) (l : list (Z * nat)) :
  StronglySorted Z.lt (map fst l) -> StronglySorted Z.lt (map fst (reg_delete k l)).
Proof.
  unfold reg_delete. induction l as [|[k' r] l IH]; [intros; constructor|].
  simpl map. intros H. apply StronglySorted_inv in H as [Hl Hall].
  rewrite filter_cons. destruct (decide ((k', r).1 ≠ k)); [|now apply IH].
  simpl map. constructor; [now apply IH|].
  rewrite Forall_forall in Hall |- *. intros x Hx. apply Hall.
  apply list_elem_of_fmap in Hx as ([k1 r1] & -> & Hin).
  apply list_elem_of_filter in Hin as [_ Hin].
  now apply (list_elem_of_fmap_2 fst) in Hin.
Qed.

Lemma nodeInvSince_reg_delete (s : State) (k : Z) :
  nodeInvSince u s -> nodeInvSince u (set_idToSocket (reg_delete k (idToSocket s)) s).
Proof.
  intros [([Hsorted Hids] & Hkeys & Hpc & Hb & Hbl & Hsent) Hu].
  split; [|exact Hu].
  split; [split|].
  - now apply filter_keys_sorted.
  - intros k' r Hin. apply list_elem_of_filter in Hin as [_ Hin]. now apply Hids.
  - split; [|repeat split; try assumption; apply Hpc].
    cbn. rewrite Forall_forall in Hkeys |- *. intros x Hx. apply Hkeys.
    apply list_elem_of_fmap in Hx as ([k1 r1] & -> & Hin).
    apply list_elem_of_filter in Hin as [_ Hin].
    now apply (list_elem_of_fmap_2 fst) in Hin.
Qed.

Lemma keeps_set_uid (r : nat) (v : Value) : keeps (nodeInvSince u) (setSock r (set_uid v)).
Proof. apply keeps_setSock; [reflexivity | intros x H; exact H]. Qed.

Lemma keeps_set_listening (r : nat) (v : bool) : keeps (nodeInvSince u) (setSock r (set_listening v)).
Proof. apply keeps_setSock; [reflexivity | intros x H; exact H]. Qed.

Lemma keeps_set_isWS (r : nat) (v : bool) : keeps (nodeInvSince u) (setSock r (set_isWS v)).
Proof. apply keeps_setSock; [reflexivity | intros x H; exact H]. Qed.

Lemma keeps_playerDisconnect (socket : nat) (serverSocket : SocketOrMinus1) :
  keeps (nodeInvSince u) (playerDisconnect socket serverSocket).
Proof.
  unfold playerDisconnect.
  apply keeps_bind; [apply keeps_gets | intros mine].
  apply keeps_bind; [apply keeps_modify; intros s H; now apply nodeInvSince_reg_delete | intros _].
  repeat keeps_step.
Qed.

Lemma keeps_dedupe (fuel : nat) : forall _data, keeps (nodeInvSince u) (dedupe fuel _data).
Proof.
  induction fuel as [|fuel IH]; intros _data; simpl.
  - repeat keeps_step. intros s H. exact I.
  - repeat first [apply IH | keeps_step].
Qed.

Lemma keeps_caseID (fuel socket : nat) (data : Buffer) (_offset _end : Z) :
  keeps (nodeInvSince u) (caseID fuel socket data _offset _end).
Proof.
  unfold caseID. cbv zeta.
  repeat first [apply keeps_dedupe | apply keeps_set_uid | keeps_step].
Qed.

Lemma keeps_caseMessage (socket : nat) (data : Buffer) (_offset _end : Z) :
  keeps (nodeInvSince u) (caseMessage socket data _offset _end).
Proof. unfold caseMessage. cbv zeta. repeat keeps_step. Qed.

Lemma keeps_caseLeave (socket : nat) (data : Buffer) (serverSocket : SocketOrMinus1) :
  keeps (nodeInvSince u) (caseLeave socket data serverSocket).
Proof. intros s H. exact H. Qed.

Lemma keeps_dispatch (fuel socket : nat) (data : Buffer) (serverSocket : SocketOrMinus1)
    (_offset _end ty : Z) :
  keeps (nodeInvSince u) (dispatch fuel socket data serverSocket _offset _end ty).
Proof.
  unfold dispatch.
  repeat match goal with |- keeps _ (if ?b then _ else _) => destruct b end.
  - apply keeps_caseID.
  - apply keeps_caseMessage.
  - unfold caseEmail. cbv zeta. apply keeps_throw.
  - unfold caseUpload. repeat keeps_step.
  - unfold caseMiscData. repeat keeps_step.
  - apply keeps_caseLeave.
  - unfold caseHeartbeat. repeat keeps_step.
  - apply keeps_forwardPlayerData.
Qed.

Lemma keeps_packetLoop (fuel socket : nat) (data : Buffer) (serverSocket : SocketOrMinus1)
    (steps : nat) :
  forall _offset, keeps (nodeInvSince u) (packetLoop steps fuel socket data serverSocket _offset).
Proof.
  induction steps as [|steps IH]; intros _offset; simpl.
  - destruct (_offset <? byteLength data); [intros s H; exact I | apply keeps_ret].
  - destruct (_offset <? byteLength data); [|apply keeps_ret].
    repeat first [apply IH | apply keeps_dispatch | keeps_step].
Qed.

Lemma keeps_processPacket (fuel socket : nat) (data : Buffer) (serverSocket : SocketOrMinus1) :
  keeps (nodeInvSince u) (processPacket fuel socket data serverSocket).
Proof. unfold processPacket. apply keeps_packetLoop. Qed.

Lemma keeps_onEvent (fuel socket : nat) (serverSocket : SocketOrMinus1) (ev : SocketEvent) :
  keeps (nodeInvSince u) (onEvent fuel socket serverSocket ev).
Proof.
  unfold onEvent. apply keeps_bind; [apply keeps_gets | intros w].
  destruct ev; [apply keeps_processPacket | | apply keeps_playerDisconnect].
  destruct w; [intros s H; exact I | apply keeps_playerDisconnect].
Qed.

Lemma keeps_parentData (fuel socket : nat) (data : Buffer) :
  keeps (nodeInvSince u) (parentData fuel socket data).
Proof.
  unfold parentData. cbv zeta.
  apply keeps_bind; [apply keeps_orThrow | intros ty].
  destruct (ty =? clusterNet.miscData); [repeat keeps_step|].
  destruct (ty =? clusterNet.type).
  - apply keeps_bind; [apply keeps_orThrow | intros mode].
    apply keeps_bind.
    + destruct (mode =? 1); [|apply keeps_ret].
      apply keeps_modify. intros s [H _]. split; [exact H | reflexivity].
    + intros _. repeat keeps_step.
  - destruct (ty =? clusterNet.serverData); [|apply keeps_processPacket].
    apply keeps_bind; [apply keeps_orThrow | intros v]. unfold assign_nodes. apply keeps_throw.
Qed.


Lemma reg_set_keys_range (k0 : Z) (v : nat) (l : list (Z * nat)) (lo hi : Z) :
  lo <= k0 <= hi ->
  Forall (fun k => lo <= k <= hi) (map fst l) ->
  Forall (fun k => lo <= k <= hi) (map fst (reg_set k0 v l)).
Proof.
  intros Hk. induction l as [|[k' v'] l IH]; simpl; intros H.
  - repeat constructor; lia.
  - apply Forall_cons in H as [Hk' Hl].
    destruct (k0 <? k'); [|destruct (k0 =? k')]; simpl.
    + constructor; [lia|]. constructor; assumption.
    + constructor; [lia | assumption].
    + constructor; [assumption | now apply IH].
Qed.

(** serverCode from the state in which the new connection has its properties
    and its registry entry. *)
Lemma keeps_announce (socket : nat) (uuid : jsstring) (serverSocket : SocketOrMinus1)
    (mine : Z) :
  keeps (nodeInvSince u)
    (buf_fill0 ;;
     buf_writeUInt8 serverNet.assign 0 ;;
     buf_writeUInt16LE mine 1 ;;
     buf_write uuid 3 ;;
     writeToSocket_buf (Some socket) ;;
     (if bool_decide (serverSocket ≠ None) then
        buf_fill0 ;;
        buf_writeUInt8 clusterNet.count 0 ;;
        n <- gets (fun s => Z.of_nat (length (idToSocket s))) ;;
        buf_writeUInt8 n 1 ;;
        writeToSocket_buf serverSocket
      else ret tt) ;;
     setSock socket (set_listening true)).
Proof.
  repeat first [apply keeps_set_listening | keeps_step].
Qed.


Lemma keeps_serverCode (socket : nat) (w : bool) (uuid : jsstring)
    (serverSocket : SocketOrMinus1) (s : State) :
  nodeInvSince u s -> ~ registered s socket ->
  match serverCode socket w uuid serverSocket s with
  | Ret _ s' | Throw _ s' => nodeInvSince u s'
  | OutOfFuel | Unmodelled => True
  end.
Proof.
  intros [(Hwf & Hkeys & Hpc & Hb & Hbl & Hsent) Hu] Hfresh.
  unfold serverCode.
  rewrite !setSock_k, gets_k. cbv beta. rewrite setSock_k, modify_k, gets_k. cbv beta.
  rewrite modify_k.
  match goal with |- match _ ?s1 with _ => _ end => set (st1 := s1) end.
  assert (Hmine : id (sockets st1 socket) = playerCount s + serverIndex * 256).
  { unfold st1. cbn. unfold upd. now rewrite Nat.eqb_refl. }
  assert (Hreg : idToSocket st1 = reg_set (playerCount s + serverIndex * 256) socket (idToSocket s)).
  { unfold st1. cbn. unfold upd. now rewrite Nat.eqb_refl. }
  assert (Hother : forall r, r <> socket -> sockets st1 r = sockets s r).
  { intros r Hr. unfold st1. cbn. unfold upd.
    destruct (Nat.eqb_spec r socket); [contradiction | reflexivity]. }
  assert (Hsent1 : forall r, sent (sockets st1 r) = sent (sockets s r)).
  { intros r. destruct (Nat.eq_dec r socket) as [->|Hr]; [|now rewrite Hother].
    unfold st1. cbn. unfold upd. rewrite ?Nat.eqb_refl. cbn. rewrite ?Nat.eqb_refl. reflexivity. }
  assert (Hpc1 : playerCount st1 = (playerCount s + 1) mod 256) by reflexivity.
  destruct (accept_facts socket w uuid s st1 st1 Hwf Hpc Hfresh Hpc1 Hreg Hother Hmine
              eq_refl eq_refl (fun r => conj eq_refl eq_refl))
    as (_ & _ & Hpc' & _ & Hwf' & _).
  apply (keeps_announce socket uuid serverSocket (id (sockets st1 socket)) st1).
  split; [|exact Hu].
  split; [exact Hwf'|]. split.
  { rewrite Hreg. apply reg_set_keys_range; [unfold serverIndex; lia | exact Hkeys]. }
  split; [exact Hpc'|]. split; [exact Hb|]. split; [exact Hbl|].
  intros r. rewrite Hsent1. apply Hsent.
Qed.

Lemma keeps_connectParent (p : nat) (s : State) :
  nodeInvSince u s -> ~ registered s p ->
  match connectParent p s with
  | Ret _ s' | Throw _ s' => nodeInvSince u s'
  | OutOfFuel | Unmodelled => True
  end.
Proof.
  intros [([Hsorted Hids] & Hkeys & Hpc & Hb & Hbl & Hsent) Hu] Hfresh.
  cbn. split; [|exact Hu].
  split; [split; [exact Hsorted|]|].
  - intros k r Hin. cbn. unfold upd.
    destruct (Nat.eqb_spec r p) as [->|_]; [|now apply Hids].
    exfalso. apply Hfresh. unfold registered, Object_values.
    now apply (list_elem_of_fmap_2 snd) in Hin.
  - repeat split; try assumption; try apply Hpc.
    intros r. cbn. unfold upd. destruct (Nat.eqb_spec r p) as [->|_]; [|apply Hsent].
    rewrite ?Nat.eqb_refl. cbn. rewrite ?Nat.eqb_refl. cbn. apply Hsent.
Qed.

Lemma keeps_handle (fuel : nat) (serverSocket : SocketOrMinus1) (e : Event) (s : State) :
  nodeInvSince u s -> fresh serverSocket s e ->
  match handle fuel serverSocket e s with
  | Ret _ s' | Throw _ s' => nodeInvSince u s'
  | OutOfFuel | Unmodelled => True
  end.
Proof.
  intros H Hfresh. destruct e as [|socket w uuid|socket ev|data]; simpl in Hfresh |- *.
  - destruct serverSocket as [p|]; [now apply keeps_connectParent | exact H].
  - now apply keeps_serverCode.
  - now apply keeps_onEvent.
  - destruct serverSocket as [p|]; [now apply keeps_parentData | exact H].
Qed.

End Handlers.

Section Reachable.
Context {rt : Runtime}.

Lemma sorted_range_length (hi : Z) (l : list Z) :
  StronglySorted Z.lt l ->
  forall lo, Forall (fun k => lo <= k <= hi) l -> lo <= hi + 1 ->
  Z.of_nat (length l) <= hi - lo + 1.
Proof.
  induction 1 as [|k l Hl IH Hk]; intros lo Hrange Hlo; simpl length; [lia|].
  apply Forall_cons in Hrange as [Hk0 Hrange].
  assert (Htail : Forall (fun x => k + 1 <= x <= hi) l).
  { rewrite Forall_forall in Hk, Hrange |- *. intros x Hx.
    specialize (Hk x Hx). specialize (Hrange x Hx). lia. }
  specialize (IH (k + 1) Htail ltac:(lia)). lia.
Qed.

Lemma nodenodeInvSince_initial : nodeInv initialState.
Proof.
  split; [split; [constructor | intros k r H; inversion H]|].
  split; [constructor|]. split; [cbn; lia|].
  split; [apply length_replicate|]. split; [apply length_replicate|].
  intros r. constructor.
Qed.

(** Whatever happens to a node whose state satisfies the invariant, the next
    state satisfies it, and [unifiedCluster], once set, stays set: no listener
    clears it, whether it returns or throws. *)
Theorem listeners_keep_invariant (fuel : nat) (serverSocket : SocketOrMinus1) (e : Event)
    (st : State) :
  nodeInv st -> fresh serverSocket st e ->
  match handle fuel serverSocket e st with
  | Ret _ st' | Throw _ st' =>
      nodeInv st' /\ (unifiedCluster st = true -> unifiedCluster st' = true)
  | OutOfFuel | Unmodelled => True
  end.
Proof.
  intros H Hfresh.
  apply (keeps_handle (unifiedCluster st) fuel serverSocket e st); [|exact Hfresh].
  split; [exact H | auto].
Qed.

Lemma reachable_nodeInv (serverSocket : SocketOrMinus1) (st : State) :
  reachable serverSocket st -> nodeInv st.
Proof.
  induction 1 as [|st fuel e st' _ IH Hfresh Hrun|st fuel e err st' _ IH Hfresh Hrun].
  - apply nodenodeInvSince_initial.
  - assert (HI : nodeInvSince false st) by (split; [exact IH | discriminate]).
    pose proof (keeps_handle false fuel serverSocket e st HI Hfresh) as Hk.
    rewrite Hrun in Hk. apply Hk.
  - assert (HI : nodeInvSince false st) by (split; [exact IH | discriminate]).
    pose proof (keeps_handle false fuel serverSocket e st HI Hfresh) as Hk.
    rewrite Hrun in Hk. apply Hk.
Qed.

(** In every state the node reaches, the registry is sorted by id with every
    connection under its own id, the ids lie in [0, 255] and so do the values
    of the counter, at most 256 connections are registered and none of them
    twice, the two shared buffers have their 512 and 4096 bytes, and every
    buffer handed to a connection was one of them whole. *)
Theorem reachable_invariant (serverSocket : SocketOrMinus1) (st : State) :
  reachable serverSocket st ->
  nodeInv st
  /\ (length (idToSocket st) <= 256)%nat
  /\ NoDup (Object_values (idToSocket st)).
Proof.
  intros Hreach. pose proof (reachable_nodeInv serverSocket st Hreach) as H.
  split; [exact H|].
  destruct H as (Hwf & Hkeys & _).
  split; [|now apply regWF_values_NoDup].
  pose proof (sorted_range_length 255 _ (proj1 Hwf) 0 Hkeys ltac:(lia)) as Hlen.
  rewrite length_map in Hlen. lia.
Qed.

End Reachable.

(** ** Field updates: the other cases *)

Section Fields.
Context {rt : Runtime}.

(** forwardPlayerData on a field update: the assignment to the stored record,
    then the two sends. *)
Lemma forward_store (data : Buffer) (socket : nat) (dataOffset end_ : Z)
    (serverSocket : SocketOrMinus1) (st : State) (ty : Z) (k : jsstring) (v : Value)
    (d : PlayerData) :
  readUInt8 data dataOffset = Some ty ->
  fieldUpdate data dataOffset end_ ty = Some (k, v, d) ->
  forwardPlayerData data socket dataOffset serverSocket end_ st
  = (storeField socket k v ;;
     socks <- gets (fun s => Object_values (idToSocket s)) ;;
     forEach socks (fun _sock =>
       other <- gets (fun s => id (sockets s _sock)) ;;
       mine <- gets (fun s => id (sockets s socket)) ;;
       if other =? mine then ret tt
       else sendPlayerData ty d mine (Some _sock)) ;;
     unified <- gets unifiedCluster ;;
     if unified && bool_decide (serverSocket ≠ None)
     then mine <- gets (fun s => id (sockets s socket)) ;;
          sendPlayerData ty d mine serverSocket
     else ret tt) st.
Proof.
  intros Hread Hfield. unfold forwardPlayerData. rewrite Hread. unfold orThrow at 1.
  erewrite bind_Ret by reflexivity.
  unfold fieldUpdate in Hfield.
  destruct (ty =? clientNet.pos) eqn:Epos.
  - apply Z.eqb_eq in Epos. subst ty.
    change (clientNet.pos =? clientNet.message) with false. cbv iota.
    destruct (readInt16LE data (1 + dataOffset)) as [x|]; [|discriminate].
    destruct (readInt16LE data (3 + dataOffset)) as [y|]; [|discriminate].
    destruct (readUInt8 data (5 + dataOffset)) as [facing|]; [|discriminate].
    injection Hfield as <- <- <-. unfold orThrow, ret.
    rewrite bind_assoc. erewrite bind_Ret by reflexivity.
    rewrite bind_assoc. erewrite bind_Ret by reflexivity.
    rewrite bind_assoc. erewrite bind_Ret by reflexivity.
    rewrite bind_assoc. apply bind_ext. intros [] s. reflexivity.
  - cbv zeta in Hfield. cbv zeta.
    destruct (ty =? clientNet.myRoom) eqn:E1.
    { apply Z.eqb_eq in E1. subst ty. injection Hfield as <- <- <-.
      change (clientNet.myRoom =? clientNet.message) with false. cbv iota.
      rewrite bind_assoc. apply bind_ext. intros [] s. reflexivity. }
    destruct (ty =? clientNet.name) eqn:E2.
    { apply Z.eqb_eq in E2. subst ty. injection Hfield as <- <- <-.
      change (clientNet.name =? clientNet.message) with false. cbv iota.
      rewrite bind_assoc. apply bind_ext. intros [] s. reflexivity. }
    destruct (ty =? clientNet.outfit) eqn:E3; [|discriminate].
    apply Z.eqb_eq in E3. subst ty. injection Hfield as <- <- <-.
    change (clientNet.outfit =? clientNet.message) with false. cbv iota.
    rewrite bind_assoc. apply bind_ext. intros [] s. reflexivity.
Qed.

(** A field update (position, room, name, outfit) from a connection whose uid
    names no stored record, as before its identity packet: the assignment to
    the record throws TypeError, nothing is stored and nothing is sent. *)
Theorem field_update_needs_record (data : Buffer) (socket : nat) (dataOffset end_ : Z)
    (serverSocket : SocketOrMinus1) (st : State) (ty : Z) (k key : jsstring) (v : Value)
    (d : PlayerData) :
  readUInt8 data dataOffset = Some ty ->
  fieldUpdate data dataOffset end_ ty = Some (k, v, d) ->
  ToString (uid (sockets st socket)) = Some key ->
  socketToData st !! key = None ->
  key ∉ protoKeys ->
  forwardPlayerData data socket dataOffset serverSocket end_ st = Throw TypeError st.
Proof.
  intros Hread Hfield Hkey Hnone Hproto.
  rewrite (forward_store _ _ _ _ _ _ _ _ _ _ Hread Hfield).
  apply bind_Throw. unfold storeField. rewrite gets_k_any. unfold toKey. rewrite Hkey.
  erewrite bind_Ret by reflexivity.
  erewrite bind_Ret.
  2:{ unfold storeGet. rewrite Hnone. rewrite bool_decide_false by exact Hproto. reflexivity. }
  reflexivity.
Qed.

(** A sub-packet of a type the switch does not know and that names no field
    is relayed all the same: its sanitized text goes, under its type and the
    sender's id, to every other registered session and, in a unified cluster,
    to the parent; the store is not read or written, so the sender needs no
    record. *)
Theorem other_types_relayed (data : Buffer) (socket : nat) (dataOffset end_ : Z)
    (serverSocket : SocketOrMinus1) (st : State) (ty : Z) :
  readUInt8 data dataOffset = Some ty ->
  ty <> clientNet.pos -> ty <> clientNet.myRoom -> ty <> clientNet.name ->
  ty <> clientNet.outfit ->
  0 <= id (sockets st socket) <= 65535 ->
  exists st',
    forwardPlayerData data socket dataOffset serverSocket end_ st = Ret tt st'
    /\ sameButSent st st'
    /\ forall r,
         sent (sockets st' r)
         = sent (sockets st r)
           ++ replicate (occurrences r (targets (differs socket) st
                                          (Object_values (idToSocket st))))
                (playerDataPacket ty (DString (readBufString data (1 + dataOffset) end_))
                   (id (sockets st socket)))
           ++ (if unifiedCluster st && bool_decide (serverSocket = Some r)
               then [playerDataPacket ty (DString (readBufString data (1 + dataOffset) end_))
                       (id (sockets st socket))]
               else []).
Proof.
  intros Hread Hpos Hroom Hname Houtfit Hid.
  pose proof (readUInt8_range _ _ _ Hread) as Hty.
  unfold forwardPlayerData. rewrite Hread. unfold orThrow at 1.
  erewrite bind_Ret by reflexivity.
  assert (Hhead : forall K : PlayerData -> M unit,
            (_data <-
               (if ty =? clientNet.message then
                  ret (DString (readBufString data (1 + dataOffset) end_))
                else if ty =? clientNet.pos then
                  x <- orThrow RangeError (readInt16LE data (1 + dataOffset)) ;;
                  y <- orThrow RangeError (readInt16LE data (3 + dataOffset)) ;;
                  facing <- orThrow RangeError (readUInt8 data (5 + dataOffset)) ;;
                  storeField socket (js "pos") (VArr [numZ x; numZ y; numZ facing] []) ;;
                  ret (DPos x y facing)
                else
                  let s := readBufString data (1 + dataOffset) end_ in
                  (if ty =? clientNet.myRoom then storeField socket (js "myRoom") (VStr s)
                   else if ty =? clientNet.name then storeField socket (js "name") (VStr s)
                   else if ty =? clientNet.outfit
                        then storeField socket (js "outfit") (VStr s)
                   else ret tt) ;;
                  ret (DString s)) ;;
             K _data) st
            = K (DString (readBufString data (1 + dataOffset) end_)) st).
  { intros K. destruct (ty =? clientNet.message); [reflexivity|].
    rewrite (proj2 (Z.eqb_neq ty clientNet.pos) Hpos). cbv zeta.
    rewrite (proj2 (Z.eqb_neq ty clientNet.myRoom) Hroom).
    rewrite (proj2 (Z.eqb_neq ty clientNet.name) Hname).
    rewrite (proj2 (Z.eqb_neq ty clientNet.outfit) Houtfit). reflexivity. }
  rewrite Hhead.
  exact (forward_sends ty (DString (readBufString data (1 + dataOffset) end_)) socket
           serverSocket st Hty I Hid).
Qed.

End Fields.

(** ** Heartbeats *)

Section Heartbeat.
Context {rt : Runtime}.

Lemma caseHeartbeat_run (socket : nat) (st : State) :
  caseHeartbeat socket st
  = Ret tt (sendTo socket heartbeatPacket (set_buf heartbeatPacket st)).
Proof.
  unfold caseHeartbeat. rewrite fill0_buf_k. unfold buf_writeUInt8.
  erewrite bufOp_k;
    [| exact (write_u8_cursor [] 511 serverNet.heartbeat
                ltac:(unfold serverNet.heartbeat; lia))].
  rewrite send_buf_run. reflexivity.
Qed.

(** A heartbeat sub-packet is answered with one heartbeat packet, to its
    sender alone: no other connection and no parent is sent anything, and
    nothing but the shared buffer changes. *)
Theorem heartbeat_answered (fuel socket : nat) (data : Buffer) (serverSocket : SocketOrMinus1)
    (_offset _end : Z) (st : State) :
  dispatch fuel socket data serverSocket _offset _end clientNet.heartbeat st
  = Ret tt (sendTo socket heartbeatPacket (set_buf heartbeatPacket st))
  /\ (forall r, r <> socket ->
        sockets (sendTo socket heartbeatPacket (set_buf heartbeatPacket st)) r = sockets st r)
  /\ sent (sockets (sendTo socket heartbeatPacket (set_buf heartbeatPacket st)) socket)
     = sent (sockets st socket) ++ [heartbeatPacket].
Proof.
  split; [|split].
  - change (dispatch fuel socket data serverSocket _offset _end clientNet.heartbeat)
      with (caseHeartbeat socket).
    apply caseHeartbeat_run.
  - intros r Hr. unfold sendTo. cbn. now apply upd_other.
  - rewrite sent_sendTo. rewrite decide_True by reflexivity. reflexivity.
Qed.

End Heartbeat.

(** ** Reads that are not a sequence of whole sub-packets *)

Section Reads.
Context {rt : Runtime}.

(** The loop after the sub-packets [pkts] of a read that goes on with
    [rest]. *)
Lemma processPacket_prefix (fuel socket : nat) (serverSocket : SocketOrMinus1)
    (pkts : list (Z * list byte)) (rest : Buffer) (st st1 : State) :
  Forall wellFormed pkts ->
  (length pkts <= fuel)%nat ->
  dispatchAll fuel socket (encodeRead pkts ++ rest) serverSocket (layout 0 pkts) st
  = Ret tt st1 ->
  processPacket fuel socket (encodeRead pkts ++ rest) serverSocket st
  = packetLoop (fuel - length pkts) fuel socket (encodeRead pkts ++ rest) serverSocket
      (byteLength (encodeRead pkts)) st1.
Proof.
  intros Hwf Hfuel Hrun. unfold processPacket.
  replace fuel with (length pkts + (fuel - length pkts))%nat at 1 by lia.
  rewrite (packetLoop_prefix fuel socket serverSocket pkts Hwf [] rest
             (encodeRead pkts ++ rest) _ st eq_refl).
  change (byteLength []) with 0. rewrite Z.add_0_l.
  now rewrite (bind_Ret _ _ _ _ _ Hrun).
Qed.

(** A read that ends one or two bytes into a sub-packet, as a TCP read may:
    the sub-packets before are processed, then reading the header throws
    RangeError. *)
Theorem partial_header_throws (fuel socket : nat) (serverSocket : SocketOrMinus1)
    (pkts : list (Z * list byte)) (tail : Buffer) (st st1 : State) :
  Forall wellFormed pkts ->
  (length pkts < fuel)%nat ->
  (1 <= length tail <= 2)%nat ->
  dispatchAll fuel socket (encodeRead pkts ++ tail) serverSocket (layout 0 pkts) st
  = Ret tt st1 ->
  processPacket fuel socket (encodeRead pkts ++ tail) serverSocket st
  = Throw RangeError st1.
Proof.
  intros Hwf Hfuel Htail Hrun.
  rewrite (processPacket_prefix fuel socket serverSocket pkts tail st st1 Hwf ltac:(lia) Hrun).
  destruct (fuel - length pkts)%nat as [|steps] eqn:E; [lia|].
  set (data := encodeRead pkts ++ tail).
  pose proof (byteLength_nonneg (encodeRead pkts)) as Hpre.
  assert (Hlen : byteLength data = byteLength (encodeRead pkts) + Z.of_nat (length tail))
    by (unfold data; rewrite byteLength_app; reflexivity).
  simpl packetLoop.
  destruct (Z.ltb_spec (byteLength (encodeRead pkts)) (byteLength data)); [|lia].
  destruct (readInt16LE data (byteLength (encodeRead pkts))) as [len|] eqn:E16;
    [|reflexivity].
  unfold orThrow at 1. erewrite bind_Ret by reflexivity.
  assert (E8 : readUInt8 data (2 + byteLength (encodeRead pkts)) = None).
  { unfold readUInt8, inRange.
    destruct (Z.leb_spec (2 + byteLength (encodeRead pkts) + 1) (byteLength data)); [lia|].
    now rewrite andb_false_r. }
  rewrite E8. reflexivity.
Qed.

(** A sub-packet whose length field is 0: the loop does not advance.  With the
    type of a heartbeat or of a chat message, whose handlers return, it runs
    for ever: whatever bound is put on its iterations, that many are made. *)
Theorem zero_length_frame_never_ends (socket : nat) (serverSocket : SocketOrMinus1)
    (data : Buffer) (ty : Z) :
  readInt16LE data 0 = Some 0 ->
  readUInt8 data 2 = Some ty ->
  ty = clientNet.heartbeat \/ ty = clientNet.message ->
  forall fuel st, processPacket fuel socket data serverSocket st = OutOfFuel.
Proof.
  intros Hlen Hty Hcase.
  enough (Hloop : forall steps fuel st,
             packetLoop steps fuel socket data serverSocket 0 st = OutOfFuel)
    by (intros fuel st; unfold processPacket; apply Hloop).
  assert (Hlt : 0 < byteLength data).
  { unfold readUInt8, inRange in Hty.
    destruct (Z.leb_spec (2 + 1) (byteLength data)); [lia|].
    rewrite andb_false_r in Hty. discriminate. }
  assert (Hret : forall fuel st, exists st',
            dispatch fuel socket data serverSocket 0 (0 + 0) ty st = Ret tt st').
  { intros fuel st. destruct Hcase as [-> | ->].
    - eexists.
      change (dispatch fuel socket data serverSocket 0 (0 + 0) clientNet.heartbeat)
        with (caseHeartbeat socket).
      apply caseHeartbeat_run.
    - destruct (caseMessage_run socket data 0 (0 + 0) st) as (st' & Hrun & _).
      exists st'. exact Hrun. }
  induction steps as [|steps IH]; intros fuel st.
  - simpl. destruct (Z.ltb_spec 0 (byteLength data)); [reflexivity | lia].
  - rewrite (packetLoop_step steps fuel socket data serverSocket 0 0 ty st Hlt Hlen Hty).
    destruct (Hret fuel st) as (st' & Hrun).
    rewrite (bind_Ret _ _ _ _ _ Hrun). apply IH.
Qed.

(** A sub-packet of type email, or of type upload with a payload that parses,
    ends the read with ReferenceError: the sub-packets before it have been
    processed, it has no effect, and those after it are not processed.  (The
    email case reads [socketToName], which is declared nowhere; the upload
    case reads [ref], a constant of another block.) *)
Theorem email_upload_abort (fuel socket : nat) (serverSocket : SocketOrMinus1)
    (before after : list (Z * list byte)) (ty : Z) (payload : list byte) (v : Value)
    (st st1 : State) :
  Forall wellFormed before ->
  wellFormed (ty, payload) ->
  (length before < fuel)%nat ->
  ty = clientNet.email
  \/ (ty = clientNet.upload /\ JSON_parse (decodePayload payload) = Some v) ->
  dispatchAll fuel socket (encodeRead (before ++ (ty, payload) :: after)) serverSocket
    (layout 0 before) st = Ret tt st1 ->
  processPacket fuel socket (encodeRead (before ++ (ty, payload) :: after)) serverSocket st
  = Throw ReferenceError st1.
Proof.
  intros Hbefore Hbad Hfuel Hty Hrun.
  assert (Hdata : encodeRead (before ++ (ty, payload) :: after)
                  = encodeRead before ++ (encodeFrame (ty, payload) ++ encodeRead after)).
  { unfold encodeRead. rewrite map_app, concat_app. reflexivity. }
  rewrite Hdata in Hrun |- *.
  rewrite (processPacket_prefix fuel socket serverSocket before _ st st1 Hbefore
             ltac:(lia) Hrun).
  destruct (fuel - length before)%nat as [|steps] eqn:E; [lia|].
  destruct (read_frame_header (encodeRead before) (encodeRead after) (ty, payload) Hbad)
    as [Hlen Htyb].
  set (data := encodeRead before ++ encodeFrame (ty, payload) ++ encodeRead after) in *.
  assert (Hlt : byteLength (encodeRead before) < byteLength data).
  { unfold data. rewrite !byteLength_app, byteLength_encodeFrame. unfold frameLength. simpl.
    pose proof (byteLength_nonneg payload). pose proof (byteLength_nonneg (encodeRead after)).
    lia. }
  rewrite (packetLoop_step _ fuel socket data serverSocket _ _ _ st1 Hlt Hlen Htyb).
  apply bind_Throw. simpl fst. simpl snd.
  destruct Hty as [-> | [-> Hparse]].
  - reflexivity.
  - change (dispatch fuel socket data serverSocket (byteLength (encodeRead before))
              (byteLength (encodeRead before) + frameLength payload) clientNet.upload)
      with (caseUpload data (byteLength (encodeRead before))
              (byteLength (encodeRead before) + frameLength payload)).
    unfold caseUpload.
    assert (Htext : readBufString data (3 + byteLength (encodeRead before))
                      (byteLength (encodeRead before) + frameLength payload)
                    = decodePayload payload)
      by apply (readBufString_payload _ _ (clientNet.upload, payload)).
    rewrite Htext, Hparse. reflexivity.
Qed.

End Reads.

(** ** What accepting a connection sends *)

Section Accepting.
Context {rt : Runtime}.

(** The report to the parent and the installation of the listener, run. *)
Lemma serverCode_tail_state (socket : nat) (serverSocket : SocketOrMinus1) (st1 : State) :
  serverSocket = None \/ Z.of_nat (length (idToSocket st1)) <= 255 ->
  ((if bool_decide (serverSocket ≠ None) then
      buf_fill0 ;;
      buf_writeUInt8 clusterNet.count 0 ;;
      n <- gets (fun s => Z.of_nat (length (idToSocket s))) ;;
      buf_writeUInt8 n 1 ;;
      writeToSocket_buf serverSocket
    else ret tt) ;;
   setSock socket (set_listening true)) st1
  = Ret tt
      (let st2 :=
         match serverSocket with
         | Some p =>
             sendTo p (countPacket (Z.of_nat (length (idToSocket st1))))
               (set_buf (countPacket (Z.of_nat (length (idToSocket st1)))) st1)
         | None => st1
         end in
       set_sockets (upd socket (set_listening true (sockets st2 socket)) (sockets st2)) st2).
Proof.
  intros Hcap. destruct serverSocket as [p|].
  - destruct Hcap as [Hcap|Hcap]; [discriminate|].
    rewrite bool_decide_true by discriminate.
    erewrite bind_Ret.
    2:{ rewrite fill0_buf_k. unfold buf_writeUInt8 at 1.
        erewrite bufOp_k;
          [| exact (write_u8_cursor [] 511 clusterNet.count ltac:(unfold clusterNet.count; lia))].
        rewrite gets_k. cbv beta. unfold buf_writeUInt8.
        erewrite bufOp_k;
          [| exact (write_u8_cursor [Zbyte clusterNet.count] 510
                      (Z.of_nat (length (idToSocket st1))) ltac:(lia))].
        apply send_buf_run. }
    reflexivity.
  - rewrite bool_decide_false by (intros H; now apply H). reflexivity.
Qed.

(** Accepting a connection, when the count fits the report (no parent, or at
    most 255 registered after the insert): the connection gets its properties
    and its data listener and is sent one assign packet with its id and uuid;
    the parent is sent one count packet with the number of registered
    connections; no other connection is touched, nor is the player store. *)
Theorem accept_announces (socket : nat) (w : bool) (uuid : jsstring)
    (serverSocket : SocketOrMinus1) (st : State) :
  0 <= playerCount st <= 255 ->
  serverSocket = None
  \/ Z.of_nat (length (reg_set (playerCount st + serverIndex * 256) socket (idToSocket st)))
     <= 255 ->
  serverSocket <> Some socket ->
  exists st',
    serverCode socket w uuid serverSocket st = Ret tt st'
    /\ sockets st' socket
       = mkSocket w (VStr uuid) (playerCount st + serverIndex * 256)
           (sent (sockets st socket) ++ [assignPacket (playerCount st + serverIndex * 256) uuid])
           (closed (sockets st socket)) true
    /\ idToSocket st'
       = reg_set (playerCount st + serverIndex * 256) socket (idToSocket st)
    /\ (forall p, serverSocket = Some p ->
          sockets st' p
          = set_sent (sent (sockets st p)
                      ++ [countPacket (Z.of_nat (length (idToSocket st')))]) (sockets st p))
    /\ (forall r, r <> socket -> serverSocket <> Some r -> sockets st' r = sockets st r)
    /\ socketToData st' = socketToData st.
Proof.
  intros Hpc Hcap Hparent.
  destruct (serverCode_prefix socket w uuid serverSocket st ltac:(unfold serverIndex; lia))
    as (st1 & Hrun & _ & Hreg1 & Hstore1 & _ & _ & Hoth1 & Hsock1).
  rewrite <- Hreg1 in Hcap.
  rewrite Hrun, (serverCode_tail_state socket serverSocket st1 Hcap).
  eexists. split; [reflexivity|].
  destruct serverSocket as [p|]; cbv zeta.
  - assert (Hp : p <> socket) by congruence.
    split.
    { cbn. rewrite upd_same. unfold sendTo. cbn. rewrite upd_other by congruence.
      rewrite Hsock1. reflexivity. }
    split; [exact Hreg1|].
    split.
    { intros p' [= <-]. cbn. rewrite upd_other by exact Hp. rewrite upd_same.
      rewrite (Hoth1 p Hp). reflexivity. }
    split; [|exact Hstore1].
    intros r Hr Hrp. cbn. rewrite upd_other by exact Hr. rewrite upd_other by congruence.
    now apply Hoth1.
  - split; [cbn; rewrite upd_same, Hsock1; reflexivity|].
    split; [exact Hreg1|].
    split; [intros p' [=]|].
    split; [|exact Hstore1].
    intros r Hr _. cbn. rewrite upd_other by exact Hr. now apply Hoth1.
Qed.

(** Accepting a connection on a node with a parent when the registry then
    holds 256 connections: the count does not fit the byte of the report and
    serverCode throws RangeError.  By then the connection is registered and
    has been sent its assign packet; it gets no data listener, and the parent
    is sent nothing. *)
Theorem accept_overflows (socket p : nat) (w : bool) (uuid : jsstring) (st : State) :
  0 <= playerCount st <= 255 ->
  255 < Z.of_nat (length (reg_set (playerCount st + serverIndex * 256) socket (idToSocket st))) ->
  exists st',
    serverCode socket w uuid (Some p) st = Throw RangeError st'
    /\ reg_get (playerCount st + serverIndex * 256) (idToSocket st') = Some socket
    /\ playerCount st' = (playerCount st + 1) mod 256
    /\ sockets st' socket
       = mkSocket w (VStr uuid) (playerCount st + serverIndex * 256)
           (sent (sockets st socket) ++ [assignPacket (playerCount st + serverIndex * 256) uuid])
           (closed (sockets st socket)) (listening (sockets st socket))
    /\ forall r, r <> socket -> sockets st' r = sockets st r.
Proof.
  intros Hpc Hfull.
  destruct (serverCode_prefix socket w uuid (Some p) st ltac:(unfold serverIndex; lia))
    as (st1 & Hrun & Hpc1 & Hreg1 & _ & _ & _ & Hoth1 & Hsock1).
  rewrite <- Hreg1 in Hfull.
  destruct (serverCode_tail_throw socket p st1 Hfull) as (st' & Htail & Hsame).
  destruct Hsame as (Hpc' & Hreg' & _ & _ & _ & Hsocks).
  exists st'. split; [now rewrite Hrun|].
  split; [rewrite Hreg', Hreg1; apply reg_get_set_same|].
  split; [now rewrite Hpc'|].
  split; [now rewrite Hsocks|].
  intros r Hr. rewrite Hsocks. now apply Hoth1.
Qed.

End Accepting.

(** ** What a disconnect removes and sends *)

Section Leaving.
Context {rt : Runtime}.

Lemma reg_delete_elem (k k' : Z) (r : nat) (l : list (Z * nat)) :
  (k', r) ∈ reg_delete k l <-> k' <> k /\ (k', r) ∈ l.
Proof. unfold reg_delete. rewrite list_elem_of_filter. reflexivity. Qed.

Lemma registered_after_delete (st : State) (socket r : nat) :
  regWF st -> registered st socket ->
  (r ∈ Object_values (reg_delete (id (sockets st socket)) (idToSocket st))
   <-> registered st r /\ r <> socket).
Proof.
  intros Hwf Hs. unfold registered, Object_values. split.
  - intros Hin. apply list_elem_of_fmap in Hin as ([k r'] & -> & Hin).
    apply reg_delete_elem in Hin as [Hk Hin]. simpl.
    split; [now apply (list_elem_of_fmap_2 snd) in Hin|].
    intros ->. apply Hk. symmetry. now apply (proj2 Hwf).
  - intros [Hr Hne]. pose proof (registered_id st r Hwf Hr) as Hin.
    assert (Hin' : (id (sockets st r), r)
                   ∈ reg_delete (id (sockets st socket)) (idToSocket st)).
    { apply reg_delete_elem. split; [|exact Hin].
      intros Heq. apply Hne. now apply (registered_same_id st r socket Hwf Hr Hs). }
    apply (list_elem_of_fmap_2 snd) in Hin'. exact Hin'.
Qed.

Lemma values_after_delete_NoDup (st : State) (k : Z) :
  regWF st -> NoDup (Object_values (reg_delete k (idToSocket st))).
Proof.
  intros Hwf.
  apply (regWF_values_NoDup (set_idToSocket (reg_delete k (idToSocket st)) st)).
  split.
  - apply filter_keys_sorted, Hwf.
  - intros k' r Hin. apply reg_delete_elem in Hin as [_ Hin]. now apply (proj2 Hwf).
Qed.

(** One run of playerDisconnect for a registered connection: its registry
    entry and its stored record are deleted, every other registered session is
    sent the leave packet once, and so is the parent when there is one,
    whether [unifiedCluster] is set or not; the connection itself is sent
    nothing. *)
Theorem disconnect_notifies (socket : nat) (serverSocket : SocketOrMinus1) (st : State)
    (key : jsstring) :
  regWF st ->
  registered st socket ->
  0 <= id (sockets st socket) <= 65535 ->
  ToString (uid (sockets st socket)) = Some key ->
  exists st',
    playerDisconnect socket serverSocket st = Ret tt st'
    /\ idToSocket st' = reg_delete (id (sockets st socket)) (idToSocket st)
    /\ (forall r, registered st' r <-> registered st r /\ r <> socket)
    /\ socketToData st' = delete key (socketToData st)
    /\ (forall r, registered st r -> r <> socket -> serverSocket <> Some r ->
          sent (sockets st' r)
          = sent (sockets st r) ++ [leavePacket (id (sockets st socket))])
    /\ (forall p, serverSocket = Some p -> ~ registered st p ->
          sent (sockets st' p)
          = sent (sockets st p) ++ [leavePacket (id (sockets st socket))])
    /\ (serverSocket <> Some socket -> sent (sockets st' socket) = sent (sockets st socket)).
Proof.
  intros Hwf Hs Hid Hkey.
  destruct (playerDisconnect_run socket serverSocket st key Hid Hkey)
    as (st' & Hrun & Hsame & Hsent).
  destruct Hsame as (_ & Hreg & Hstore & _).
  cbn in Hreg, Hstore.
  assert (Hocc1 : forall r, registered st r -> r <> socket ->
            occurrences r (Object_values (reg_delete (id (sockets st socket)) (idToSocket st)))
            = 1%nat).
  { intros r Hr Hne. rewrite occurrences_NoDup by now apply values_after_delete_NoDup.
    rewrite decide_True; [reflexivity | now apply registered_after_delete]. }
  assert (Hocc0 : forall r, ~ (registered st r /\ r <> socket) ->
            occurrences r (Object_values (reg_delete (id (sockets st socket)) (idToSocket st)))
            = 0%nat).
  { intros r H. rewrite occurrences_NoDup by now apply values_after_delete_NoDup.
    rewrite decide_False; [reflexivity|].
    intros Hin. apply H. now apply registered_after_delete. }
  exists st'. split; [exact Hrun|]. split; [exact Hreg|].
  split.
  { intros r. unfold registered at 1. rewrite Hreg. now apply registered_after_delete. }
  split; [exact Hstore|].
  split.
  { intros r Hr Hne Hp. rewrite Hsent. unfold notices. rewrite Hocc1 by assumption.
    rewrite decide_False by exact Hp. now rewrite app_nil_r. }
  split.
  { intros p -> Hp. rewrite Hsent. unfold notices.
    rewrite Hocc0 by (intros [H _]; contradiction).
    rewrite decide_True by reflexivity. reflexivity. }
  intros Hp. rewrite Hsent. unfold notices.
  rewrite Hocc0 by (intros [_ H]; now apply H).
  rewrite decide_False by exact Hp. now rewrite app_nil_r.
Qed.

Lemma reg_delete_set (k : Z) (v : nat) (l : list (Z * nat)) :
  reg_delete k (reg_set k v l) = reg_delete k l.
Proof.
  unfold reg_delete. induction l as [|[k' v'] l IH]; simpl.
  - rewrite filter_cons. simpl. rewrite decide_False by (intros Hc; now apply Hc). reflexivity.
  - destruct (Z.ltb_spec k k').
    + rewrite filter_cons. simpl. rewrite decide_False by (intros Hc; now apply Hc). reflexivity.
    + destruct (Z.eqb_spec k k') as [<-|Hne].
      * rewrite !filter_cons. simpl. rewrite !decide_False by (intros Hc; now apply Hc).
        reflexivity.
      * rewrite !(filter_cons _ (k', v')). simpl.
        rewrite !decide_True by congruence. now rewrite IH.
Qed.

Lemma reg_delete_absent (k : Z) (l : list (Z * nat)) :
  reg_get k l = None -> reg_delete k l = l.
Proof.
  unfold reg_delete. induction l as [|[k' v'] l IH]; simpl; [reflexivity|].
  destruct (Z.eqb_spec k k') as [->|Hne]; [discriminate|].
  intros H. rewrite filter_cons. simpl. rewrite decide_True by congruence. now rewrite IH.
Qed.

Lemma reg_get_delete (k : Z) (l : list (Z * nat)) : reg_get k (reg_delete k l) = None.
Proof.
  unfold reg_delete. induction l as [|[k' v'] l IH]; simpl; [reflexivity|].
  rewrite filter_cons. simpl. destruct (decide (k' ≠ k)) as [H|H]; [|exact IH].
  simpl. destruct (Z.eqb_spec k k'); [congruence | exact IH].
Qed.

(** A connection accepted and then closed, before it identifies itself: the
    registry is what it was without the entry of the id the connection was
    given.  When the id was free the registry is as before; when another
    connection held it, that connection's entry is gone although it has not
    left.  The counter has advanced, and the store has no record under the
    uuid. *)
Theorem accept_then_close (socket : nat) (w : bool) (uuid : jsstring)
    (serverSocket : SocketOrMinus1) (st : State) :
  0 <= playerCount st <= 255 ->
  serverSocket = None
  \/ Z.of_nat (length (reg_set (playerCount st + serverIndex * 256) socket (idToSocket st)))
     <= 255 ->
  exists st1 st2,
    serverCode socket w uuid serverSocket st = Ret tt st1
    /\ playerDisconnect socket serverSocket st1 = Ret tt st2
    /\ idToSocket st2 = reg_delete (playerCount st + serverIndex * 256) (idToSocket st)
    /\ reg_get (playerCount st + serverIndex * 256) (idToSocket st2) = None
    /\ (reg_get (playerCount st + serverIndex * 256) (idToSocket st) = None ->
        idToSocket st2 = idToSocket st)
    /\ playerCount st2 = (playerCount st + 1) mod 256
    /\ socketToData st2 = delete uuid (socketToData st).
Proof.
  intros Hpc Hcap.
  destruct (serverCode_prefix socket w uuid serverSocket st ltac:(unfold serverIndex; lia))
    as (st0 & Hrun & Hpc0 & Hreg0 & Hstore0 & _ & _ & _ & Hsock0).
  rewrite <- Hreg0 in Hcap.
  destruct (serverCode_tail_ret socket serverSocket st0 Hcap)
    as (st1 & Htail & Hpc1 & Hreg1 & Hstore1 & _ & _ & Hs1).
  assert (Hid1 : id (sockets st1 socket) = playerCount st + serverIndex * 256).
  { destruct (Hs1 socket) as (_ & _ & -> & _). now rewrite Hsock0. }
  assert (Huid1 : uid (sockets st1 socket) = VStr uuid).
  { destruct (Hs1 socket) as (_ & -> & _). now rewrite Hsock0. }
  destruct (playerDisconnect_run socket serverSocket st1 uuid) as (st2 & Hrun2 & Hsame & _).
  { rewrite Hid1. unfold serverIndex. lia. }
  { now rewrite Huid1. }
  destruct Hsame as (Hpc2 & Hreg2 & Hstore2 & _). cbn in Hpc2, Hreg2, Hstore2.
  assert (Hreg : idToSocket st2
                 = reg_delete (playerCount st + serverIndex * 256) (idToSocket st)).
  { rewrite Hreg2, Hid1, Hreg1, Hreg0. apply reg_delete_set. }
  exists st1, st2. split; [now rewrite Hrun|]. split; [exact Hrun2|].
  split; [exact Hreg|].
  split; [rewrite Hreg; apply reg_get_delete|].
  split; [intros Hfree; rewrite Hreg; now apply reg_delete_absent|].
  split; [now rewrite Hpc2, Hpc1|].
  now rewrite Hstore2, Hstore1, Hstore0.
Qed.

End Leaving.

(** ** The parent connection *)

Section Parent.
Context {rt : Runtime}.

Lemma parentData_type (fuel p : nat) (mode : byte) (rest : Buffer) (st : State) :
  parentData fuel p (x2b :: mode :: rest) st
  = Ret tt (sendTo p typePacket
              (set_buf typePacket
                 (if byteZ mode =? 1 then set_unifiedCluster true st else st))).
Proof.
  unfold parentData. cbv zeta.
  assert (H0 : readUInt8 (x2b :: mode :: rest) 0 = Some clusterNet.type).
  { unfold readUInt8, inRange, byteLength. simpl length.
    destruct (Z.leb_spec (0 + 1) (Z.of_nat (S (S (length rest))))); [reflexivity | lia]. }
  assert (H1 : readUInt8 (x2b :: mode :: rest) 1 = Some (byteZ mode)).
  { unfold readUInt8, inRange, byteLength. simpl length.
    destruct (Z.leb_spec (1 + 1) (Z.of_nat (S (S (length rest))))); [reflexivity | lia]. }
  rewrite H0. unfold orThrow at 1. erewrite bind_Ret by reflexivity.
  change (clusterNet.type =? clusterNet.miscData) with false.
  change (clusterNet.type =? clusterNet.type) with true. cbv iota.
  rewrite H1. unfold orThrow at 1. erewrite bind_Ret by reflexivity.
  set (st0 := if byteZ mode =? 1 then set_unifiedCluster true st else st).
  erewrite (bind_Ret _ _ st st0 tt) by (unfold st0; destruct (byteZ mode =? 1); reflexivity).
  clearbody st0.
  rewrite fill0_buf_k. unfold buf_writeUInt8 at 1.
  erewrite bufOp_k;
    [| exact (write_u8_cursor [] 511 clusterNet.type ltac:(unfold clusterNet.type; lia))].
  unfold buf_writeUInt8.
  erewrite bufOp_k;
    [| exact (write_u8_cursor [Zbyte clusterNet.type] 510 1 ltac:(lia))].
  unfold buf_writeUInt16LE.
  erewrite bufOp_k with (b := typePacket); [| vm_compute; reflexivity].
  rewrite send_buf_run. reflexivity.
Qed.

(** Type negotiation on the parent connection: a type packet sets
    [unifiedCluster] when its second byte is 1 and leaves it as it is
    otherwise (it is never cleared), and is answered with one packet to the
    parent: the type byte, then the port 63456 as uint16-LE at offset 1.  The
    byte 1 written at offset 1 before the port is overwritten by the port's
    low byte.  A type packet of one byte throws RangeError. *)
Theorem type_negotiation (fuel p : nat) (mode : byte) (rest : Buffer) (st : State) :
  parentData fuel p (x2b :: mode :: rest) st
  = Ret tt (sendTo p typePacket
              (set_buf typePacket
                 (if byteZ mode =? 1 then set_unifiedCluster true st else st)))
  /\ parentData fuel p [x2b] st = Throw RangeError st
  /\ byteLength typePacket = 512
  /\ byteAt typePacket 0 = clusterNet.type
  /\ uint16At typePacket 1 = tcpPort
  /\ byteAt typePacket 1 = tcpPort mod 256.
Proof.
  split; [apply parentData_type|].
  split; [reflexivity|].
  split; [vm_compute; reflexivity|].
  split; [vm_compute; reflexivity|].
  split; vm_compute; reflexivity.
Qed.

Lemma Zbyte_mod (z m : Z) : z mod 256 = m -> Zbyte z = Zbyte m.
Proof.
  intros H. unfold Zbyte. rewrite H.
  assert (Hm : m mod 256 = m) by (rewrite <- H; apply Z.mod_mod; lia).
  now rewrite Hm.
Qed.

(** The listener of the parent connection switches on the first byte of a
    read, which in a relayed sub-packet is the low byte of its length.  A
    relayed read whose first sub-packet has a length of 43 modulo 256 is
    therefore taken for a type packet, whatever its own type: none of its
    sub-packets is processed, the parent is sent the type reply, and when the
    high byte of the length is 1 (a sub-packet of 299 bytes) the node switches
    to the unified mode. *)
Theorem relayed_read_taken_for_type (fuel p : nat) (sub : Z * list byte)
    (more : list (Z * list byte)) (st : State) :
  frameLength sub.2 mod 256 = clusterNet.type ->
  parentData fuel p (encodeRead (sub :: more)) st
  = Ret tt (sendTo p typePacket
              (set_buf typePacket
                 (if (frameLength sub.2 / 256) mod 256 =? 1
                  then set_unifiedCluster true st else st))).
Proof.
  intros Hlen.
  change (encodeRead (sub :: more))
    with (Zbyte (frameLength sub.2) :: Zbyte (frameLength sub.2 / 256)
            :: (Zbyte sub.1 :: sub.2) ++ encodeRead more).
  rewrite (Zbyte_mod _ _ Hlen). change (Zbyte clusterNet.type) with x2b.
  rewrite parentData_type, byteZ_Zbyte. reflexivity.
Qed.

End Parent.

(** ** Reads relayed by the parent *)

Section Relay.
Context {rt : Runtime}.

Lemma targets_everyone (cond : State -> nat -> bool) (st : State) (socks : list nat) :
  (forall r, r ∈ socks -> cond st r = true) -> targets cond st socks = socks.
Proof.
  intros H. unfold targets. induction socks as [|a l IH]; [reflexivity|].
  rewrite filter_cons. rewrite decide_True by (apply H; left).
  f_equal. apply IH. intros r Hr. apply H. now right.
Qed.

(** A read on the parent connection that is one chat sub-packet relayed from
    another node (and whose length byte is not one of the three control types)
    goes through processPacket with the parent as the sender: every registered
    session is sent the chat packet once, the parent nothing.  The parent's id
    is -1, which no registered session has. *)
Theorem cluster_chat_delivered (fuel p : nat) (payload : list byte) (st : State) :
  nodeInv st ->
  id (sockets st p) = -1 ->
  wellFormed (clientNet.message, payload) ->
  frameLength payload mod 256 <> clusterNet.miscData ->
  frameLength payload mod 256 <> clusterNet.type ->
  frameLength payload mod 256 <> clusterNet.serverData ->
  exists st',
    parentData (S fuel) p (encodeRead [(clientNet.message, payload)]) st = Ret tt st'
    /\ (forall r, registered st r ->
          sent (sockets st' r)
          = sent (sockets st r) ++ [chatPacket (decodePayload payload)])
    /\ sent (sockets st' p) = sent (sockets st p).
Proof.
  intros (Hwf & Hkeys & _) Hp Hsub H42 H43 H44.
  set (data := encodeRead [(clientNet.message, payload)]).
  assert (Hdata : data = [] ++ encodeFrame (clientNet.message, payload) ++ [])
    by (unfold data, encodeRead; simpl; now rewrite !app_nil_r).
  destruct (read_frame_header [] [] (clientNet.message, payload) Hsub) as [Hlen Hty].
  rewrite <- Hdata in Hlen, Hty. change (byteLength []) with 0 in Hlen, Hty.
  simpl fst in Hty. simpl snd in Hlen.
  assert (Htot : byteLength data = frameLength payload).
  { rewrite Hdata, app_nil_l, app_nil_r. apply byteLength_encodeFrame. }
  assert (Hfl : 3 <= frameLength payload)
    by (unfold frameLength; pose proof (byteLength_nonneg payload); lia).
  assert (H0 : readUInt8 data 0 = Some (frameLength payload mod 256)).
  { unfold readUInt8, inRange. rewrite Htot.
    destruct (Z.leb_spec (0 + 1) (frameLength payload)); [|lia].
    simpl. f_equal. unfold data, encodeRead, byteAt. simpl. apply byteZ_Zbyte. }
  assert (Hreg : forall r, registered st r -> id (sockets st r) <> id (sockets st p)).
  { intros r Hr. pose proof (registered_id st r Hwf Hr) as Hin.
    apply (list_elem_of_fmap_2 fst) in Hin. simpl in Hin.
    rewrite Forall_forall in Hkeys. specialize (Hkeys _ Hin). lia. }
  destruct (caseMessage_run p data 0 (0 + frameLength payload) st)
    as (st' & Hrun & _ & Hsent).
  assert (Htext : readBufString data (3 + 0) (0 + frameLength payload) = decodePayload payload).
  { rewrite Hdata. apply (readBufString_payload [] [] (clientNet.message, payload)). }
  rewrite Htext in Hsent.
  assert (Htargets : targets (differs p) st (Object_values (idToSocket st))
                     = Object_values (idToSocket st)).
  { apply targets_everyone. intros r Hr. unfold differs.
    apply negb_true_iff. apply Z.eqb_neq. now apply Hreg. }
  exists st'. split.
  - unfold parentData. cbv zeta. fold data. rewrite H0. unfold orThrow at 1.
    erewrite bind_Ret by reflexivity.
    rewrite (proj2 (Z.eqb_neq _ _) H42), (proj2 (Z.eqb_neq _ _) H43),
      (proj2 (Z.eqb_neq _ _) H44).
    unfold processPacket.
    rewrite (packetLoop_step fuel (S fuel) p data None 0 (frameLength payload)
               clientNet.message st ltac:(lia) Hlen Hty).
    change (dispatch (S fuel) p data None 0 (0 + frameLength payload) clientNet.message)
      with (caseMessage p data 0 (0 + frameLength payload)).
    rewrite (bind_Ret _ _ _ _ _ Hrun).
    apply packetLoop_done. lia.
  - split.
    + intros r Hr. rewrite Hsent, Htargets.
      rewrite occurrences_NoDup by now apply regWF_values_NoDup.
      rewrite decide_True by exact Hr. reflexivity.
    + rewrite Hsent, occurrences_self. now rewrite app_nil_r.
Qed.

End Relay.

(** ** The position packet *)

Section Position.
Context {rt : Runtime}.

Lemma toInt16_wrap (x : Z) :
  -32768 <= x <= 32767 -> toInt16 (x mod 256 + 256 * ((x / 256) mod 256)) = x.
Proof.
  intros Hx. unfold toInt16.
  assert (H : x mod 256 + 256 * ((x / 256) mod 256) = x mod 65536).
  { rewrite (Z.mod_eq (x / 256) 256) by lia.
    rewrite Z.div_div by lia. change (256 * 256) with 65536.
    rewrite (Z.mod_eq x 256) by lia. rewrite (Z.mod_eq x 65536) by lia. lia. }
  rewrite H.
  destruct (Z_lt_le_dec x 0).
  - assert (Hm : x mod 65536 = x + 65536).
    { symmetry. apply (Z.mod_unique x 65536 (-1)); lia. }
    rewrite Hm. destruct (Z.ltb_spec (x + 65536) 32768); lia.
  - rewrite Z.mod_small by lia. destruct (Z.ltb_spec x 32768); lia.
Qed.

(** A position sent on by sendPlayerData reads back as it was: the packet is
    the whole 512-byte buffer with the type at offset 0, the sender's id as
    uint16-LE at offset 1, x and y as int16-LE at offsets 3 and 5 and the
    facing byte at offset 7. *)
Theorem position_round_trip (ty x y facing from : Z) (to : nat) (st : State) :
  0 <= ty <= 255 -> 0 <= from <= 65535 ->
  -32768 <= x <= 32767 -> -32768 <= y <= 32767 -> 0 <= facing <= 255 ->
  exists pkt,
    sendPlayerData ty (DPos x y facing) from (Some to) st
    = Ret tt (sendTo to pkt (set_buf pkt st))
    /\ byteLength pkt = 512
    /\ readUInt8 pkt 0 = Some ty
    /\ uint16At pkt 1 = from
    /\ readInt16LE pkt 3 = Some x
    /\ readInt16LE pkt 5 = Some y
    /\ readUInt8 pkt 7 = Some facing.
Proof.
  intros Hty Hfrom Hx Hy Hfacing.
  exists (playerDataPacket ty (DPos x y facing) from).
  split; [apply sendPlayerData_run; simpl; auto|].
  assert (Hlen : byteLength (playerDataPacket ty (DPos x y facing) from) = 512).
  { unfold byteLength, playerDataPacket, pad, le16. rewrite length_app.
    unfold Buffer_alloc. rewrite length_replicate. simpl. reflexivity. }
  split; [exact Hlen|].
  assert (Hin : forall off n, 0 <= off -> off + n <= 512 ->
            inRange (playerDataPacket ty (DPos x y facing) from) off n = true).
  { intros off n H0 Hn. unfold inRange. rewrite Hlen.
    apply andb_true_intro. split; [now apply Z.leb_le | now apply Z.leb_le]. }
  split.
  { unfold readUInt8. rewrite Hin by lia. unfold byteAt, playerDataPacket, pad. simpl.
    rewrite byteZ_Zbyte, Z.mod_small by lia. reflexivity. }
  split; [apply uint16_le16; exact Hfrom|].
  split.
  { unfold readInt16LE. rewrite Hin by lia. unfold byteAt, playerDataPacket, pad, le16. simpl.
    rewrite !byteZ_Zbyte. now rewrite toInt16_wrap. }
  split.
  { unfold readInt16LE. rewrite Hin by lia. unfold byteAt, playerDataPacket, pad, le16. simpl.
    rewrite !byteZ_Zbyte. now rewrite toInt16_wrap. }
  unfold readUInt8. rewrite Hin by lia. unfold byteAt, playerDataPacket, pad, le16. simpl.
  rewrite byteZ_Zbyte, Z.mod_small by lia. reflexivity.
Qed.

End Position.

(** ** Identity packets: leaving again, and the parent as sender *)

Section Identity_edges.
Context {rt : Runtime}.

(** A session identifies itself and then leaves: the record stored for it is
    deleted again and the player store is as it was before the identity
    packet, under whatever uid the record was stored; the session's registry
    entry is gone. *)
Theorem identity_then_disconnect (fuel S : nat) (data : Buffer)
    (serverSocket : SocketOrMinus1) (_offset _end : Z) (st : State)
    (props : list (jsstring * Value)) (k0 : jsstring) :
  nodeInv st ->
  registered st S ->
  JSON_parse (readBufString data (3 + _offset) _end) = Some (VObj props) ->
  ToString (default VUndef (assoc_get (js "uid") props)) = Some k0 ->
  (keyBound (socketToData st) <= fuel)%nat ->
  (forall r, registered st r -> r <> S -> hasRecord st r) ->
  exists st1 st2,
    dispatch fuel S data serverSocket _offset _end clientNet.ID st = Ret tt st1
    /\ playerDisconnect S serverSocket st1 = Ret tt st2
    /\ socketToData st2 = socketToData st
    /\ idToSocket st2 = reg_delete (id (sockets st S)) (idToSocket st)
    /\ ~ registered st2 S.
Proof.
  intros Hinv HS Hparse Hk Hfuel Hpeers.
  pose proof Hinv as (Hwf & Hkeys & _).
  pose proof (registered_id st S Hwf HS) as Hentry.
  assert (Hid : 0 <= id (sockets st S) <= 255).
  { apply (list_elem_of_fmap_2 fst) in Hentry. simpl in Hentry.
    rewrite Forall_forall in Hkeys. now apply Hkeys. }
  change (dispatch fuel S data serverSocket _offset _end clientNet.ID)
    with (caseID fuel S data _offset _end).
  destruct (caseID_run fuel S data _offset _end st props k0 Hparse Hk Hfuel Hid)
    as (st1 & n & Hrun & _ & Hfree & Hstore & Huid & Hreg & _).
  { intros r Hr Hd. apply Hpeers; [exact Hr|].
    intros ->. unfold differs in Hd. rewrite Z.eqb_refl in Hd. discriminate. }
  assert (Hinv1 : nodeInv st1).
  { assert (HI : nodeInvSince false st) by (split; [exact Hinv | discriminate]).
    pose proof (keeps_caseID false fuel S data _offset _end st HI) as H.
    rewrite Hrun in H. apply H. }
  assert (Hid1 : id (sockets st1 S) = id (sockets st S)).
  { destruct Hinv1 as ([_ Hids] & _). apply Hids. now rewrite Hreg. }
  destruct (playerDisconnect_run S serverSocket st1 (marked k0 n)
              ltac:(rewrite Hid1; lia) Huid)
    as (st2 & Hrun2 & Hsame & _).
  destruct Hsame as (_ & Hreg2 & Hstore2 & _). cbn in Hreg2, Hstore2.
  exists st1, st2. split; [exact Hrun|]. split; [exact Hrun2|].
  split.
  { rewrite Hstore2, Hstore. apply delete_insert_id.
    destruct (socketToData st !! marked k0 n) as [v|] eqn:E; [|reflexivity].
    apply inStore_own in E. congruence. }
  split; [now rewrite Hreg2, Hid1, Hreg|].
  unfold registered. rewrite Hreg2, Hid1, Hreg.
  intros Hin. apply (registered_after_delete st S S Hwf HS) in Hin as [_ Hne].
  now apply Hne.
Qed.

(** An identity packet processed with the parent as the sender, as when the
    parent relays one: the record is stored and the parent's uid replaced, then
    writing the id -1 into the playerObj packet throws RangeError; no session
    is sent anything. *)
Theorem identity_from_parent_throws (fuel p : nat) (data : Buffer)
    (serverSocket : SocketOrMinus1) (_offset _end : Z) (st : State)
    (props : list (jsstring * Value)) (k0 : jsstring) :
  id (sockets st p) = -1 ->
  JSON_parse (readBufString data (3 + _offset) _end) = Some (VObj props) ->
  ToString (default VUndef (assoc_get (js "uid") props)) = Some k0 ->
  (keyBound (socketToData st) <= fuel)%nat ->
  exists st' n,
    dispatch fuel p data serverSocket _offset _end clientNet.ID st = Throw RangeError st'
    /\ inStore (socketToData st) (marked k0 n) = false
    /\ socketToData st'
       = <[marked k0 n := VObj (dedupedProps props k0 n)]> (socketToData st)
    /\ ToString (uid (sockets st' p)) = Some (marked k0 n)
    /\ idToSocket st' = idToSocket st
    /\ forall r, sent (sockets st' r) = sent (sockets st r).
Proof.
  intros Hp Hparse Hk Hfuel.
  destruct (marker_count (socketToData st) fuel k0 ltac:(lia)) as (n & Hn & Hbusy & Hfree).
  change (dispatch fuel p data serverSocket _offset _end clientNet.ID)
    with (caseID fuel p data _offset _end).
  unfold caseID. cbv zeta. rewrite Hparse.
  unfold orThrow at 1. unfold ret at 1. erewrite bind_Ret by reflexivity.
  erewrite bind_Ret; [| exact (dedupe_object n fuel props k0 st Hk Hbusy Hfree Hn)].
  unfold getProp, orThrow at 1. unfold ret at 1. erewrite bind_Ret by reflexivity.
  rewrite setSock_k.
  unfold toKey. rewrite (dedupedProps_uid props k0 n Hk).
  unfold ret at 1. erewrite bind_Ret by reflexivity.
  rewrite modify_k.
  match goal with |- context [bind bufLarge_fill0 ?k ?s] => set (st_m := s) end.
  assert (Hid_m : id (sockets st_m p) = -1).
  { unfold st_m. simpl. rewrite upd_same. exact Hp. }
  assert (Huid_m : ToString (uid (sockets st_m p)) = Some (marked k0 n)).
  { unfold st_m. simpl. rewrite upd_same. simpl. apply (dedupedProps_uid props k0 n Hk). }
  assert (Hsent_m : forall r, sent (sockets st_m r) = sent (sockets st r)).
  { intros r. unfold st_m. simpl. unfold upd. destruct (Nat.eqb_spec r p); subst; reflexivity. }
  assert (Hstore_m : socketToData st_m
                     = <[marked k0 n := VObj (dedupedProps props k0 n)]> (socketToData st))
    by reflexivity.
  assert (Hreg_m : idToSocket st_m = idToSocket st) by reflexivity.
  clearbody st_m.
  rewrite fill0_bufLarge_k. unfold bufLarge_writeUInt8 at 1.
  erewrite bufOp_k;
    [| exact (write_u8_cursor [] 4095 serverNet.playerObj
                ltac:(unfold serverNet.playerObj; lia))].
  rewrite gets_k. cbv beta. unfold bufLarge_writeUInt8.
  rewrite bufOp_throw.
  2:{ cbn [sockets set_bufLarge]. rewrite Hid_m. reflexivity. }
  eexists _, n. split; [reflexivity|].
  split; [exact Hfree|]. split; [exact Hstore_m|]. split; [exact Huid_m|].
  split; [exact Hreg_m | exact Hsent_m].
Qed.

End Identity_edges.

(** ** Length fields that do not match the read *)

Section Lengths.
Context {rt : Runtime}.

Lemma toStringUtf8_clamp (str : Buffer) (ind end_ : Z) :
  byteLength str <= end_ -> toStringUtf8 str ind end_ = toStringUtf8 str ind (byteLength str).
Proof.
  intros H. unfold toStringUtf8. cbv zeta.
  destruct (byteLength str <=? Z.max 0 ind); [reflexivity|].
  rewrite Z.ltb_irrefl.
  destruct (Z.ltb_spec (byteLength str) end_); [reflexivity|].
  now replace end_ with (byteLength str) by lia.
Qed.

(** A chat sub-packet whose length field is larger than what the read holds,
    as when a TCP read ends inside it: it is delivered with the text that did
    arrive, and the loop ends. *)
Theorem truncated_chat_delivered (fuel socket : nat) (serverSocket : SocketOrMinus1)
    (data : Buffer) (len : Z) (st : State) :
  readInt16LE data 0 = Some len ->
  readUInt8 data 2 = Some clientNet.message ->
  byteLength data <= len ->
  exists st',
    processPacket (S fuel) socket data serverSocket st = Ret tt st'
    /\ sameButSent st st'
    /\ forall r,
         sent (sockets st' r)
         = sent (sockets st r)
           ++ replicate (occurrences r (targets (differs socket) st
                                          (Object_values (idToSocket st))))
                (chatPacket (readBufString data 3 (byteLength data))).
Proof.
  intros Hlen Hty Hshort.
  assert (Hlt : 0 < byteLength data).
  { unfold readUInt8, inRange in Hty.
    destruct (Z.leb_spec (2 + 1) (byteLength data)); [lia|].
    rewrite andb_false_r in Hty. discriminate. }
  destruct (caseMessage_run socket data 0 (0 + len) st) as (st' & Hrun & Hsame & Hsent).
  assert (Htext : readBufString data (3 + 0) (0 + len)
                  = readBufString data 3 (byteLength data)).
  { unfold readBufString. change (3 + 0) with 3. now rewrite toStringUtf8_clamp by lia. }
  rewrite Htext in Hsent.
  exists st'. split; [|split; [exact Hsame | exact Hsent]].
  unfold processPacket.
  rewrite (packetLoop_step fuel (S fuel) socket data serverSocket 0 len clientNet.message st
             Hlt Hlen Hty).
  change (dispatch (S fuel) socket data serverSocket 0 (0 + len) clientNet.message)
    with (caseMessage socket data 0 (0 + len)).
  rewrite (bind_Ret _ _ _ _ _ Hrun). apply packetLoop_done. lia.
Qed.

(** A heartbeat sub-packet whose length field is negative: it is answered,
    then the loop reads the next header at a negative offset, which throws
    RangeError. *)
Theorem negative_length_throws (fuel socket : nat) (serverSocket : SocketOrMinus1)
    (data : Buffer) (len : Z) (st : State) :
  readInt16LE data 0 = Some len ->
  readUInt8 data 2 = Some clientNet.heartbeat ->
  len < 0 ->
  processPacket (S (S fuel)) socket data serverSocket st
  = Throw RangeError (sendTo socket heartbeatPacket (set_buf heartbeatPacket st)).
Proof.
  intros Hlen Hty Hneg.
  assert (Hlt : 0 < byteLength data).
  { unfold readUInt8, inRange in Hty.
    destruct (Z.leb_spec (2 + 1) (byteLength data)); [lia|].
    rewrite andb_false_r in Hty. discriminate. }
  unfold processPacket.
  rewrite (packetLoop_step (S fuel) (S (S fuel)) socket data serverSocket 0 len
             clientNet.heartbeat st Hlt Hlen Hty).
  change (dispatch (S (S fuel)) socket data serverSocket 0 (0 + len) clientNet.heartbeat)
    with (caseHeartbeat socket).
  rewrite (bind_Ret _ _ _ _ _ (caseHeartbeat_run socket st)).
  simpl packetLoop.
  destruct (Z.ltb_spec (0 + len) (byteLength data)); [|lia].
  assert (Hread : readInt16LE data (0 + len) = None).
  { unfold readInt16LE, inRange. destruct (Z.leb_spec 0 (0 + len)); [lia | reflexivity]. }
  rewrite Hread. reflexivity.
Qed.

End Lengths.

(** ** What the packets say of their sender *)

Section Packets_sent.
Context {rt : Runtime}.

(** A sub-packet whose type byte is 2 in the default case of the switch: it
    names no field, so forwardPlayerData only relays it. *)
Lemma relay_type2 (data : Buffer) (socket : nat) (dataOffset end_ : Z)
    (serverSocket : SocketOrMinus1) (st : State) :
  readUInt8 data dataOffset = Some serverNet.message ->
  0 <= id (sockets st socket) <= 65535 ->
  exists st',
    forwardPlayerData data socket dataOffset serverSocket end_ st = Ret tt st'
    /\ sameButSent st st'
    /\ forall r,
         sent (sockets st' r)
         = sent (sockets st r)
           ++ replicate (occurrences r (targets (differs socket) st
                                          (Object_values (idToSocket st))))
                (playerDataPacket serverNet.message
                   (DString (readBufString data (1 + dataOffset) end_))
                   (id (sockets st socket)))
           ++ (if unifiedCluster st && bool_decide (serverSocket = Some r)
               then [playerDataPacket serverNet.message
                       (DString (readBufString data (1 + dataOffset) end_))
                       (id (sockets st socket))]
               else []).
Proof.
  intros Hread Hid.
  unfold forwardPlayerData. rewrite Hread. unfold orThrow at 1.
  erewrite bind_Ret by reflexivity.
  change (serverNet.message =? clientNet.message) with false.
  change (serverNet.message =? clientNet.pos) with false.
  change (serverNet.message =? clientNet.myRoom) with false.
  change (serverNet.message =? clientNet.name) with false.
  change (serverNet.message =? clientNet.outfit) with false.
  cbv iota zeta.
  erewrite bind_Ret by reflexivity.
  exact (forward_sends serverNet.message (DString (readBufString data (1 + dataOffset) end_))
           socket serverSocket st ltac:(unfold serverNet.message; lia) I Hid).
Qed.

(** What serverCode sends the connection it accepts. *)
Lemma serverCode_sends_assign (socket : nat) (w : bool) (uuid : jsstring)
    (serverSocket : SocketOrMinus1) (st : State) :
  0 <= playerCount st <= 255 ->
  exists st' rest,
    (serverCode socket w uuid serverSocket st = Ret tt st'
     \/ serverCode socket w uuid serverSocket st = Throw RangeError st')
    /\ id (sockets st' socket) = playerCount st + serverIndex * 256
    /\ sent (sockets st' socket)
       = sent (sockets st socket) ++ assignPacket (id (sockets st' socket)) uuid :: rest
    /\ (serverSocket <> Some socket -> rest = []).
Proof.
  intros Hpc.
  assert (Hid : 0 <= playerCount st + serverIndex * 256 <= 65535) by (unfold serverIndex; lia).
  destruct (serverCode_prefix socket w uuid serverSocket st Hid)
    as (st1 & Hrun & _ & _ & _ & _ & _ & _ & Hsock1).
  assert (Hid1 : id (sockets st1 socket) = playerCount st + serverIndex * 256)
    by (rewrite Hsock1; reflexivity).
  assert (Hsent1 : sent (sockets st1 socket)
                   = sent (sockets st socket)
                     ++ [assignPacket (playerCount st + serverIndex * 256) uuid])
    by (rewrite Hsock1; reflexivity).
  assert (Hcases : (serverSocket = None \/ Z.of_nat (length (idToSocket st1)) <= 255)
                   \/ (exists p, serverSocket = Some p /\ 255 < Z.of_nat (length (idToSocket st1)))).
  { destruct serverSocket as [p|]; [|left; now left].
    destruct (Z_le_gt_dec (Z.of_nat (length (idToSocket st1))) 255); [left; now right|].
    right. exists p. split; [reflexivity | lia]. }
  destruct Hcases as [Hcap|(p & -> & Hfull)].
  - destruct (serverCode_tail_ret socket serverSocket st1 Hcap)
      as (st' & Htail & _ & _ & _ & _ & _ & Hs').
    destruct (Hs' socket) as (_ & _ & Hid' & _ & Hsent').
    exists st', (if decide (serverSocket = Some socket)
                 then [countPacket (Z.of_nat (length (idToSocket st1)))] else []).
    split; [left; rewrite Hrun; exact Htail|].
    split; [now rewrite Hid'|].
    split; [rewrite Hsent', Hsent1, Hid', Hid1, <- app_assoc; reflexivity|].
    intros Hne. now rewrite decide_False.
  - destruct (serverCode_tail_throw socket p st1 Hfull) as (st' & Htail & Hsame).
    destruct Hsame as (_ & _ & _ & _ & _ & Hs').
    exists st', []. split; [right; rewrite Hrun; exact Htail|].
    rewrite Hs'. split; [exact Hid1|]. split; [now rewrite Hsent1, Hid1|]. reflexivity.
Qed.

Lemma occurrences_after_delete (st : State) (mine : Z) (r : nat) :
  regWF st -> registered st r -> id (sockets st r) <> mine ->
  occurrences r (Object_values (reg_delete mine (idToSocket st))) = 1%nat.
Proof.
  intros Hwf Hr Hne.
  rewrite occurrences_NoDup by now apply values_after_delete_NoDup.
  rewrite decide_True; [reflexivity|].
  pose proof (registered_id st r Hwf Hr) as Hin.
  assert (Hin' : (id (sockets st r), r) ∈ reg_delete mine (idToSocket st))
    by (apply reg_delete_elem; now split).
  apply (list_elem_of_fmap_2 snd) in Hin'. exact Hin'.
Qed.

(** C9, as the script has it. The chat packet the message case sends for a
    chat sub-packet (type 25) is the type byte 2 at offset 0, then from
    offset 1 the bytes [write] puts there for the sanitized text, then zeros:
    it depends on the text alone and has no session id field, and it is what
    every registered session whose id differs from the sender's is sent,
    once.  The sanitized text is the decoded payload without its NULs and
    without its first U+0005, in the order it had.  The packets sendPlayerData sends (field updates among them) carry
    the id they are given as a uint16-LE at offset 1; so does the assign
    packet serverCode sends the connection it accepts, with the id it gave
    it, and the leave packet playerDisconnect sends, with the id of the
    connection that left.  A sub-packet whose own type byte is 2 is no chat
    message to the switch: the default case relays it through
    sendPlayerData, so what the other sessions are sent then is the packet
    [relayed], with the chat type byte 2 at offset 0, the sender's id at
    offset 1 and the text from offset 3. *)
Theorem chat_packet_layout (fuel S : nat) (data : Buffer) (serverSocket : SocketOrMinus1)
    (_offset _end : Z) (st : State) (key : jsstring) :
  regWF st ->
  0 <= playerCount st <= 255 ->
  0 <= id (sockets st S) <= 65535 ->
  ToString (uid (sockets st S)) = Some key ->
  (exists st',
     dispatch fuel S data serverSocket _offset _end clientNet.message st = Ret tt st'
     /\ (forall r, registered st r -> id (sockets st r) <> id (sockets st S) ->
           sent (sockets st' r)
           = sent (sockets st r)
             ++ [Zbyte serverNet.message
                   :: written 4095 (readBufString data (3 + _offset) _end)
                   ++ Buffer_alloc
                        (4095 - length (written 4095 (readBufString data (3 + _offset) _end)))])
     /\ (forall r, ~ registered st r \/ id (sockets st r) = id (sockets st S) ->
           sent (sockets st' r) = sent (sockets st r)))
  /\ (0%N ∉ readBufString data (3 + _offset) _end)
  /\ ((5%N ∉ toStringUtf8 data (3 + _offset) _end) ->
      readBufString data (3 + _offset) _end
      = filter (fun x => x <> 0%N) (toStringUtf8 data (3 + _offset) _end))
  /\ (forall pre post,
        toStringUtf8 data (3 + _offset) _end = pre ++ 5%N :: post -> (5%N ∉ pre) ->
        readBufString data (3 + _offset) _end
        = filter (fun x => x <> 0%N) pre ++ filter (fun x => x <> 0%N) post)
  /\ (forall ty _data from to st0,
        0 <= ty <= 255 -> 0 <= from <= 65535 -> fitsPlayerData _data ->
        exists pkt,
          sendPlayerData ty _data from (Some to) st0 = Ret tt (sendTo to pkt (set_buf pkt st0))
          /\ byteAt pkt 0 = ty /\ uint16At pkt 1 = from)
  /\ (readUInt8 data (2 + _offset) = Some serverNet.message ->
      let relayed :=
        playerDataPacket serverNet.message
          (DString (readBufString data (3 + _offset) _end)) (id (sockets st S)) in
      exists st',
        dispatch fuel S data serverSocket _offset _end serverNet.message st = Ret tt st'
        /\ byteAt relayed 0 = serverNet.message
        /\ uint16At relayed 1 = id (sockets st S)
        /\ (forall r, registered st r -> id (sockets st r) <> id (sockets st S) ->
              sent (sockets st' r)
              = sent (sockets st r)
                ++ relayed :: (if unifiedCluster st && bool_decide (serverSocket = Some r)
                               then [relayed] else [])))
  /\ (forall socket w uuid,
        exists st' rest,
          (serverCode socket w uuid serverSocket st = Ret tt st'
           \/ serverCode socket w uuid serverSocket st = Throw RangeError st')
          /\ id (sockets st' socket) = playerCount st + serverIndex * 256
          /\ sent (sockets st' socket)
             = sent (sockets st socket) ++ assignPacket (id (sockets st' socket)) uuid :: rest
          /\ (serverSocket <> Some socket -> rest = [])
          /\ byteAt (assignPacket (id (sockets st' socket)) uuid) 0 = serverNet.assign
          /\ uint16At (assignPacket (id (sockets st' socket)) uuid) 1 = id (sockets st' socket))
  /\ (exists st',
        playerDisconnect S serverSocket st = Ret tt st'
        /\ byteAt (leavePacket (id (sockets st S))) 0 = serverNet.leave
        /\ uint16At (leavePacket (id (sockets st S))) 1 = id (sockets st S)
        /\ (forall r, registered st r -> id (sockets st r) <> id (sockets st S) ->
              sent (sockets st' r)
              = sent (sockets st r)
                ++ leavePacket (id (sockets st S))
                   :: (if decide (serverSocket = Some r)
                       then [leavePacket (id (sockets st S))] else []))).
Proof.
  intros Hwf Hpc Hid Hkey.
  destruct (readBufString_order data (3 + _offset) _end) as (Hnul & Hnone & Hfirst).
  split; [|split; [exact Hnul|]; split; [exact Hnone|]; split; [exact Hfirst|];
           split; [|split; [|split]]].
  - destruct (caseMessage_run S data _offset _end st) as (st' & Hrun & _ & Hsent).
    exists st'. split; [exact Hrun|]. split.
    + intros r Hr Hne. rewrite Hsent, (occurrences_differs S st r Hwf Hr Hne). reflexivity.
    + intros r [Hr|Heq]; rewrite Hsent.
      * rewrite occurrences_unregistered by exact Hr. apply app_nil_r.
      * rewrite (occurrences_same_id S st _ r Heq). apply app_nil_r.
  - intros ty _data from to st0 Hty Hfrom Hfit.
    exists (playerDataPacket ty _data from).
    split; [now apply sendPlayerData_run|]. now apply playerData_header.
  - intros Hread relayed.
    destruct (relay_type2 data S (2 + _offset) _end serverSocket st Hread Hid)
      as (st' & Hrun & _ & Hsent).
    replace (1 + (2 + _offset)) with (3 + _offset) in Hsent by lia. fold relayed in Hsent.
    exists st'. split; [exact Hrun|].
    destruct (playerData_header serverNet.message
                (DString (readBufString data (3 + _offset) _end)) (id (sockets st S))
                ltac:(unfold serverNet.message; lia) Hid) as [Hb Hu].
    split; [exact Hb|]. split; [exact Hu|].
    intros r Hr Hne. rewrite Hsent, (occurrences_differs S st r Hwf Hr Hne). reflexivity.
  - intros socket w uuid.
    destruct (serverCode_sends_assign socket w uuid serverSocket st Hpc)
      as (st' & rest & Hrun & Hid' & Hsent & Hrest).
    exists st', rest. split; [exact Hrun|]. split; [exact Hid'|].
    split; [exact Hsent|]. split; [exact Hrest|].
    apply assign_header. rewrite Hid'. unfold serverIndex. lia.
  - destruct (playerDisconnect_run S serverSocket st key Hid Hkey) as (st' & Hrun & _ & Hsent).
    exists st'. split; [exact Hrun|].
    destruct (leave_header (id (sockets st S)) Hid) as [Hb Hu].
    split; [exact Hb|]. split; [exact Hu|].
    intros r Hr Hne. rewrite Hsent. unfold notices.
    rewrite (occurrences_after_delete st _ r Hwf Hr Hne). reflexivity.
Qed.

End Packets_sent.

(** * Worked examples *)

Section Examples.
Import Example_runtime.
#[local] Existing Instance runtime.

Ltac evaluate := vm_compute; first [reflexivity | lia | discriminate].

Lemma two_registry : idToSocket two = [(0, 0%nat); (1, 1%nat)].
Proof. vm_compute. reflexivity. Qed.

Lemma two_regWF : regWF two.
Proof.
  split.
  - rewrite two_registry. simpl. repeat constructor; lia.
  - rewrite two_registry. intros k r H.
    repeat (apply elem_of_cons in H as [H|H]; [inversion H; subst; evaluate|]).
    inversion H.
Qed.

Lemma two_registered (r : nat) : (r < 2)%nat -> registered two r.
Proof.
  intros H. unfold registered. rewrite two_registry. simpl.
  destruct r as [|[|r]]; [left | right; left | lia].
Qed.

(** A chat message and a heartbeat in one read; and a heartbeat, an email and
    a heartbeat in one read, where the email case throws. *)
Lemma processPacket_frames_witness :
  Forall wellFormed [(clientNet.message, text "hi"); (clientNet.heartbeat, [])]
  /\ (length [(clientNet.message, text "hi"); (clientNet.heartbeat, @nil byte)] <= 2)%nat
  /\ processPacket 2 0 (encodeRead [(clientNet.message, text "hi"); (clientNet.heartbeat, [])])
       None two
     = dispatchAll 2 0 (encodeRead [(clientNet.message, text "hi"); (clientNet.heartbeat, [])])
         None [(0, 5, clientNet.message); (5, 8, clientNet.heartbeat)] two
  /\ slice (encodeRead [(clientNet.message, text "hi"); (clientNet.heartbeat, [])]) 3 5
     = text "hi"
  /\ Forall wellFormed heartbeatEmailHeartbeat
  /\ (length heartbeatEmailHeartbeat <= 5)%nat
  /\ processPacket 5 0 (encodeRead heartbeatEmailHeartbeat) None one
     = Throw ReferenceError afterFirstHeartbeat.
Proof.
  assert (Hwf : Forall wellFormed [(clientNet.message, text "hi"); (clientNet.heartbeat, [])])
    by (repeat constructor; evaluate).
  assert (Hwf3 : Forall wellFormed heartbeatEmailHeartbeat) by (repeat constructor; evaluate).
  assert (Hlen3 : (length heartbeatEmailHeartbeat <= 5)%nat) by (simpl; lia).
  destruct (processPacket_frames 2 0 None
              [(clientNet.message, text "hi"); (clientNet.heartbeat, [])] two Hwf (le_n 2))
    as (Hrun & _ & _ & _).
  destruct (processPacket_frames 5 0 None heartbeatEmailHeartbeat one Hwf3 Hlen3)
    as (_ & _ & _ & _ & _ & Hthrow).
  split; [exact Hwf|]. split; [apply le_n|]. split; [exact Hrun|].
  split; [vm_compute; reflexivity|]. split; [exact Hwf3|]. split; [exact Hlen3|].
  apply (Hthrow [(clientNet.heartbeat, [])] (clientNet.email, text "bug")
           [(clientNet.heartbeat, [])] afterFirstHeartbeat ReferenceError afterFirstHeartbeat
           eq_refl); evaluate.
Defined.

(** A heartbeat, an email and a heartbeat in one read of three well-formed
    sub-packets: the first heartbeat is answered, the email case throws, and
    the read ends there, with one sub-packet dispatched to its end and the
    third never reached: connection 0 has one heartbeat reply, not two. *)
Lemma later_sub_packets_not_dispatched :
  Forall wellFormed heartbeatEmailHeartbeat
  /\ length heartbeatEmailHeartbeat = 3%nat
  /\ processPacket 5 0 (encodeRead heartbeatEmailHeartbeat) None one
     = Throw ReferenceError (sendTo 0 heartbeatPacket (set_buf heartbeatPacket one))
  /\ sent (sockets (sendTo 0 heartbeatPacket (set_buf heartbeatPacket one)) 0)
     = sent (sockets one 0) ++ [heartbeatPacket].
Proof.
  split; [repeat constructor; evaluate|]. split; [reflexivity|]. split; evaluate.
Qed.

(** Connection 0 of two says "hi": connection 1 gets it, connection 0 does
    not. *)
Lemma chat_broadcast_witness :
  regWF two
  /\ exists st',
       dispatch 0 0 chatHi None 0 5 clientNet.message two = Ret tt st'
       /\ sent (sockets st' 1) = sent (sockets two 1) ++ [chatPacket (js "hi")]
       /\ sent (sockets st' 0) = sent (sockets two 0).
Proof.
  split; [exact two_regWF|].
  destruct (chat_broadcast 0 0 chatHi None 0 5 two two_regWF)
    as (st' & Hrun & Hothers & _ & _ & Hself & _).
  exists st'. split; [exact Hrun|]. split; [|exact Hself].
  exact (Hothers 1%nat (two_registered 1 ltac:(lia)) ltac:(evaluate)).
Defined.

(** Connection 0 of two is torn down twice. *)
Lemma playerDisconnect_twice_witness :
  0 <= id (sockets two 0) <= 65535
  /\ ToString (uid (sockets two 0)) = Some (uuidOf 0)
  /\ exists st1 st2,
       playerDisconnect 0 None two = Ret tt st1
       /\ playerDisconnect 0 None st1 = Ret tt st2
       /\ idToSocket st2 = idToSocket st1
       /\ sent (sockets st1 1) = sent (sockets two 1) ++ notices 0 (idToSocket st1) None 1
       /\ sent (sockets st2 1) = sent (sockets st1 1) ++ notices 0 (idToSocket st1) None 1.
Proof.
  assert (Hid : 0 <= id (sockets two 0) <= 65535) by (split; evaluate).
  assert (Hkey : ToString (uid (sockets two 0)) = Some (uuidOf 0)) by evaluate.
  split; [exact Hid|]. split; [exact Hkey|].
  destruct (playerDisconnect_twice 0 None two (uuidOf 0) Hid Hkey)
    as (st1 & st2 & Hrun1 & Hrun2 & Hreg & _ & Hsent & _).
  exists st1, st2. split; [exact Hrun1|]. split; [exact Hrun2|]. split; [exact Hreg|].
  exact (Hsent 1%nat).
Defined.

(** An "error" event followed by the "close" event that Node emits after it:
    the teardown runs twice, and the remaining connection 1 is sent the leave
    packet twice. *)
Lemma disconnect_twice_rebroadcasts :
  onEvent 0 0 None EvError two = Ret tt afterError
  /\ onEvent 0 0 None EvClose afterError = Ret tt afterClose
  /\ sent (sockets afterError 1) = sent (sockets two 1) ++ [leavePacket 0]
  /\ sent (sockets afterClose 1) = sent (sockets afterError 1) ++ [leavePacket 0].
Proof.
  split; [evaluate|]. split; [evaluate|]. split; evaluate.
Qed.

Lemma p1ThenGuest_registry : idToSocket p1ThenGuest = [(0, 0%nat); (1, 1%nat)].
Proof. vm_compute. reflexivity. Qed.


Lemma p1ThenGuest_peers (r : nat) :
  registered p1ThenGuest r -> r <> 1%nat -> hasRecord p1ThenGuest r.
Proof.
  unfold registered. rewrite p1ThenGuest_registry. simpl. intros H Hne.
  repeat (apply elem_of_cons in H as [H|H]; [subst|]); [|contradiction|inversion H].
  split; [split; evaluate|].
  exists (js "p1"), (VObj [(js "uid", VStr (js "p1"))]).
  split; [evaluate|]. split; [evaluate | discriminate].
Qed.




(** A heartbeat, then an identity whose payload is not JSON, then another
    heartbeat: the first heartbeat is answered, the run throws at the
    identity, the second heartbeat is never reached. *)
Lemma malformed_json_aborts_witness :
  Forall wellFormed [(clientNet.heartbeat, @nil byte)]
  /\ wellFormed (clientNet.ID, text "{")
  /\ JSON_parse (decodePayload (text "{")) = None
  /\ dispatchAll 5 0 (encodeRead heartbeatBrokenHeartbeat) None
       (layout 0 [(clientNet.heartbeat, [])]) one = Ret tt afterFirstHeartbeat
  /\ processPacket 5 0 (encodeRead heartbeatBrokenHeartbeat) None one
     = Throw SyntaxError afterFirstHeartbeat
  /\ sent (sockets afterFirstHeartbeat 0) = sent (sockets one 0) ++ [heartbeatPacket].
Proof.
  assert (Hwf : Forall wellFormed [(clientNet.heartbeat, @nil byte)])
    by (repeat constructor; evaluate).
  assert (Hbad : wellFormed (clientNet.ID, text "{")) by (repeat constructor; evaluate).
  assert (Hparse : JSON_parse (decodePayload (text "{")) = None) by evaluate.
  assert (Hrun : dispatchAll 5 0 (encodeRead heartbeatBrokenHeartbeat) None
                   (layout 0 [(clientNet.heartbeat, [])]) one = Ret tt afterFirstHeartbeat)
    by evaluate.
  split; [exact Hwf|]. split; [exact Hbad|]. split; [exact Hparse|]. split; [exact Hrun|].
  split; [|evaluate].
  exact (malformed_json_aborts 5 0 None [(clientNet.heartbeat, [])] [(clientNet.heartbeat, [])]
           clientNet.ID (text "{") one afterFirstHeartbeat Hwf Hbad ltac:(simpl; lia)
           (or_introl eq_refl) Hparse Hrun).
Defined.

(** An identity whose payload is not JSON, followed by a heartbeat: the run
    throws SyntaxError and the state is as before, so the heartbeat got no
    answer; the same heartbeat alone is answered. *)
Lemma malformed_json_stops_read :
  processPacket 5 0 brokenThenHeartbeat None one = Throw SyntaxError one
  /\ processPacket 5 0 (encodeRead [(clientNet.heartbeat, [])]) None one
     = Ret tt (sendTo 0 heartbeatPacket (set_buf heartbeatPacket one)).
Proof.
  split; evaluate.
Qed.

(** C8, where the script departs from it. The payload of the chat sub-packet
    [05 00 19 05 05] holds U+0005 twice: readBufString returns a string that
    still holds one.  So it does on a payload with NULs around the markers:
    the NULs are all gone, the second U+0005 is not. *)
Theorem second_marker_survives :
  readBufString [x05; x00; x19; x05; x05] 3 5 = [5%N]
  /\ readBufString [x00; x41; x00; x05; x42; x05] 0 6 = [65%N; 66%N; 5%N].
Proof.
  split; evaluate.
Qed.




(** Connection 0 lost its registry entry to connection 256, which was given
    its id; it is still open and still has its data listener.  It says hi:
    connection 256, registered and another connection than the sender, is
    sent nothing, since the loop leaves out by id. *)
Lemma displaced_sender_not_heard :
  regWF collided
  /\ registered collided 256
  /\ closed (sockets collided 0) = false
  /\ listening (sockets collided 0) = true
  /\ id (sockets collided 0) = id (sockets collided 256)
  /\ exists st',
       dispatch 0 0 chatHi None 0 5 clientNet.message collided = Ret tt st'
       /\ sent (sockets st' 256) = sent (sockets collided 256).
Proof.
  assert (Hreg : idToSocket collided = [(0, 256%nat)]) by evaluate.
  split.
  { split.
    - rewrite Hreg. simpl. repeat constructor.
    - rewrite Hreg. intros k r H. apply list_elem_of_singleton in H. inversion H; subst. evaluate. }
  split; [unfold registered; rewrite Hreg; left|].
  split; [evaluate|]. split; [evaluate|]. split; [evaluate|].
  destruct (caseMessage_run 0 chatHi 0 5 collided) as (st' & Hrun & _ & Hsent).
  exists st'. split; [exact Hrun|].
  rewrite Hsent.
  assert (Hnone : occurrences 256 (targets (differs 0) collided (Object_values (idToSocket collided)))
                  = 0%nat) by evaluate.
  rewrite Hnone. apply app_nil_r.
Qed.


(** Connection 0, identified as p1, changes its name on a node whose parent
    declared the cluster unified: the record gets the name, and the parent is
    sent the update once. *)
Lemma field_update_forwarded_witness :
  readUInt8 nameAl 2 = Some clientNet.name
  /\ fieldUpdate nameAl 2 5 clientNet.name = Some (js "name", VStr (js "Al"), DString (js "Al"))
  /\ ToString (uid (sockets unified 0)) = Some (js "p1")
  /\ socketToData unified !! js "p1" = Some (VObj [(js "uid", VStr (js "p1"))])
  /\ 0 <= id (sockets unified 0) <= 65535
  /\ unifiedCluster unified = true
  /\ exists st',
       forwardPlayerData nameAl 0 2 (Some 9%nat) 5 unified = Ret tt st'
       /\ socketToData st' !! js "p1"
          = Some (VObj [(js "uid", VStr (js "p1")); (js "name", VStr (js "Al"))])
       /\ sent (sockets st' 9)
          = sent (sockets unified 9)
            ++ [playerDataPacket clientNet.name (DString (js "Al")) 0].
Proof.
  assert (Hread : readUInt8 nameAl 2 = Some clientNet.name) by evaluate.
  assert (Hfield : fieldUpdate nameAl 2 5 clientNet.name
                   = Some (js "name", VStr (js "Al"), DString (js "Al"))) by evaluate.
  assert (Hkey : ToString (uid (sockets unified 0)) = Some (js "p1")) by evaluate.
  assert (Hrec : socketToData unified !! js "p1" = Some (VObj [(js "uid", VStr (js "p1"))]))
    by evaluate.
  assert (Hid : 0 <= id (sockets unified 0) <= 65535) by (split; evaluate).
  assert (Hmode : unifiedCluster unified = true) by evaluate.
  assert (Hparent : ~ registered unified 9).
  { unfold registered. intros H. vm_compute in H.
    apply list_elem_of_singleton in H. discriminate. }
  split; [exact Hread|]. split; [exact Hfield|]. split; [exact Hkey|]. split; [exact Hrec|].
  split; [exact Hid|]. split; [exact Hmode|].
  destruct (field_update_forwarded nameAl 0 2 5 (Some 9%nat) unified clientNet.name
              (js "name") (js "p1") (VStr (js "Al")) (DString (js "Al"))
              [(js "uid", VStr (js "p1"))] Hread Hfield Hkey Hrec Hid)
    as (st' & Hrun & Hstore & _ & Hsent).
  exists st'. split; [exact Hrun|].
  split; [rewrite Hstore, lookup_insert_eq; reflexivity|].
  rewrite (Hsent 9%nat eq_refl Hparent), Hmode.
  repeat f_equal; evaluate.
Defined.

Lemma two_reachable : reachable None two.
Proof.
  apply (reach_ret None one 0 (Accept 1 false (uuidOf 1))).
  - apply (reach_ret None initialState 0 (Accept 0 false (uuidOf 0))).
    + apply reach_start.
    + intros H. vm_compute in H. inversion H.
    + vm_compute. reflexivity.
  - intros H. vm_compute in H. apply list_elem_of_singleton in H. discriminate.
  - vm_compute. reflexivity.
Qed.

Lemma clustered_reachable : reachable (Some 9%nat) clustered.
Proof.
  eapply (reach_ret (Some 9%nat) _ 0 (Accept 1 false (uuidOf 1))).
  - eapply (reach_ret (Some 9%nat) _ 0 (Accept 0 false (uuidOf 0))).
    + eapply (reach_ret (Some 9%nat) initialState 0 Connect).
      * apply reach_start.
      * intros H. vm_compute in H. inversion H.
      * vm_compute. reflexivity.
    + intros H. vm_compute in H. inversion H.
    + vm_compute. reflexivity.
  - intros H. vm_compute in H. apply list_elem_of_singleton in H. discriminate.
  - vm_compute. reflexivity.
Qed.

(** Connection 0 of [one] has not identified itself when it sends a name. *)
Lemma field_update_needs_record_witness :
  readUInt8 nameAl 2 = Some clientNet.name
  /\ fieldUpdate nameAl 2 5 clientNet.name = Some (js "name", VStr (js "Al"), DString (js "Al"))
  /\ ToString (uid (sockets one 0)) = Some (uuidOf 0)
  /\ socketToData one !! uuidOf 0 = None
  /\ (uuidOf 0 ∉ protoKeys)
  /\ forwardPlayerData nameAl 0 2 None 5 one = Throw TypeError one.
Proof.
  assert (Hread : readUInt8 nameAl 2 = Some clientNet.name) by evaluate.
  assert (Hfield : fieldUpdate nameAl 2 5 clientNet.name
                   = Some (js "name", VStr (js "Al"), DString (js "Al"))) by evaluate.
  assert (Hkey : ToString (uid (sockets one 0)) = Some (uuidOf 0)) by evaluate.
  assert (Hnone : socketToData one !! uuidOf 0 = None) by evaluate.
  assert (Hproto : uuidOf 0 ∉ protoKeys).
  { intros H. vm_compute in H.
    repeat (apply elem_of_cons in H as [H|H]; [discriminate|]). inversion H. }
  split; [exact Hread|]. split; [exact Hfield|]. split; [exact Hkey|]. split; [exact Hnone|].
  split; [exact Hproto|].
  exact (field_update_needs_record nameAl 0 2 5 None one clientNet.name (js "name")
           (uuidOf 0) (VStr (js "Al")) (DString (js "Al")) Hread Hfield Hkey Hnone Hproto).
Defined.

(** Connection 0 of [two] sends a sub-packet of type 99: connection 1 gets it. *)
Lemma other_types_relayed_witness :
  readUInt8 typed99 2 = Some 99
  /\ 0 <= id (sockets two 0) <= 65535
  /\ exists st',
       forwardPlayerData typed99 0 2 None 4 two = Ret tt st'
       /\ socketToData st' = socketToData two
       /\ sent (sockets st' 1)
          = sent (sockets two 1) ++ [playerDataPacket 99 (DString (js "x")) 0]
       /\ sent (sockets st' 0) = sent (sockets two 0).
Proof.
  assert (Hread : readUInt8 typed99 2 = Some 99) by evaluate.
  assert (Hid : 0 <= id (sockets two 0) <= 65535) by (split; evaluate).
  split; [exact Hread|]. split; [exact Hid|].
  destruct (other_types_relayed typed99 0 2 4 None two 99 Hread
              ltac:(discriminate) ltac:(discriminate) ltac:(discriminate) ltac:(discriminate)
              Hid)
    as (st' & Hrun & Hsame & Hsent).
  exists st'. split; [exact Hrun|].
  split; [now destruct Hsame as (_ & _ & -> & _)|].
  split; [rewrite (Hsent 1%nat); f_equal; try evaluate|].
  rewrite (Hsent 0%nat). rewrite <- (app_nil_r (sent (sockets two 0))) at 2.
  f_equal; try evaluate.
Defined.

(** A heartbeat and one stray byte. *)
Lemma partial_header_throws_witness :
  Forall wellFormed [(clientNet.heartbeat, @nil byte)]
  /\ dispatchAll 5 0 (encodeRead [(clientNet.heartbeat, [])] ++ [x05]) None
       (layout 0 [(clientNet.heartbeat, [])]) one = Ret tt afterFirstHeartbeat
  /\ processPacket 5 0 (encodeRead [(clientNet.heartbeat, [])] ++ [x05]) None one
     = Throw RangeError afterFirstHeartbeat.
Proof.
  assert (Hwf : Forall wellFormed [(clientNet.heartbeat, @nil byte)])
    by (repeat constructor; evaluate).
  assert (Hrun : dispatchAll 5 0 (encodeRead [(clientNet.heartbeat, [])] ++ [x05]) None
                   (layout 0 [(clientNet.heartbeat, [])]) one = Ret tt afterFirstHeartbeat)
    by evaluate.
  split; [exact Hwf|]. split; [exact Hrun|].
  exact (partial_header_throws 5 0 None [(clientNet.heartbeat, [])] [x05] one
           afterFirstHeartbeat Hwf ltac:(simpl; lia) ltac:(simpl; lia) Hrun).
Defined.

(** A heartbeat with the length field 0. *)
Lemma zero_length_frame_never_ends_witness :
  readInt16LE zeroLength 0 = Some 0
  /\ readUInt8 zeroLength 2 = Some clientNet.heartbeat
  /\ processPacket 1000 0 zeroLength None one = OutOfFuel.
Proof.
  assert (Hlen : readInt16LE zeroLength 0 = Some 0) by evaluate.
  assert (Hty : readUInt8 zeroLength 2 = Some clientNet.heartbeat) by evaluate.
  split; [exact Hlen|]. split; [exact Hty|].
  exact (zero_length_frame_never_ends 0 None zeroLength clientNet.heartbeat Hlen Hty
           (or_introl eq_refl) 1000%nat one).
Defined.

(** A heartbeat, an email and another heartbeat. *)
Lemma email_upload_abort_witness :
  Forall wellFormed [(clientNet.heartbeat, @nil byte)]
  /\ wellFormed (clientNet.email, text "bug")
  /\ dispatchAll 5 0
       (encodeRead ([(clientNet.heartbeat, [])]
                    ++ (clientNet.email, text "bug") :: [(clientNet.heartbeat, [])]))
       None (layout 0 [(clientNet.heartbeat, [])]) one = Ret tt afterFirstHeartbeat
  /\ processPacket 5 0
       (encodeRead ([(clientNet.heartbeat, [])]
                    ++ (clientNet.email, text "bug") :: [(clientNet.heartbeat, [])]))
       None one = Throw ReferenceError afterFirstHeartbeat.
Proof.
  assert (Hwf : Forall wellFormed [(clientNet.heartbeat, @nil byte)])
    by (repeat constructor; evaluate).
  assert (Hbad : wellFormed (clientNet.email, text "bug")) by (repeat constructor; evaluate).
  assert (Hrun : dispatchAll 5 0
                   (encodeRead ([(clientNet.heartbeat, [])]
                      ++ (clientNet.email, text "bug") :: [(clientNet.heartbeat, [])]))
                   None (layout 0 [(clientNet.heartbeat, [])]) one = Ret tt afterFirstHeartbeat)
    by evaluate.
  split; [exact Hwf|]. split; [exact Hbad|]. split; [exact Hrun|].
  exact (email_upload_abort 5 0 None [(clientNet.heartbeat, [])] [(clientNet.heartbeat, [])]
           clientNet.email (text "bug") VNull one afterFirstHeartbeat Hwf Hbad
           ltac:(simpl; lia) (or_introl eq_refl) Hrun).
Defined.

(** A third connection is accepted on the node with parent 9. *)
Lemma accept_announces_witness :
  0 <= playerCount clustered <= 255
  /\ Z.of_nat (length (reg_set (playerCount clustered + serverIndex * 256) 2
                         (idToSocket clustered))) <= 255
  /\ exists st',
       serverCode 2 true (uuidOf 2) (Some 9%nat) clustered = Ret tt st'
       /\ sockets st' 2
          = mkSocket true (VStr (uuidOf 2)) 2 [assignPacket 2 (uuidOf 2)] false true
       /\ idToSocket st' = [(0, 0%nat); (1, 1%nat); (2, 2%nat)]
       /\ sent (sockets st' 9) = sent (sockets clustered 9) ++ [countPacket 3]
       /\ sockets st' 0 = sockets clustered 0.
Proof.
  assert (Hpc : 0 <= playerCount clustered <= 255) by (split; evaluate).
  assert (Hcap : Z.of_nat (length (reg_set (playerCount clustered + serverIndex * 256) 2
                                     (idToSocket clustered))) <= 255) by evaluate.
  split; [exact Hpc|]. split; [exact Hcap|].
  destruct (accept_announces 2 true (uuidOf 2) (Some 9%nat) clustered Hpc (or_intror Hcap)
              ltac:(discriminate))
    as (st' & Hrun & Hsock & Hreg & Hparent & Hothers & _).
  exists st'. split; [exact Hrun|].
  split; [rewrite Hsock; evaluate|].
  split; [rewrite Hreg; evaluate|].
  split; [rewrite (Hparent 9%nat eq_refl), Hreg; evaluate|].
  apply Hothers; discriminate.
Defined.

(** The 256th connection on a node with a parent. *)
Lemma accept_overflows_witness :
  0 <= playerCount full <= 255
  /\ 255 < Z.of_nat (length (reg_set (playerCount full + serverIndex * 256) 255
                               (idToSocket full)))
  /\ exists st',
       serverCode 255 false (uuidOf 255) (Some 999%nat) full = Throw RangeError st'
       /\ reg_get 255 (idToSocket st') = Some 255%nat
       /\ playerCount st' = 0
       /\ sent (sockets st' 255) = [assignPacket 255 (uuidOf 255)]
       /\ listening (sockets st' 255) = false
       /\ sent (sockets st' 999) = [].
Proof.
  assert (Hpc : 0 <= playerCount full <= 255) by (split; evaluate).
  assert (Hfull : 255 < Z.of_nat (length (reg_set (playerCount full + serverIndex * 256) 255
                                            (idToSocket full)))) by evaluate.
  split; [exact Hpc|]. split; [exact Hfull|].
  destruct (accept_overflows 255 999 false (uuidOf 255) full Hpc Hfull)
    as (st' & Hrun & Hreg & Hpc' & Hsock & Hothers).
  assert (Hmine : playerCount full + serverIndex * 256 = 255) by evaluate.
  exists st'. split; [exact Hrun|].
  split; [now rewrite Hmine in Hreg|].
  split; [rewrite Hpc'; evaluate|].
  split; [rewrite Hsock; evaluate|].
  split; [rewrite Hsock; evaluate|].
  rewrite (Hothers 999%nat ltac:(discriminate)). evaluate.
Defined.

Lemma clustered_regWF : regWF clustered.
Proof. apply (reachable_nodeInv (Some 9%nat)), clustered_reachable. Qed.

(** Connection 0 of the node with parent 9 leaves; [unifiedCluster] is not
    set. *)
Lemma disconnect_notifies_witness :
  regWF clustered /\ registered clustered 0
  /\ 0 <= id (sockets clustered 0) <= 65535
  /\ ToString (uid (sockets clustered 0)) = Some (uuidOf 0)
  /\ unifiedCluster clustered = false
  /\ exists st',
       playerDisconnect 0 (Some 9%nat) clustered = Ret tt st'
       /\ idToSocket st' = [(1, 1%nat)]
       /\ sent (sockets st' 1) = sent (sockets clustered 1) ++ [leavePacket 0]
       /\ sent (sockets st' 9) = sent (sockets clustered 9) ++ [leavePacket 0]
       /\ sent (sockets st' 0) = sent (sockets clustered 0).
Proof.
  assert (Hreg0 : registered clustered 0) by (vm_compute; left).
  assert (Hreg1 : registered clustered 1) by (vm_compute; right; left).
  assert (Hid : 0 <= id (sockets clustered 0) <= 65535) by (split; evaluate).
  assert (Hkey : ToString (uid (sockets clustered 0)) = Some (uuidOf 0)) by evaluate.
  assert (Hparent : ~ registered clustered 9).
  { intros H. vm_compute in H.
    repeat (apply elem_of_cons in H as [H|H]; [discriminate|]). inversion H. }
  split; [exact clustered_regWF|]. split; [exact Hreg0|]. split; [exact Hid|].
  split; [exact Hkey|]. split; [evaluate|].
  destruct (disconnect_notifies 0 (Some 9%nat) clustered (uuidOf 0) clustered_regWF Hreg0
              Hid Hkey)
    as (st' & Hrun & Hreg & _ & _ & Hothers & Hp & Hself).
  exists st'. split; [exact Hrun|].
  split; [rewrite Hreg; evaluate|].
  split; [rewrite (Hothers 1%nat Hreg1 ltac:(discriminate) ltac:(discriminate));
          f_equal; try evaluate|].
  split; [rewrite (Hp 9%nat eq_refl Hparent); f_equal; try evaluate|].
  apply Hself. discriminate.
Defined.

(** A relayed chat sub-packet with 40 letters. *)
Lemma relayed_read_taken_for_type_witness :
  frameLength fortyLetters.2 mod 256 = clusterNet.type
  /\ parentData 5 9 (encodeRead [fortyLetters]) clustered
     = Ret tt (sendTo 9 typePacket (set_buf typePacket clustered))
  /\ sent (sockets (sendTo 9 typePacket (set_buf typePacket clustered)) 1)
     = sent (sockets clustered 1).
Proof.
  assert (Hlen : frameLength fortyLetters.2 mod 256 = clusterNet.type) by evaluate.
  split; [exact Hlen|]. split; [|evaluate].
  pose proof (relayed_read_taken_for_type 5 9 fortyLetters [] clustered Hlen) as H.
  assert (Hhigh : ((frameLength fortyLetters.2 / 256) mod 256 =? 1) = false) by evaluate.
  rewrite Hhigh in H. exact H.
Defined.

Lemma two_nodeInv : nodeInv two.
Proof. apply (reachable_nodeInv None), two_reachable. Qed.

(** A third connection is accepted. *)
Lemma listeners_keep_invariant_witness :
  nodeInv two
  /\ fresh None two (Accept 2 false (uuidOf 2))
  /\ exists st',
       handle 0 None (Accept 2 false (uuidOf 2)) two = Ret tt st'
       /\ nodeInv st'.
Proof.
  assert (Hfresh : fresh None two (Accept 2 false (uuidOf 2))).
  { intros H. vm_compute in H.
    repeat (apply elem_of_cons in H as [H|H]; [discriminate|]). inversion H. }
  split; [exact two_nodeInv|]. split; [exact Hfresh|].
  pose proof (listeners_keep_invariant 0 None (Accept 2 false (uuidOf 2)) two
                two_nodeInv Hfresh) as H.
  destruct (handle 0 None (Accept 2 false (uuidOf 2)) two) as [[] st'| | |] eqn:E;
    try (vm_compute in E; discriminate).
  exists st'. split; [reflexivity | apply H].
Defined.

(** The node after its parent has connected and two connections were
    accepted. *)
Lemma reachable_invariant_witness :
  reachable (Some 9%nat) clustered
  /\ nodeInv clustered
  /\ (length (idToSocket clustered) <= 256)%nat
  /\ NoDup (Object_values (idToSocket clustered)).
Proof.
  split; [exact clustered_reachable|].
  exact (reachable_invariant (Some 9%nat) clustered clustered_reachable).
Defined.

(** The parent relays the chat message "hi" to the node with connections 0
    and 1. *)
Lemma cluster_chat_delivered_witness :
  nodeInv clustered
  /\ id (sockets clustered 9) = -1
  /\ wellFormed (clientNet.message, text "hi")
  /\ exists st',
       parentData 1 9 (encodeRead [(clientNet.message, text "hi")]) clustered = Ret tt st'
       /\ sent (sockets st' 0) = sent (sockets clustered 0) ++ [chatPacket (js "hi")]
       /\ sent (sockets st' 1) = sent (sockets clustered 1) ++ [chatPacket (js "hi")]
       /\ sent (sockets st' 9) = sent (sockets clustered 9).
Proof.
  assert (Hinv : nodeInv clustered)
    by apply (reachable_nodeInv (Some 9%nat)), clustered_reachable.
  assert (Hp : id (sockets clustered 9) = -1) by evaluate.
  assert (Hwf : wellFormed (clientNet.message, text "hi")) by (split; [split|]; evaluate).
  split; [exact Hinv|]. split; [exact Hp|]. split; [exact Hwf|].
  destruct (cluster_chat_delivered 0 9 (text "hi") clustered Hinv Hp Hwf
              ltac:(vm_compute; discriminate) ltac:(vm_compute; discriminate)
              ltac:(vm_compute; discriminate))
    as (st' & Hrun & Hsent & Hparent).
  exists st'. split; [exact Hrun|].
  split; [rewrite (Hsent 0%nat ltac:(vm_compute; left)); f_equal; try evaluate|].
  split; [rewrite (Hsent 1%nat ltac:(vm_compute; right; left)); f_equal; try evaluate|].
  exact Hparent.
Defined.

(** The position (-3, 700), facing 2, from connection 0 to connection 1. *)
Lemma position_round_trip_witness :
  exists pkt,
    sendPlayerData clientNet.pos (DPos (-3) 700 2) 0 (Some 1%nat) two
    = Ret tt (sendTo 1 pkt (set_buf pkt two))
    /\ readInt16LE pkt 3 = Some (-3)
    /\ readInt16LE pkt 5 = Some 700
    /\ readUInt8 pkt 7 = Some 2.
Proof.
  destruct (position_round_trip clientNet.pos (-3) 700 2 0 1 two
              ltac:(unfold clientNet.pos; lia) ltac:(lia) ltac:(lia) ltac:(lia) ltac:(lia))
    as (pkt & Hrun & _ & _ & _ & Hx & Hy & Hf).
  exists pkt. split; [exact Hrun|]. split; [exact Hx|]. split; [exact Hy | exact Hf].
Defined.

(** A third connection comes and goes; and the connection that was given the
    id of connection 0, still connected, comes and goes. *)
Lemma accept_then_close_witness :
  0 <= playerCount two <= 255
  /\ (exists st1 st2,
        serverCode 2 false (uuidOf 2) None two = Ret tt st1
        /\ playerDisconnect 2 None st1 = Ret tt st2
        /\ idToSocket st2 = idToSocket two
        /\ playerCount st2 = 3).
Proof.
  assert (Hpc : 0 <= playerCount two <= 255) by (split; evaluate).
  split; [exact Hpc|].
  destruct (accept_then_close 2 false (uuidOf 2) None two Hpc (or_introl eq_refl))
    as (st1 & st2 & Hrun1 & Hrun2 & _ & _ & Hfree & Hpc2 & _).
  exists st1, st2. split; [exact Hrun1|]. split; [exact Hrun2|].
  split; [apply Hfree; evaluate|].
  rewrite Hpc2. evaluate.
Defined.

Lemma p1ThenGuest_reachable : reachable None p1ThenGuest.
Proof.
  apply (reach_ret None (stateOf (processPacket 30 0 identityP1 None one)) 0
           (Accept 1 false (uuidOf 1))).
  - apply (reach_ret None one 30 (OnSocket 0 (EvData identityP1))).
    + apply (reach_ret None initialState 0 (Accept 0 false (uuidOf 0))).
      * apply reach_start.
      * intros H. vm_compute in H. inversion H.
      * vm_compute. reflexivity.
    + exact I.
    + vm_compute. reflexivity.
  - intros H. vm_compute in H. apply list_elem_of_singleton in H. discriminate.
  - vm_compute. reflexivity.
Qed.

(** The second client with the identity p1 identifies itself and leaves. *)
Lemma identity_then_disconnect_witness :
  nodeInv p1ThenGuest
  /\ registered p1ThenGuest 1
  /\ JSON_parse (readBufString identityP1 (3 + 0) 15) = Some (VObj [(js "uid", VStr (js "p1"))])
  /\ (keyBound (socketToData p1ThenGuest) <= 30)%nat
  /\ exists st1 st2,
       dispatch 30 1 identityP1 None 0 15 clientNet.ID p1ThenGuest = Ret tt st1
       /\ playerDisconnect 1 None st1 = Ret tt st2
       /\ socketToData st1 !! js "p1f" = Some (VObj [(js "uid", VStr (js "p1f"))])
       /\ socketToData st2 = socketToData p1ThenGuest
       /\ idToSocket st2 = [(0, 0%nat)].
Proof.
  assert (Hinv : nodeInv p1ThenGuest)
    by apply (reachable_nodeInv None), p1ThenGuest_reachable.
  assert (Hreg : registered p1ThenGuest 1)
    by (unfold registered; rewrite p1ThenGuest_registry; right; left).
  assert (Hparse : JSON_parse (readBufString identityP1 (3 + 0) 15)
                   = Some (VObj [(js "uid", VStr (js "p1"))])) by evaluate.
  assert (Hbound : (keyBound (socketToData p1ThenGuest) <= 30)%nat) by evaluate.
  split; [exact Hinv|]. split; [exact Hreg|]. split; [exact Hparse|]. split; [exact Hbound|].
  destruct (identity_then_disconnect 30 1 identityP1 None 0 15 p1ThenGuest
              [(js "uid", VStr (js "p1"))] (js "p1") Hinv Hreg Hparse eq_refl Hbound
              p1ThenGuest_peers)
    as (st1 & st2 & Hrun1 & Hrun2 & Hstore & Hregistry & _).
  exists st1, st2. split; [exact Hrun1|]. split; [exact Hrun2|].
  split.
  { assert (E : stateOf (dispatch 30 1 identityP1 None 0 15 clientNet.ID p1ThenGuest) = st1)
      by now rewrite Hrun1.
    rewrite <- E. evaluate. }
  split; [exact Hstore|].
  rewrite Hregistry. evaluate.
Defined.

(** The parent of [clustered] relays the identity p1. *)
Lemma identity_from_parent_throws_witness :
  id (sockets clustered 9) = -1
  /\ JSON_parse (readBufString identityP1 (3 + 0) 15) = Some (VObj [(js "uid", VStr (js "p1"))])
  /\ (keyBound (socketToData clustered) <= 30)%nat
  /\ exists st',
       dispatch 30 9 identityP1 None 0 15 clientNet.ID clustered = Throw RangeError st'
       /\ socketToData st' !! js "p1" = Some (VObj [(js "uid", VStr (js "p1"))])
       /\ sent (sockets st' 0) = sent (sockets clustered 0).
Proof.
  assert (Hp : id (sockets clustered 9) = -1) by evaluate.
  assert (Hparse : JSON_parse (readBufString identityP1 (3 + 0) 15)
                   = Some (VObj [(js "uid", VStr (js "p1"))])) by evaluate.
  assert (Hbound : (keyBound (socketToData clustered) <= 30)%nat) by evaluate.
  split; [exact Hp|]. split; [exact Hparse|]. split; [exact Hbound|].
  destruct (identity_from_parent_throws 30 9 identityP1 None 0 15 clustered
              [(js "uid", VStr (js "p1"))] (js "p1") Hp Hparse eq_refl Hbound)
    as (st' & n & Hrun & _ & _ & _ & _ & Hsent).
  exists st'. split; [exact Hrun|].
  split; [|apply Hsent].
  assert (E : stateOf (dispatch 30 9 identityP1 None 0 15 clientNet.ID clustered) = st')
    by now rewrite Hrun.
  rewrite <- E. evaluate.
Defined.

(** Connection 0 of [two] says "hi" in a sub-packet cut short by the read. *)
Lemma truncated_chat_delivered_witness :
  readInt16LE cutShort 0 = Some 10
  /\ readUInt8 cutShort 2 = Some clientNet.message
  /\ byteLength cutShort <= 10
  /\ exists st',
       processPacket 1 0 cutShort None two = Ret tt st'
       /\ sent (sockets st' 1) = sent (sockets two 1) ++ [chatPacket (js "hi")].
Proof.
  assert (Hlen : readInt16LE cutShort 0 = Some 10) by evaluate.
  assert (Hty : readUInt8 cutShort 2 = Some clientNet.message) by evaluate.
  assert (Hshort : byteLength cutShort <= 10) by evaluate.
  split; [exact Hlen|]. split; [exact Hty|]. split; [exact Hshort|].
  destruct (truncated_chat_delivered 0 0 None cutShort 10 two Hlen Hty Hshort)
    as (st' & Hrun & _ & Hsent).
  exists st'. split; [exact Hrun|].
  rewrite (Hsent 1%nat). f_equal; try evaluate.
Defined.

(** A heartbeat with the length field -3 from the connection of [one]. *)
Lemma negative_length_throws_witness :
  readInt16LE negativeLength 0 = Some (-3)
  /\ readUInt8 negativeLength 2 = Some clientNet.heartbeat
  /\ processPacket 2 0 negativeLength None one
     = Throw RangeError (sendTo 0 heartbeatPacket (set_buf heartbeatPacket one)).
Proof.
  assert (Hlen : readInt16LE negativeLength 0 = Some (-3)) by evaluate.
  assert (Hty : readUInt8 negativeLength 2 = Some clientNet.heartbeat) by evaluate.
  split; [exact Hlen|]. split; [exact Hty|].
  exact (negative_length_throws 0 0 None negativeLength (-3) one Hlen Hty ltac:(lia)).
Defined.

(** Connection 1 of two sends a chat message with a NUL and two U+0005 in it,
    a third connection is accepted, and connection 1 leaves. *)
Lemma chat_packet_layout_witness :
  regWF two
  /\ 0 <= playerCount two <= 255
  /\ 0 <= id (sockets two 1) <= 65535
  /\ ToString (uid (sockets two 1)) = Some (uuidOf 1)
  /\ (exists st',
        dispatch 0 1 chatMarked None 0 8 clientNet.message two = Ret tt st'
        /\ sent (sockets st' 0)
           = sent (sockets two 0)
             ++ [Zbyte serverNet.message :: [x68; x69; x05] ++ Buffer_alloc 4092])
  /\ (exists st',
        serverCode 2 false (uuidOf 2) None two = Ret tt st'
        /\ sent (sockets st' 2) = [assignPacket 2 (uuidOf 2)]
        /\ uint16At (assignPacket 2 (uuidOf 2)) 1 = 2)
  /\ (exists st',
        playerDisconnect 1 None two = Ret tt st'
        /\ sent (sockets st' 0) = sent (sockets two 0) ++ [leavePacket 1]
        /\ uint16At (leavePacket 1) 1 = 1).
Proof.
  assert (Hpc : 0 <= playerCount two <= 255) by (split; evaluate).
  assert (Hid : 0 <= id (sockets two 1) <= 65535) by (split; evaluate).
  assert (Hkey : ToString (uid (sockets two 1)) = Some (uuidOf 1)) by evaluate.
  split; [exact two_regWF|]. split; [exact Hpc|]. split; [exact Hid|]. split; [exact Hkey|].
  destruct (chat_packet_layout 0 1 chatMarked None 0 8 two (uuidOf 1) two_regWF Hpc Hid Hkey)
    as (Hchat & _ & _ & _ & _ & _ & Hassign & Hleave).
  assert (H0 : registered two 0) by (apply two_registered; lia).
  assert (Hne : id (sockets two 0) <> id (sockets two 1)) by evaluate.
  split; [|split].
  - destruct Hchat as (st' & Hrun & Hsent & _).
    exists st'. split; [exact Hrun|].
    rewrite (Hsent 0%nat H0 Hne). f_equal; try evaluate.
  - destruct (Hassign 2%nat false (uuidOf 2))
      as (st' & rest & Hrun & Hid' & Hsent & Hrest & _ & Hu).
    assert (Hret : serverCode 2 false (uuidOf 2) None two = Ret tt st').
    { destruct Hrun as [H|H]; [exact H|]. exfalso. vm_compute in H. discriminate. }
    assert (Hmine : playerCount two + serverIndex * 256 = 2) by evaluate.
    assert (Hnone : sent (sockets two 2) = []) by evaluate.
    rewrite Hid', Hmine in Hsent, Hu.
    rewrite (Hrest ltac:(discriminate)), Hnone in Hsent.
    exists st'. split; [exact Hret|]. split; [exact Hsent | exact Hu].
  - destruct Hleave as (st' & Hrun & _ & Hu & Hsent).
    assert (Hi : id (sockets two 1) = 1) by evaluate.
    rewrite Hi in Hu.
    exists st'. split; [exact Hrun|].
    split; [rewrite (Hsent 0%nat H0 Hne), Hi; reflexivity | exact Hu].
Defined.

(** Connection 1 of two sends a sub-packet of type 2 with the text hi: the
    switch relays it, and connection 0 is sent a packet with the chat type
    byte and the id of connection 1 at offset 1. *)
Lemma relayed_chat_type_names_sender :
  readUInt8 typed2 2 = Some serverNet.message
  /\ exists st',
       processPacket 1 1 typed2 None two = Ret tt st'
       /\ sent (sockets st' 0)
          = sent (sockets two 0) ++ [playerDataPacket serverNet.message (DString (js "hi")) 1]
       /\ byteAt (playerDataPacket serverNet.message (DString (js "hi")) 1) 0 = serverNet.message
       /\ uint16At (playerDataPacket serverNet.message (DString (js "hi")) 1) 1
          = id (sockets two 1)
       /\ byteAt (playerDataPacket serverNet.message (DString (js "hi")) 1) 3 = 104.
Proof.
  split; [evaluate|].
  exists (stateOf (processPacket 1 1 typed2 None two)).
  split; [evaluate|]. split; [evaluate|]. split; [evaluate|]. split; evaluate.
Qed.

End Examples.
